(** * doc2tex: the escape codec, the markup generator and the markup parser

    A shallow embedding of [doc2tex/utils.py], [doc2tex/latex.py] and
    [doc2tex/docx.py].  Python strings are lists of characters; the
    characters are the 256 code points of [ascii] (read as Latin-1), which
    cover every character the tables and patterns of the program name. *)

From Stdlib Require Import Ascii String DecimalString.
From Stdlib Require Import List Bool Arith Lia.
Import ListNotations.

(** ** Strings *)

Definition str := list ascii.

(** String literals are written [$"..."]. *)
Notation "$ x" := (list_ascii_of_string x) (at level 1, x at level 0, only parsing).

Definition nl : ascii := ascii_of_nat 10.
Definition bsl : ascii := ascii_of_nat 92.

Module Py.

(** [s.startswith(p)] *)
Fixpoint startswith (p s : str) : bool :=
  match p, s with
  | [], _ => true
  | a :: p', b :: s' => if Ascii.eqb a b then startswith p' s' else false
  | _ :: _, [] => false
  end.

(** [sub in s] *)
Fixpoint contains (sub s : str) : bool :=
  if startswith sub s then true
  else match s with
       | [] => false
       | _ :: s' => contains sub s'
       end.

(** [s.find(sub)]: offset of the first occurrence. *)
Fixpoint find (sub s : str) : option nat :=
  if startswith sub s then Some 0
  else match s with
       | [] => None
       | _ :: s' => option_map S (find sub s')
       end.

(** The scan of [str.replace] for a non-empty [old]: [skip] counts the
    characters of the occurrence just replaced that are still to be passed
    over, so occurrences are taken left to right without overlap. *)
Fixpoint replace_scan (old new : str) (skip : nat) (s : str) : str :=
  match s with
  | [] => []
  | c :: s' =>
      match skip with
      | S k => replace_scan old new k s'
      | 0 => if startswith old s
             then new ++ replace_scan old new (length old - 1) s'
             else c :: replace_scan old new 0 s'
      end
  end.

(** [s.replace(old, new)]; an empty [old] matches between all characters. *)
Definition replace (old new s : str) : str :=
  match old with
  | [] => new ++ flat_map (fun c => c :: new) s
  | _ :: _ => replace_scan old new 0 s
  end.

(** [str.isspace] on one character, also the class [\s] of [re]. *)
Definition isspace (c : ascii) : bool :=
  let n := nat_of_ascii c in
  ((9 <=? n) && (n <=? 13)) || ((28 <=? n) && (n <=? 32))
  || (n =? 133) || (n =? 160).

Fixpoint lstrip (s : str) : str :=
  match s with
  | c :: s' => if isspace c then lstrip s' else s
  | [] => []
  end.

Definition rstrip (s : str) : str := rev (lstrip (rev s)).

(** [s.strip()] *)
Definition strip (s : str) : str := rstrip (lstrip s).

(** [sep.join(parts)] *)
Fixpoint join (sep : str) (parts : list str) : str :=
  match parts with
  | [] => []
  | [p] => p
  | p :: ps => p ++ sep ++ join sep ps
  end.

(** The scan of [str.split(sep)] for a non-empty [sep]; [cur] holds the
    piece being read, reversed. *)
Fixpoint split_scan (sep : str) (skip : nat) (cur : str) (s : str) : list str :=
  match s with
  | [] => [rev cur]
  | c :: s' =>
      match skip with
      | S k => split_scan sep k cur s'
      | 0 => if startswith sep s
             then rev cur :: split_scan sep (length sep - 1) [] s'
             else split_scan sep 0 (c :: cur) s'
      end
  end.

(** [s.split(sep)] for a non-empty [sep]. *)
Definition split (sep s : str) : list str := split_scan sep 0 [] s.

(** [s.rfind(c)] for one character: the offset of its last occurrence. *)
Fixpoint rfind (c : ascii) (s : str) : option nat :=
  match s with
  | [] => None
  | x :: s' =>
      match rfind c s' with
      | Some i => Some (S i)
      | None => if Ascii.eqb x c then Some 0 else None
      end
  end.

(** [s.lstrip(chars)], [s.rstrip(chars)] and [s.strip(chars)] *)
Fixpoint lstrip_chars (chars s : str) : str :=
  match s with
  | c :: s' => if existsb (Ascii.eqb c) chars then lstrip_chars chars s' else s
  | [] => []
  end.

Definition rstrip_chars (chars s : str) : str :=
  rev (lstrip_chars chars (rev s)).

Definition strip_chars (chars s : str) : str :=
  rstrip_chars chars (lstrip_chars chars s).

(** [str.lower] on one character: the letters A to Z and the capital
    letters of the Latin-1 block move up by 32. *)
Definition lower_char (c : ascii) : ascii :=
  let n := nat_of_ascii c in
  if ((65 <=? n) && (n <=? 90))
     || ((192 <=? n) && (n <=? 222) && negb (n =? 215))
  then ascii_of_nat (n + 32) else c.

Definition lower (s : str) : str := map lower_char s.

(** [s[:a - b]]: a stop below zero counts from the end. *)
Definition slice_stop (a b : nat) (s : str) : str :=
  if b <=? a then firstn (a - b) s else firstn (length s - (b - a)) s.

End Py.

(** ** utils.py: the escape table and the codec *)

(** [LATEX_SPECIAL_CHARS], in the insertion order of the dict literal. *)
Definition LATEX_SPECIAL_CHARS : list (ascii * str) :=
  [ ("&"%char, $"\&");
    ("%"%char, $"\%");
    ("$"%char, $"\$");
    ("#"%char, $"\#");
    ("_"%char, $"\_");
    ("{"%char, $"\{");
    ("}"%char, $"\}");
    ("~"%char, $"\textasciitilde{}");
    ("^"%char, $"\textasciicircum{}");
    (bsl, $"\textbackslash{}") ].

(** The loop of [escape_latex] over the table. *)
Fixpoint escape_loop (tbl : list (ascii * str)) (text : str) : str :=
  match tbl with
  | [] => text
  | (char, escaped) :: tbl' =>
      if Ascii.eqb char bsl then escape_loop tbl' text
      else escape_loop tbl' (Py.replace [char] escaped text)
  end.

Definition escape_latex (text : str) : str :=
  match text with
  | [] => []
  | _ :: _ =>
      let text := Py.replace [bsl] $"\textbackslash{}" text in
      escape_loop LATEX_SPECIAL_CHARS text
  end.

(** The loop of [unescape_latex] over the table. *)
Fixpoint unescape_loop (tbl : list (ascii * str)) (text : str) : str :=
  match tbl with
  | [] => text
  | (char, escaped) :: tbl' => unescape_loop tbl' (Py.replace escaped [char] text)
  end.

Definition unescape_latex (text : str) : str :=
  match text with
  | [] => []
  | _ :: _ => unescape_loop LATEX_SPECIAL_CHARS text
  end.


(** ** The fragment of Python's [re] the program uses

    A backtracking matcher in continuation-passing style: alternatives are
    tried in the order of [re] (a greedy repeat tries one more round before
    it lets the rest of the pattern run, a lazy one the other way round), and
    the first success is the answer. *)

Module Re.

Inductive regex : Type :=
| Chr (p : ascii -> bool)        (* one character of a class *)
| Eps                            (* the empty pattern *)
| Cat (r1 r2 : regex)            (* r1 r2 *)
| Star (r : regex)               (* r*   *)
| Lazy (r : regex)               (* r*?  *)
| Opt (r : regex)                (* r?   *)
| Group (i : nat) (r : regex).   (* the i-th capturing group *)

Definition Lit (c : ascii) : regex := Chr (Ascii.eqb c).
Definition NotOf (cs : list ascii) : regex :=
  Chr (fun c => negb (existsb (Ascii.eqb c) cs)).
(** [.] under [re.DOTALL] *)
Definition Dot : regex := Chr (fun _ => true).
(** [\s] *)
Definition Space : regex := Chr Py.isspace.
(** [r+] *)
Definition Plus (r : regex) : regex := Cat r (Star r).
(** a literal word *)
Fixpoint Lits (w : str) : regex :=
  match w with
  | [] => Eps
  | c :: w' => Cat (Lit c) (Lits w')
  end.

(** Captures: group number and captured text, the latest first. *)
Definition caps := list (nat * str).
(** The unread rest of the subject and the captures. *)
Definition outcome := option (str * caps).

(** What a pattern does with a subject, the captures so far and the rest of
    the pattern. *)
Definition matcher := str -> caps -> (str -> caps -> outcome) -> outcome.

(** The rounds of a greedy repeat: one more round of [body] first, the rest
    of the pattern when that fails.  A round that reads nothing ends the
    repeat; [fuel] is the length of the subject, so it never runs out. *)
Fixpoint star_loop (body : matcher) (k : str -> caps -> outcome)
  (fuel : nat) (s : str) (cs : caps) {struct fuel} : outcome :=
  match fuel with
  | 0 => k s cs
  | S f =>
      match body s cs (fun s' cs' =>
              if length s' <? length s then star_loop body k f s' cs' else None) with
      | Some res => Some res
      | None => k s cs
      end
  end.

(** The rounds of a lazy repeat: the rest of the pattern first, one more
    round of [body] when that fails. *)
Fixpoint lazy_loop (body : matcher) (k : str -> caps -> outcome)
  (fuel : nat) (s : str) (cs : caps) {struct fuel} : outcome :=
  match k s cs with
  | Some res => Some res
  | None =>
      match fuel with
      | 0 => None
      | S f =>
          body s cs (fun s' cs' =>
            if length s' <? length s then lazy_loop body k f s' cs' else None)
      end
  end.

Fixpoint run (r : regex) (s : str) (cs : caps) (k : str -> caps -> outcome)
  {struct r} : outcome :=
  match r with
  | Chr p =>
      match s with
      | c :: s' => if p c then k s' cs else None
      | [] => None
      end
  | Eps => k s cs
  | Cat r1 r2 => run r1 s cs (fun s' cs' => run r2 s' cs' k)
  | Star r0 => star_loop (run r0) k (length s) s cs
  | Lazy r0 => lazy_loop (run r0) k (length s) s cs
  | Opt r0 =>
      match run r0 s cs k with
      | Some res => Some res
      | None => k s cs
      end
  | Group i r0 =>
      run r0 s cs (fun s' cs' => k s' ((i, firstn (length s - length s') s) :: cs'))
  end.

(** A match object: [start()], [end()] and the groups. *)
Record match_obj : Type := { m_start : nat; m_end : nat; m_groups : caps }.

Fixpoint lookup (i : nat) (cs : caps) : str :=
  match cs with
  | [] => []
  | (j, w) :: cs' => if i =? j then w else lookup i cs'
  end.

(** [m.group(i)] *)
Definition group (m : match_obj) (i : nat) : str := lookup i (m_groups m).

(** The attempt of the pattern at one offset. *)
Definition match_here (r : regex) (pos : nat) (s : str) : option match_obj :=
  match run r s [] (fun rest cs => Some (rest, cs)) with
  | Some (rest, cs) =>
      Some {| m_start := pos; m_end := pos + (length s - length rest); m_groups := cs |}
  | None => None
  end.

Fixpoint search_from (r : regex) (pos : nat) (s : str) : option match_obj :=
  match match_here r pos s with
  | Some m => Some m
  | None => match s with
            | [] => None
            | _ :: s' => search_from r (S pos) s'
            end
  end.

(** [re.search(r, s)]: the attempt at the lowest offset that succeeds. *)
Definition search (r : regex) (s : str) : option match_obj := search_from r 0 s.

(** [re.findall(r, s)] for a pattern with one group that matches no empty
    string: the group of each match, the scan resuming where the previous
    match ended. *)
Fixpoint findall_loop (fuel : nat) (r : regex) (s : str) : list str :=
  match fuel with
  | 0 => []
  | S f =>
      match search r s with
      | None => []
      | Some m => group m 1 :: findall_loop f r (skipn (m_end m) s)
      end
  end.

Definition findall (r : regex) (s : str) : list str :=
  findall_loop (S (length s)) r s.

(** [re.split(r, s)] for a pattern without groups that matches no empty
    string. *)
Fixpoint split_loop (fuel : nat) (r : regex) (s : str) : list str :=
  match fuel with
  | 0 => [s]
  | S f =>
      match search r s with
      | None => [s]
      | Some m => firstn (m_start m) s :: split_loop f r (skipn (m_end m) s)
      end
  end.

Definition split (r : regex) (s : str) : list str :=
  split_loop (S (length s)) r s.

(** [re.sub(r, repl, s)] for a pattern that matches no empty string and a
    replacement without group reference. *)
Fixpoint sub_loop (fuel : nat) (r : regex) (repl s : str) : str :=
  match fuel with
  | 0 => s
  | S f =>
      match search r s with
      | None => s
      | Some m =>
          firstn (m_start m) s ++ repl ++ sub_loop f r repl (skipn (m_end m) s)
      end
  end.

Definition sub (r : regex) (repl s : str) : str :=
  sub_loop (S (length s)) r repl s.

End Re.

(** ** The object model of python-docx, as far as the program touches it *)

Inductive Alignment : Type := LEFT | CENTER | RIGHT | JUSTIFY.

(** [run.hyperlink], with its optional attribute [address]: what the
    generator asks a run for. *)
Record Hyperlink : Type := { address : option str }.

(** A run; [run_hyperlink] is [None] when the attribute is missing or
    falsy.  The class [Run] of python-docx has no such attribute: for the
    runs of a document the field is [None]. *)
Record Run : Type := {
  run_text : str;
  run_bold : bool;
  run_italic : bool;
  run_underline : bool;
  run_hyperlink : option Hyperlink
}.

(** A paragraph whose content is runs only. *)
Record Paragraph : Type := {
  par_style : str;
  par_runs : list Run;
  par_alignment : option Alignment
}.

(** [paragraph.text] of a paragraph without hyperlink element: the text of
    the runs, concatenated.  [Linked.text] below is the property for a
    paragraph with hyperlink elements, whose text [paragraph.text] holds
    and whose runs [paragraph.runs] leaves out. *)
Definition par_text (p : Paragraph) : str := concat (map run_text (par_runs p)).

(** A table read by the generator: rows of cell texts. *)
Definition Table := list (list str).

(** What [paragraph.add_run(text)] appends. *)
Definition plain_run (text : str) : Run :=
  {| run_text := text; run_bold := false; run_italic := false;
     run_underline := false; run_hyperlink := None |}.

(** ["Heading %d" % level], the name of the built-in heading style. *)
Definition decimal (n : nat) : str :=
  list_ascii_of_string (NilEmpty.string_of_uint (Nat.to_uint n)).

Definition heading_style (level : nat) : str := $"Heading " ++ decimal level.

(** ** latex.py: the markup generator *)

Module LatexGenerator.

(** The body of the loop over [paragraph.runs] in [_process_paragraph]. *)
Definition render_run (run : Run) : str :=
  let text := escape_latex (run_text run) in
  let text := if run_bold run then $"\textbf{" ++ text ++ $"}" else text in
  let text := if run_italic run then $"\textit{" ++ text ++ $"}" else text in
  let text := if run_underline run then $"\underline{" ++ text ++ $"}" else text in
  match run_hyperlink run with
  | Some h =>
      let url := match address h with Some a => a | None => [] end in
      match url with
      | _ :: _ => $"\href{" ++ url ++ $"}{" ++ text ++ $"}"
      | [] => text
      end
  | None => text
  end.

Definition _process_heading (paragraph : Paragraph) : str :=
  let text := escape_latex (par_text paragraph) in
  let style_name := par_style paragraph in
  if Py.contains $"Heading 1" style_name then $"\section{" ++ text ++ $"}"
  else if Py.contains $"Heading 2" style_name then $"\subsection{" ++ text ++ $"}"
  else if Py.contains $"Heading 3" style_name then $"\subsubsection{" ++ text ++ $"}"
  else if Py.contains $"Heading 4" style_name then $"\paragraph{" ++ text ++ $"}"
  else $"\subparagraph{" ++ text ++ $"}".

Definition _process_paragraph (paragraph : Paragraph) : str :=
  match Py.strip (par_text paragraph) with
  | [] => []
  | _ :: _ =>
      if Py.startswith $"Heading" (par_style paragraph)
      then _process_heading paragraph
      else
        let text_parts := map render_run (par_runs paragraph) in
        let paragraph_text := concat text_parts in
        match par_alignment paragraph with
        | Some CENTER =>
            $"\begin{center}" ++ [nl] ++ paragraph_text ++ [nl] ++ $"\end{center}"
        | Some RIGHT =>
            $"\begin{flushright}" ++ [nl] ++ paragraph_text ++ [nl] ++ $"\end{flushright}"
        | _ => paragraph_text
        end
  end.

(** The lines one row of the table contributes. *)
Definition row_lines (i : nat) (row : list str) : list str :=
  let cells := map (fun cell => escape_latex (Py.strip cell)) row in
  let row_text := Py.join $" & " cells ++ $" \\" in
  if i =? 0 then [row_text; $"\midrule"] else [row_text].

Fixpoint rows_lines (i : nat) (rows : list (list str)) : list str :=
  match rows with
  | [] => []
  | row :: rows' => row_lines i row ++ rows_lines (S i) rows'
  end.

Definition _process_table (table : Table) : str :=
  match table with
  | [] => []
  | row0 :: _ =>
      let num_cols := length row0 in
      let lines :=
        [ $"\begin{table}[h]";
          $"\centering";
          $"\begin{tabular}{" ++ Py.join $"|" (repeat $"l" num_cols) ++ $"}";
          $"\toprule" ]
        ++ rows_lines 0 table
        ++ [ $"\bottomrule"; $"\end{tabular}"; $"\end{table}" ] in
      Py.join [nl] lines
  end.

(** An element of the document body. *)
Inductive BodyElement : Type :=
| CT_P (paragraph : Paragraph)
| CT_Tbl (table : Table).

Fixpoint body_lines (body : list BodyElement) : list str :=
  match body with
  | [] => []
  | CT_P paragraph :: body' =>
      match _process_paragraph paragraph with
      | [] => body_lines body'
      | latex_para => latex_para :: body_lines body'
      end
  | CT_Tbl table :: body' =>
      match _process_table table with
      | [] => body_lines body'
      | latex_table => latex_table :: body_lines body'
      end
  end.

Definition _process_document_body (body : list BodyElement) : str :=
  Py.join [nl; nl] (body_lines body).

End LatexGenerator.

(** ** docx.py: the markup parser *)

Module DocxGenerator.

Import Re.

(** What the parser adds to [self.doc], one constructor per call of the
    python-docx document. *)
Inductive Element : Type :=
| Heading (title : str) (level : nat)              (* add_heading *)
| Para (paragraph : Paragraph)                     (* add_paragraph *)
| Tbl (style : str) (cells : list (list str))      (* add_table *)
| Picture (path : str).                            (* add_picture *)

Definition Document := list Element.

(** [doc.add_paragraph(text, style)]: the text, when there is any, is the
    paragraph's only run. *)
Definition add_paragraph (text : str) (style : str) : Paragraph :=
  {| par_style := style;
     par_runs := match text with [] => [] | _ :: _ => [plain_run text] end;
     par_alignment := None |}.

(** The file system and the image library, as far as [_process_figure]
    asks them. *)
Record World : Type := {
  path_exists : str -> bool;      (* os.path.exists *)
  picture_loads : str -> bool     (* add_picture does not raise *)
}.

(** [\\begin\{document\}(.*?)\\end\{document\}] with [re.DOTALL] *)
Definition document_re : regex :=
  Cat (Lits $"\begin{document}") (Cat (Group 1 (Lazy Dot)) (Lits $"\end{document}")).

(** [\n\s*\n] *)
Definition blank_re : regex := Cat (Lit nl) (Cat (Star Space) (Lit nl)).

(** [\\(?:sub)*section\{([^}]+)\}] *)
Definition section_re : regex :=
  Cat (Lit bsl) (Cat (Star (Lits $"sub")) (Cat (Lits $"section{")
    (Cat (Group 1 (Plus (NotOf ["}"%char]))) (Lit "}")))).

(** [\\textbf\{([^}]+)\}] and its two siblings *)
Definition command_re (name : str) : regex :=
  Cat (Lits name) (Cat (Lit "{") (Cat (Group 1 (Plus (NotOf ["}"%char]))) (Lit "}"))).

(** [\\href\{([^}]+)\}\{([^}]+)\}] *)
Definition href_re : regex :=
  Cat (Lits $"\href{") (Cat (Group 1 (Plus (NotOf ["}"%char]))) (Cat (Lits $"}{")
    (Cat (Group 2 (Plus (NotOf ["}"%char]))) (Lit "}")))).

(** [\\begin\{tabular\}\{[^}]+\}(.*?)\\end\{tabular\}] with [re.DOTALL] *)
Definition tabular_re : regex :=
  Cat (Lits $"\begin{tabular}{") (Cat (Plus (NotOf ["}"%char])) (Cat (Lit "}")
    (Cat (Group 1 (Lazy Dot)) (Lits $"\end{tabular}")))).

(** [\\includegraphics(?:\[[^\]]+\])?\{([^}]+)\}] *)
Definition includegraphics_re : regex :=
  Cat (Lits $"\includegraphics")
    (Cat (Opt (Cat (Lit "[") (Cat (Plus (NotOf ["]"%char])) (Lit "]"))))
      (Cat (Lit "{") (Cat (Group 1 (Plus (NotOf ["}"%char]))) (Lit "}")))).

(** [\\item\s+([^\\\n]+)] *)
Definition item_re : regex :=
  Cat (Lits $"\item") (Cat (Plus Space) (Group 1 (Plus (NotOf [bsl; nl])))).

(** [\\begin\{center\}(.*?)\\end\{center\}] with [re.DOTALL] *)
Definition center_re : regex :=
  Cat (Lits $"\begin{center}") (Cat (Group 1 (Lazy Dot)) (Lits $"\end{center}")).

(** The first three lines of [_parse_latex]: the body of the document. *)
Definition document_body (content : str) : str :=
  match search document_re content with
  | Some doc_match => group doc_match 1
  | None => content
  end.

Definition _split_into_blocks (content : str) : list str :=
  let blocks := Re.split blank_re content in
  map Py.strip
    (filter (fun block => match Py.strip block with [] => false | _ => true end) blocks).

Definition _process_section (block : str) (level : nat) (doc : Document) : Document :=
  match search section_re block with
  | None => doc
  | Some m =>
      let title := unescape_latex (group m 1) in
      doc ++ [Heading title level]
  end.

Inductive fmt_type : Type := bold | italic | underline | hyperlink.

Definition patterns : list (regex * fmt_type) :=
  [ (command_re $"\textbf", bold);
    (command_re $"\textit", italic);
    (command_re $"\underline", underline);
    (href_re, hyperlink) ].

(** The [for] loop over the patterns: the earliest match in [rest], an
    earlier pattern winning when two start at the same offset. *)
Fixpoint first_occurrence (pats : list (regex * fmt_type)) (rest : str)
  (next : option (match_obj * fmt_type)) : option (match_obj * fmt_type) :=
  match pats with
  | [] => next
  | (pattern, ty) :: pats' =>
      match search pattern rest with
      | Some m =>
          match next with
          | None => first_occurrence pats' rest (Some (m, ty))
          | Some (next_match, _) =>
              if m_start m <? m_start next_match
              then first_occurrence pats' rest (Some (m, ty))
              else first_occurrence pats' rest next
          end
      | None => first_occurrence pats' rest next
      end
  end.

(** [paragraph.add_run(text)] guarded by [if text:]. *)
Definition add_run_if (text : str) (runs : list Run) : list Run :=
  match text with
  | [] => runs
  | _ :: _ => runs ++ [plain_run text]
  end.

(** The run added for a match of the given kind. *)
Definition formatted_run (m : match_obj) (ty : fmt_type) : Run :=
  match ty with
  | hyperlink => plain_run (unescape_latex (group m 2))
  | bold =>
      {| run_text := unescape_latex (group m 1); run_bold := true;
         run_italic := false; run_underline := false; run_hyperlink := None |}
  | italic =>
      {| run_text := unescape_latex (group m 1); run_bold := false;
         run_italic := true; run_underline := false; run_hyperlink := None |}
  | underline =>
      {| run_text := unescape_latex (group m 1); run_bold := false;
         run_italic := false; run_underline := true; run_hyperlink := None |}
  end.

(** The [while pos < len(text)] loop; [fuel] bounds the number of rounds. *)
Fixpoint inline_loop (fuel : nat) (text : str) (pos : nat) (runs : list Run)
  : list Run :=
  match fuel with
  | 0 => runs
  | S f =>
      if pos <? length text then
        match first_occurrence patterns (skipn pos text) None with
        | None => add_run_if (unescape_latex (skipn pos text)) runs
        | Some (next_match, next_type) =>
            let before_text :=
              unescape_latex (firstn (m_start next_match) (skipn pos text)) in
            let runs := add_run_if before_text runs in
            let runs := runs ++ [formatted_run next_match next_type] in
            inline_loop f text (pos + m_end next_match) runs
        end
      else runs
  end.

(** Every round but the last moves [pos] forward, so [len(text)] rounds and
    one more are enough. *)
Definition _parse_inline_formatting (text : str) (paragraph : Paragraph) : Paragraph :=
  {| par_style := par_style paragraph;
     par_runs := inline_loop (S (length text)) text 0 (par_runs paragraph);
     par_alignment := par_alignment paragraph |}.

Definition _process_paragraph (block : str) (doc : Document) : Document :=
  match Py.strip block with
  | [] => doc
  | _ :: _ =>
      let paragraph := add_paragraph [] $"Normal" in
      doc ++ [Para (_parse_inline_formatting block paragraph)]
  end.

(** [doc.add_table(rows, cols)]: a grid of empty cells. *)
Definition add_table (rows cols : nat) : list (list str) :=
  repeat (repeat [] cols) rows.

(** [xs[i] = v] for an index in range. *)
Fixpoint set_nth {A : Type} (xs : list A) (i : nat) (v : A) : list A :=
  match xs, i with
  | [], _ => []
  | _ :: xs', 0 => v :: xs'
  | x :: xs', S i' => x :: set_nth xs' i' v
  end.

(** [table.rows[i].cells[j].text = text] *)
Definition set_cell (grid : list (list str)) (i j : nat) (text : str)
  : list (list str) :=
  set_nth grid i (set_nth (nth i grid []) j text).

(** The inner loop over [enumerate(cells)]. *)
Fixpoint fill_row (num_cols i j : nat) (cells : list str) (grid : list (list str))
  : list (list str) :=
  match cells with
  | [] => grid
  | cell_text :: cells' =>
      let grid := if j <? num_cols then set_cell grid i j cell_text else grid in
      fill_row num_cols i (S j) cells' grid
  end.

(** The outer loop over [enumerate(rows)]. *)
Fixpoint fill_rows (num_cols i : nat) (rows : list str) (grid : list (list str))
  : list (list str) :=
  match rows with
  | [] => grid
  | row_text :: rows' =>
      let cells :=
        map (fun cell => unescape_latex (Py.strip cell)) (Py.split $"&" row_text) in
      fill_rows num_cols (S i) rows' (fill_row num_cols i 0 cells grid)
  end.

(** The rows the table is built from: the pieces between row terminators,
    stripped, without the empty ones and without those that start with a
    backslash. *)
Definition table_rows (table_content : str) : list str :=
  let rows :=
    map Py.strip
      (filter (fun row => match Py.strip row with [] => false | _ => true end)
         (Py.split $"\\" table_content)) in
  filter (fun row => negb (Py.startswith [bsl] row)) rows.

Definition _process_table (block : str) (doc : Document) : Document :=
  match search tabular_re block with
  | None => doc
  | Some tabular_match =>
      let table_content := group tabular_match 1 in
      let rows := table_rows table_content in
      match rows with
      | [] => doc
      | row0 :: _ =>
          let first_row_cells := map Py.strip (Py.split $"&" row0) in
          let num_cols := length first_row_cells in
          let table := add_table (length rows) num_cols in
          doc ++ [Tbl $"Light Grid Accent 1" (fill_rows num_cols 0 rows table)]
      end
  end.

(** What [add_picture] leaves in the document when it raises.  Its body is
    [run = self.add_paragraph().add_run()] followed by
    [run.add_picture(...)]: the paragraph with its one empty run is appended
    before the image is loaded, and stays when loading fails. *)
Definition picture_paragraph : Paragraph :=
  {| par_style := $"Normal"; par_runs := [plain_run []]; par_alignment := None |}.

Definition _process_figure (w : World) (block : str) (doc : Document) : Document :=
  match search includegraphics_re block with
  | None => doc
  | Some m =>
      let image_path := group m 1 in
      if path_exists w image_path then
        if picture_loads w image_path then doc ++ [Picture image_path]
        else
          let doc := doc ++ [Para picture_paragraph] in
          doc ++ [Para (add_paragraph
                    ($"[Image file found but could not be added: " ++ image_path ++ $"]")
                    $"Normal")]
      else doc ++ [Para (add_paragraph
               ($"[Image not found at path: " ++ image_path ++ $"]") $"Normal")]
  end.

Definition _process_list (block : str) (doc : Document) : Document :=
  let is_numbered := Py.contains $"\begin{enumerate}" block in
  let items := findall item_re block in
  fold_left
    (fun doc item_text =>
       let item_text := unescape_latex (Py.strip item_text) in
       let style := if is_numbered then $"List Number" else $"List Bullet" in
       doc ++ [Para (add_paragraph item_text style)])
    items doc.

Definition _process_centered_text (block : str) (doc : Document) : Document :=
  match search center_re block with
  | None => doc
  | Some m =>
      let content := unescape_latex (Py.strip (group m 1)) in
      let paragraph := add_paragraph content $"Normal" in
      doc ++ [Para {| par_style := par_style paragraph;
                      par_runs := par_runs paragraph;
                      par_alignment := Some CENTER |}]
  end.

Definition _process_block (w : World) (block : str) (doc : Document) : Document :=
  if Py.startswith $"\section" block then _process_section block 1 doc
  else if Py.startswith $"\subsection" block then _process_section block 2 doc
  else if Py.startswith $"\subsubsection" block then _process_section block 3 doc
  else if Py.contains $"\begin{table}" block then _process_table block doc
  else if Py.contains $"\begin{figure}" block then _process_figure w block doc
  else if Py.contains $"\begin{itemize}" block
          || Py.contains $"\begin{enumerate}" block then _process_list block doc
  else if Py.contains $"\begin{center}" block then _process_centered_text block doc
  else _process_paragraph block doc.

Definition _parse_latex (w : World) (content : str) (doc : Document) : Document :=
  let content := document_body content in
  let blocks := _split_into_blocks content in
  fold_left (fun doc block => _process_block w block doc) blocks doc.

End DocxGenerator.

(** The text contains one of the escape sequences of the table. *)
Definition has_escape_sequence (t : str) : bool :=
  existsb (fun entry => Py.contains (snd entry) t) LATEX_SPECIAL_CHARS.

(** ** Functions the statements are written with *)

(** The longest prefix of [s] whose characters all satisfy [p], and what
    follows it. *)
Fixpoint take_while (p : ascii -> bool) (s : str) : str :=
  match s with
  | c :: s' => if p c then c :: take_while p s' else []
  | [] => []
  end.

Fixpoint drop_while (p : ascii -> bool) (s : str) : str :=
  match s with
  | c :: s' => if p c then drop_while p s' else s
  | [] => []
  end.

(** The first character of [s] satisfies [p]. *)
Definition head_is (p : ascii -> bool) (s : str) : bool :=
  match s with
  | c :: _ => p c
  | [] => false
  end.

(** A character other than the closing brace: the class [[^}]]. *)
Definition not_brace (c : ascii) : bool :=
  negb (existsb (Ascii.eqb c) ["}"%char]).

(** What [([^}]+)\}] reads at the start of [t]: the longest brace-free
    prefix, which must be non-empty and followed by a closing brace; the
    result is that prefix and what follows the brace. *)
Definition braced (t : str) : option (str * str) :=
  match take_while not_brace t with
  | [] => None
  | g =>
      match drop_while not_brace t with
      | x :: rest => if Ascii.eqb "}" x then Some (g, rest) else None
      | [] => None
      end
  end.

(** What [name\{([^}]+)\}] reads at the start of [s]: the argument and
    the unread rest. *)
Definition command_match (name s : str) : option (str * str) :=
  if Py.startswith name s then
    match skipn (length name) s with
    | x :: t => if Ascii.eqb "{" x then braced t else None
    | [] => None
    end
  else None.

(** What [\href\{([^}]+)\}\{([^}]+)\}] reads at the start of [s]: the
    two arguments and the unread rest. *)
Definition href_match (s : str) : option (str * str * str) :=
  if Py.startswith $"\href{" s then
    match braced (skipn 6 s) with
    | Some (url, x :: t) =>
        if Ascii.eqb "{" x then
          match braced t with
          | Some (text, rest) => Some (url, text, rest)
          | None => None
          end
        else None
    | _ => None
    end
  else None.

(** The runs the inline scanner adds for [text]. *)
Definition inline_runs (text : str) : list Run :=
  DocxGenerator.inline_loop (S (length text)) text 0 [].

(** The place of a kind in the order the patterns are evaluated in. *)
Definition rank (ty : DocxGenerator.fmt_type) : nat :=
  match ty with
  | DocxGenerator.bold => 0
  | DocxGenerator.italic => 1
  | DocxGenerator.underline => 2
  | DocxGenerator.hyperlink => 3
  end.

(** The pattern of a kind. *)
Definition pattern_of (ty : DocxGenerator.fmt_type) : Re.regex :=
  match ty with
  | DocxGenerator.bold => DocxGenerator.command_re $"\textbf"
  | DocxGenerator.italic => DocxGenerator.command_re $"\textit"
  | DocxGenerator.underline => DocxGenerator.command_re $"\underline"
  | DocxGenerator.hyperlink => DocxGenerator.href_re
  end.

(** [m], a match of the pattern of kind [ty], is the one the specification
    selects in [rest]: no pattern has a match that starts at a lower offset,
    and none that is evaluated earlier has one at the same offset. *)
Definition leftmost_match (rest : str) (m : Re.match_obj)
  (ty : DocxGenerator.fmt_type) : Prop :=
  Re.search (pattern_of ty) rest = Some m
  /\ forall ty' m', Re.search (pattern_of ty') rest = Some m' ->
       Re.m_start m < Re.m_start m'
       \/ (Re.m_start m = Re.m_start m' /\ rank ty <= rank ty').

(** The envelope, in the words of the specification: the span between the
    first begin marker and the first end marker after it; the whole input
    when there is no such pair. *)
Definition begin_marker : str := $"\begin{document}".
Definition end_marker : str := $"\end{document}".

Definition body_between_markers (content : str) : str :=
  match Py.find begin_marker content with
  | Some i =>
      let after := skipn (i + length begin_marker) content in
      match Py.find end_marker after with
      | Some j => firstn j after
      | None => content
      end
  | None => content
  end.

(** A heading paragraph of the object model: the built-in style of the
    level and the title as its only run. *)
Definition heading_paragraph (level : nat) (title : str) : Paragraph :=
  {| par_style := heading_style level;
     par_runs := [plain_run title];
     par_alignment := None |}.

(** A character whose escape sequence holds no closing brace. *)
Definition plain_title_char (c : ascii) : bool :=
  negb (existsb (Ascii.eqb c) ["}"%char; "~"%char; "^"%char; bsl]).

(** A world without files. *)
Definition no_files : DocxGenerator.World :=
  {| DocxGenerator.path_exists := fun _ => false;
     DocxGenerator.picture_loads := fun _ => false |}.

(** A character of an item's text: the class [[^\\n]]. *)
Definition item_char (c : ascii) : bool :=
  negb (existsb (Ascii.eqb c) [bsl; nl]).

(** The style of the paragraph of a list item. *)
Definition item_style (block : str) : str :=
  if Py.contains $"\begin{enumerate}" block then $"List Number" else $"List Bullet".

(** The cells of one row of the markup, as they are written to the table. *)
Definition row_cells (row_text : str) : list str :=
  map (fun cell => unescape_latex (Py.strip cell)) (Py.split $"&" row_text).

(** A row of [num_cols] cells after [cells] have been written to it from
    the left: the first [num_cols] of them, and the cells the markup row
    does not have left as [add_table] made them. *)
Definition written_row (num_cols : nat) (cells : list str) : list str :=
  firstn num_cols cells ++ repeat [] (num_cols - length cells).

(** ** Checks used in the proofs about the codec *)

(** [p] and [v] differ at an offset both of them have: [p] starts no
    extension of [v]. *)
Fixpoint clash (p v : str) : bool :=
  match p, v with
  | a :: p', b :: v' => if Ascii.eqb a b then clash p' v' else true
  | _, _ => false
  end.

(** Every occurrence of [old] that the scan of [replace] can see from inside
    [u] lies inside [u], whatever follows [u]. *)
Fixpoint closed_for (fuel : nat) (old u : str) : bool :=
  match fuel with
  | 0 => false
  | S f =>
      match u with
      | [] => true
      | _ :: u' =>
          if Py.startswith old u then closed_for f old (skipn (length old) u)
          else clash old u && closed_for f old u'
      end
  end.

(** [u] is closed for every replacement of the unescape loop, each taken at
    the stage it runs. *)
Fixpoint stages_closed (tbl : list (ascii * str)) (u : str) : bool :=
  match tbl with
  | [] => true
  | (char, escaped) :: tbl' =>
      match escaped with
      | [] => false
      | _ :: _ =>
          closed_for (S (length u)) escaped u
          && stages_closed tbl' (Py.replace escaped [char] u)
      end
  end.

(** ** Checks used in the proofs about what escaped text cannot hold *)

(** [p] clashes with every non-empty suffix of [u]: no occurrence of [p]
    starts inside [u], whatever follows [u]. *)
Fixpoint never_starts (p u : str) : bool :=
  match u with
  | [] => true
  | _ :: u' => clash p u && never_starts p u'
  end.

(** The commands the parser looks for when it classifies a block, strips
    the envelope or scans a paragraph. *)
Definition parser_markers : list str :=
  [ $"\section"; $"\subsection"; $"\subsubsection";
    $"\begin{table}"; $"\begin{figure}"; $"\begin{itemize}";
    $"\begin{enumerate}"; $"\begin{center}"; $"\end{center}";
    $"\begin{document}"; $"\end{document}";
    $"\begin{tabular}{"; $"\end{tabular}"; $"\includegraphics"; $"\item";
    $"\textbf"; $"\textit"; $"\underline"; $"\href{"; $"\\" ].

(** A run without formatting and without link. *)
Definition is_plain (run : Run) : bool :=
  negb (run_bold run) && negb (run_italic run) && negb (run_underline run)
  && match run_hyperlink run with None => true | Some _ => false end.

(** ** Runs and paragraphs the round trips are stated with *)


(** A run with the one flag of its kind set; the kind [hyperlink] stands
    for no flag at all. *)
Definition styled_run (ty : DocxGenerator.fmt_type) (text : str) : Run :=
  match ty with
  | DocxGenerator.bold =>
      {| run_text := text; run_bold := true; run_italic := false;
         run_underline := false; run_hyperlink := None |}
  | DocxGenerator.italic =>
      {| run_text := text; run_bold := false; run_italic := true;
         run_underline := false; run_hyperlink := None |}
  | DocxGenerator.underline =>
      {| run_text := text; run_bold := false; run_italic := false;
         run_underline := true; run_hyperlink := None |}
  | DocxGenerator.hyperlink => plain_run text
  end.

(** A paragraph of the body style with the given runs and alignment. *)
Definition body_paragraph (runs : list Run) (alignment : option Alignment)
  : Paragraph :=
  {| par_style := $"Normal"; par_runs := runs; par_alignment := alignment |}.

(** The alignment asks for no environment. *)
Definition flows_left (alignment : option Alignment) : bool :=
  match alignment with
  | Some CENTER | Some RIGHT => false
  | _ => true
  end.

(** The markers [_process_block] classifies a block by. *)
Definition block_markers : list str :=
  [ $"\section"; $"\subsection"; $"\subsubsection";
    $"\begin{table}"; $"\begin{figure}"; $"\begin{itemize}";
    $"\begin{enumerate}"; $"\begin{center}" ].


(** A block that segmentation gives back as it is: no white space at
    either end and no blank line inside. *)
Definition whole_block (b : str) : Prop :=
  Py.strip b = b /\ Re.search DocxGenerator.blank_re b = None.

(** ** options.py and the rest of latex.py: the settings, the preamble and
    the whole document *)

Inductive DocumentType : Type := ARTICLE | REPORT | THESIS | LETTER | BOOK.

Inductive FontSize : Type := PT_10 | PT_11 | PT_12.

Inductive LineSpacing : Type := SINGLE | ONE_HALF | DOUBLE.

(** The [value] of the members of the three enumerations. *)
Definition document_type_value (d : DocumentType) : str :=
  match d with
  | ARTICLE => $"article"
  | REPORT => $"report"
  | THESIS => $"thesis"
  | LETTER => $"letter"
  | BOOK => $"book"
  end.

Definition font_size_value (f : FontSize) : str :=
  match f with
  | PT_10 => $"10pt"
  | PT_11 => $"11pt"
  | PT_12 => $"12pt"
  end.

Definition line_spacing_value (l : LineSpacing) : str :=
  match l with
  | SINGLE => $"single"
  | ONE_HALF => $"onehalf"
  | DOUBLE => $"double"
  end.

(** The settings the generator reads. *)
Record ConversionOptions : Type := {
  document_type : DocumentType;
  font_size : FontSize;
  line_spacing : LineSpacing;
  page_margins : str;
  extract_bibliography : bool;
  bibliography_style : str;
  unicode_support : bool;
  preserve_images : bool;
  custom_packages : list str;
  include_preamble : bool;
  standalone_document : bool
}.

(** The defaults of the dataclass. *)
Definition default_options : ConversionOptions :=
  {| document_type := ARTICLE;
     font_size := PT_12;
     line_spacing := SINGLE;
     page_margins := $"top=2.5cm,bottom=2.5cm,left=2.5cm,right=2.5cm";
     extract_bibliography := false;
     bibliography_style := $"plain";
     unicode_support := true;
     preserve_images := true;
     custom_packages := [];
     include_preamble := true;
     standalone_document := true |}.

Module Preamble.

(** The lines of [_generate_preamble], in the order they are appended. *)
Definition preamble_lines (options : ConversionOptions) : list str :=
  let doc_class := document_type_value (document_type options) in
  let font_size := font_size_value (font_size options) in
  [ $"\documentclass[" ++ font_size ++ $"]{" ++ doc_class ++ $"}" ++ [nl] ]
  ++ (if unicode_support options
      then [ $"\usepackage[T1]{fontenc}"; $"\usepackage[utf8]{inputenc}" ]
      else [])
  ++ [ $"\usepackage[" ++ page_margins options ++ $"]{geometry}" ]
  ++ (if preserve_images options
      then [ $"\usepackage{graphicx}"; $"\graphicspath{{./images/}}" ]
      else [])
  ++ [ $"\usepackage{hyperref}";
       $"\hypersetup{colorlinks=true,linkcolor=blue}";
       $"\usepackage{amsmath}";
       $"\usepackage{amssymb}";
       $"\usepackage{booktabs}";
       $"\usepackage{longtable}";
       $"\usepackage{array}" ]
  ++ (match line_spacing options with
      | SINGLE => []
      | ONE_HALF => [ $"\usepackage{setspace}"; $"\onehalfspacing" ]
      | DOUBLE => [ $"\usepackage{setspace}"; $"\doublespacing" ]
      end)
  ++ (if extract_bibliography options
      then [ $"\usepackage{natbib}";
             $"\bibliographystyle{" ++ bibliography_style options ++ $"}" ]
      else [])
  ++ map (fun package => $"\usepackage{" ++ package ++ $"}")
       (custom_packages options).

Definition _generate_preamble (options : ConversionOptions) : str :=
  Py.join [nl] (preamble_lines options) ++ [nl].

(** [_generate_latex]: the sections of the document, joined by line
    breaks. *)
Definition _generate_latex (options : ConversionOptions)
  (body : list LatexGenerator.BodyElement) : str :=
  let sections :=
    (if include_preamble options && standalone_document options
     then [ _generate_preamble options ] else [])
    ++ (if standalone_document options then [ $"\begin{document}" ++ [nl] ] else [])
    ++ [ LatexGenerator._process_document_body body ]
    ++ (if standalone_document options then [ [nl] ++ $"\end{document}" ] else []) in
  Py.join [nl] sections.

End Preamble.

(** A paragraph of plain runs that the round trip of a whole document
    keeps: a body style, no environment, a text without white space at its
    ends and without blank line. *)
Definition simple_paragraph (p : Paragraph) : Prop :=
  forallb is_plain (par_runs p) = true
  /\ par_text p <> []
  /\ Py.strip (par_text p) = par_text p
  /\ Re.search DocxGenerator.blank_re (par_text p) = None
  /\ Py.startswith $"Heading" (par_style p) = false
  /\ flows_left (par_alignment p) = true.

(** The target a run is linked to; empty when the run has no link or the
    link has no address. *)
Definition run_url (run : Run) : str :=
  match run_hyperlink run with
  | Some h => match address h with Some a => a | None => [] end
  | None => []
  end.

(** The marker [m] starts in no link target of the body. *)
Definition links_clear (m : str) (body : list LatexGenerator.BodyElement) : bool :=
  forallb (fun element =>
             match element with
             | LatexGenerator.CT_P paragraph =>
                 forallb (fun run => never_starts m (run_url run))
                   (par_runs paragraph)
             | LatexGenerator.CT_Tbl _ => true
             end) body.

(** The begin marker starts in none of the free texts of the settings. *)
Definition settings_clear (options : ConversionOptions) : bool :=
  never_starts begin_marker (page_margins options)
  && never_starts begin_marker (bibliography_style options)
  && forallb (never_starts begin_marker) (custom_packages options).

(** ** Generated tables, as the table reader sees them *)

Definition tabular_begin : str := $"\begin{tabular}{".
Definition tabular_end : str := $"\end{tabular}".
Definition row_end : str := $"\\".

(** The cells of a row as the generator writes them, without the row
    terminator. *)
Definition row_markup (row : list str) : str :=
  Py.join $" & " (map (fun cell => escape_latex (Py.strip cell)) row).

(** What follows the rows after the first in the generated table, up to the
    end of the rows. *)
Definition rows_tail (rows : list (list str)) : str :=
  concat (map (fun row => (row_markup row ++ $" \\") ++ [nl]) rows)
  ++ $"\bottomrule" ++ [nl].

(** The text of a generated table between the column specification and the
    end of the tabular environment. *)
Definition table_content (table : Table) : str :=
  [nl] ++ $"\toprule" ++ [nl]
  ++ concat (map (fun line => line ++ [nl]) (LatexGenerator.rows_lines 0 table))
  ++ $"\bottomrule" ++ [nl].

(** The two filters of the table reader, on the pieces between row
    terminators. *)
Definition kept_rows (pieces : list str) : list str :=
  filter (fun row => negb (Py.startswith [bsl] row))
    (map Py.strip
       (filter (fun row => match Py.strip row with [] => false | _ => true end)
          pieces)).

(** The rows of a table that the table reader finds again in the generated
    table: those after the second that are not blank and do not start
    with an escape sequence. *)
Definition surviving_rows (table : Table) : list str :=
  kept_rows (map row_markup (skipn 2 table)).

(** ** utils.py: file names *)

Module OsPath.

(** The [while] loop of [genericpath._splitext], which passes over the
    leading dots of the last component; [fuel] bounds its rounds. *)
Fixpoint splitext_loop (fuel : nat) (p : str) (filenameIndex dotIndex : nat)
  : str * str :=
  match fuel with
  | 0 => (p, [])
  | S f =>
      if filenameIndex <? dotIndex then
        match nth_error p filenameIndex with
        | Some c =>
            if Ascii.eqb c "." then splitext_loop f p (S filenameIndex) dotIndex
            else (firstn dotIndex p, skipn dotIndex p)
        | None => (firstn dotIndex p, skipn dotIndex p)
        end
      else (p, [])
  end.

(** [os.path.splitext] of [posixpath]: separator [/], no alternative
    separator, extension separator [.]; an offset [-1] of [rfind] is
    [None] here. *)
Definition splitext (p : str) : str * str :=
  let sepIndex := Py.rfind "/" p in
  let dotIndex := Py.rfind "." p in
  match dotIndex with
  | Some d =>
      if match sepIndex with Some s => s <? d | None => true end
      then splitext_loop (length p) p
             (match sepIndex with Some s => S s | None => 0 end) d
      else (p, [])
  | None => (p, [])
  end.

End OsPath.

(** The characters of the class the sanitizer replaces: the two angle
    brackets, the colon, the double quote, the slash, the backslash, the
    bar, the question mark and the star. *)
Definition invalid_filename_chars : str :=
  [ "<"; ">"; ":"; "034"; "/"; bsl; "|"; "?"; "*" ]%char.

Definition invalid_re : Re.regex :=
  Re.Chr (fun c => existsb (Ascii.eqb c) invalid_filename_chars).

Definition sanitize_filename (filename : str) : str :=
  let filename := Re.sub invalid_re $"_" filename in
  let filename := Py.strip_chars $". " filename in
  if 255 <? length filename then
    let (name, ext) := OsPath.splitext filename in
    Py.slice_stop 255 (length ext) name ++ ext
  else filename.

Definition extract_extension (filename : str) : str :=
  Py.lstrip_chars $"." (Py.lower (snd (OsPath.splitext filename))).

(** [is_valid_file]; [isfile] is what [os.path.isfile] answers. *)
Definition is_valid_file (isfile : str -> bool) (filepath : str)
  (extensions : list str) : bool :=
  if negb (isfile filepath) then false
  else
    let ext := extract_extension filepath in
    existsb (fun e => if list_eq_dec ascii_dec ext e then true else false)
      (map Py.lower extensions).

(** The name without a character the sanitizer replaces. *)
Definition valid_filename_char (c : ascii) : bool :=
  negb (existsb (Ascii.eqb c) invalid_filename_chars).

(** [os.path.basename] of [posixpath]. *)
Definition basename (p : str) : str :=
  match Py.rfind "/" p with
  | Some i => skipn (S i) p
  | None => p
  end.

(** The base name of the path holds a character that is no dot. *)
Definition has_base_name (p : str) : bool :=
  existsb (fun c => negb (Ascii.eqb c ".")) (basename p).

(** The name after the first two steps of the sanitizer. *)
Definition cleaned_filename (filename : str) : str :=
  Py.strip_chars $". " (Re.sub invalid_re $"_" filename).

(** ** Figures, as the figure reader sees them *)

Definition not_bracket (c : ascii) : bool :=
  negb (existsb (Ascii.eqb c) ["]"%char]).

(** What the options of the graphics command read after the opening
    bracket: the longest prefix without closing bracket, which must be
    non-empty and followed by a closing bracket; the result is what follows
    the bracket. *)
Definition bracketed (t : str) : option str :=
  match take_while not_bracket t with
  | [] => None
  | _ =>
      match drop_while not_bracket t with
      | x :: rest => if Ascii.eqb "]" x then Some rest else None
      | [] => None
      end
  end.

(** What the graphics pattern reads at the start of [s]: the path between
    the braces and what follows the closing brace. *)
Definition graphics_match (s : str) : option (str * str) :=
  if Py.startswith $"\includegraphics" s then
    match skipn (length $"\includegraphics") s with
    | x :: t =>
        if Ascii.eqb "[" x then
          match bracketed t with
          | Some (y :: u) => if Ascii.eqb "{" y then braced u else None
          | _ => None
          end
        else if Ascii.eqb "{" x then braced t else None
    | [] => None
    end
  else None.

(** The options of a graphics command, written out. *)
Definition graphics_options (options : option str) : str :=
  match options with
  | Some o => $"[" ++ o ++ $"]"
  | None => []
  end.

Definition graphics_options_ok (options : option str) : bool :=
  match options with
  | Some [] => false
  | Some o => forallb not_bracket o
  | None => true
  end.

(** The path of the first graphics command of [s]: the path read at the
    lowest offset at which [graphics_match] reads one. *)
Fixpoint first_graphics (s : str) : option str :=
  match graphics_match s with
  | Some (path, _) => Some path
  | None =>
      match s with
      | [] => None
      | _ :: s' => first_graphics s'
      end
  end.

(** A paragraph of the body style with one plain run of [text]. *)
Definition message_paragraph (text : str) : DocxGenerator.Element :=
  DocxGenerator.Para
    {| par_style := $"Normal"; par_runs := [plain_run text];
       par_alignment := None |}.

(** What the document gains for an image path: the picture when the file
    exists and loads; the empty paragraph [add_picture] had appended and a
    paragraph with a message when the file exists and does not load; a
    paragraph with a message when there is no such file. *)
Definition figure_elements (w : DocxGenerator.World) (image_path : str)
  : list DocxGenerator.Element :=
  match DocxGenerator.path_exists w image_path,
        DocxGenerator.picture_loads w image_path with
  | true, true => [DocxGenerator.Picture image_path]
  | true, false =>
      [ DocxGenerator.Para DocxGenerator.picture_paragraph;
        message_paragraph
          ($"[Image file found but could not be added: " ++ image_path ++ $"]") ]
  | false, _ =>
      [ message_paragraph ($"[Image not found at path: " ++ image_path ++ $"]") ]
  end.

(** ** Documents of headings and plain paragraphs *)

(** An element of such a document: a heading of a level with its title, or
    a paragraph. *)
Inductive Item : Type :=
| Title (level : nat) (title : str)
| Text (paragraph : Paragraph).

(** The element of the body the generator reads for an item. *)
Definition item_element (item : Item) : LatexGenerator.BodyElement :=
  match item with
  | Title level title => LatexGenerator.CT_P (heading_paragraph level title)
  | Text paragraph => LatexGenerator.CT_P paragraph
  end.

(** What the parser is expected to add for an item. *)
Definition item_read (item : Item) : DocxGenerator.Element :=
  match item with
  | Title level title => DocxGenerator.Heading title level
  | Text paragraph =>
      DocxGenerator.Para (DocxGenerator.add_paragraph (par_text paragraph) $"Normal")
  end.

(** The items the round trip keeps: headings of the levels 1 to 3 with a
    title that is not blank, has no blank line and none of the characters
    whose escape sequence ends with a brace, and the paragraphs of
    [simple_paragraph]. *)
Definition item_ok (item : Item) : Prop :=
  match item with
  | Title level title =>
      1 <= level <= 3
      /\ Py.strip title <> []
      /\ forallb plain_title_char title = true
      /\ Re.search DocxGenerator.blank_re title = None
  | Text paragraph => simple_paragraph paragraph
  end.

(** The command written for a heading of the levels 1 to 3. *)
Definition heading_line (level : nat) (title : str) : str :=
  bsl :: concat (repeat $"sub" (level - 1)) ++ $"section{"
  ++ escape_latex title ++ $"}".

(** The block written for an item. *)
Definition item_line (item : Item) : str :=
  match item with
  | Title level title => heading_line level title
  | Text paragraph => escape_latex (par_text paragraph)
  end.

(** ** utils.py: white space *)

(** The pattern of one or more spaces and the pattern of two or more line
    breaks. *)
Definition spaces_re : Re.regex := Re.Plus (Re.Lit " ").
Definition newlines_re : Re.regex := Re.Cat (Re.Lit nl) (Re.Plus (Re.Lit nl)).

Definition normalize_whitespace (text : str) : str :=
  let text := Re.sub spaces_re $" " text in
  let text := Re.sub newlines_re [nl; nl] text in
  Py.strip text.

(** The runs of the character [c] cut to [k] characters: a [c] that [k]
    more follow is dropped. *)
Fixpoint cap_runs (c : ascii) (k : nat) (s : str) : str :=
  match s with
  | x :: s' =>
      if Ascii.eqb c x && Py.startswith (repeat c k) s'
      then cap_runs c k s' else x :: cap_runs c k s'
  | [] => []
  end.

(** ** python-docx paragraphs with hyperlinks

    In a document a link is a hyperlink element of the paragraph, which
    holds the linked runs.  [paragraph.runs] yields the runs that are
    children of the paragraph itself, not those inside a hyperlink element,
    and the class [Run] has no attribute [hyperlink].  [paragraph.text]
    (python-docx 1.0 and later) is the text of the runs and of the
    hyperlink elements of the paragraph, in document order.  For a
    paragraph without hyperlink element this is the model of [Paragraph]
    and [par_text] above. *)

Module Linked.

(** A run of a document. *)
Record TextRun : Type := {
  tr_text : str;
  tr_bold : bool;
  tr_italic : bool;
  tr_underline : bool
}.

(** The run as the generator sees it: [hasattr(run, 'hyperlink')] is
    false. *)
Definition as_run (run : TextRun) : Run :=
  {| run_text := tr_text run; run_bold := tr_bold run;
     run_italic := tr_italic run; run_underline := tr_underline run;
     run_hyperlink := None |}.

(** What a paragraph holds: runs, and hyperlink elements with their target
    and their runs. *)
Inductive Inner : Type :=
| InnerRun (run : TextRun)
| InnerHyperlink (address : str) (runs : list TextRun).

Record LinkedParagraph : Type := {
  lp_style : str;
  lp_content : list Inner;
  lp_alignment : option Alignment
}.

(** [paragraph.runs] *)
Definition runs (paragraph : LinkedParagraph) : list Run :=
  flat_map (fun item =>
              match item with
              | InnerRun run => [as_run run]
              | InnerHyperlink _ _ => []
              end) (lp_content paragraph).

(** [run.text] and [hyperlink.text] *)
Definition inner_text (item : Inner) : str :=
  match item with
  | InnerRun run => tr_text run
  | InnerHyperlink _ linked => concat (map tr_text linked)
  end.

(** [paragraph.text] *)
Definition text (paragraph : LinkedParagraph) : str :=
  concat (map inner_text (lp_content paragraph)).

(** [LatexGenerator._process_heading] *)
Definition _process_heading (paragraph : LinkedParagraph) : str :=
  let text := escape_latex (text paragraph) in
  let style_name := lp_style paragraph in
  if Py.contains $"Heading 1" style_name then $"\section{" ++ text ++ $"}"
  else if Py.contains $"Heading 2" style_name then $"\subsection{" ++ text ++ $"}"
  else if Py.contains $"Heading 3" style_name then $"\subsubsection{" ++ text ++ $"}"
  else if Py.contains $"Heading 4" style_name then $"\paragraph{" ++ text ++ $"}"
  else $"\subparagraph{" ++ text ++ $"}".

(** [LatexGenerator._process_paragraph] *)
Definition _process_paragraph (paragraph : LinkedParagraph) : str :=
  match Py.strip (text paragraph) with
  | [] => []
  | _ :: _ =>
      if Py.startswith $"Heading" (lp_style paragraph)
      then _process_heading paragraph
      else
        let text_parts := map LatexGenerator.render_run (runs paragraph) in
        let paragraph_text := concat text_parts in
        match lp_alignment paragraph with
        | Some CENTER =>
            $"\begin{center}" ++ [nl] ++ paragraph_text ++ [nl] ++ $"\end{center}"
        | Some RIGHT =>
            $"\begin{flushright}" ++ [nl] ++ paragraph_text ++ [nl] ++ $"\end{flushright}"
        | _ => paragraph_text
        end
  end.

End Linked.



(** The text of the runs outside the hyperlink elements. *)
Definition direct_text (p : Linked.LinkedParagraph) : str :=
  concat (map run_text (Linked.runs p)).

(** The opening of the command [_process_heading] chooses for a style
    name. *)
Definition heading_open (style_name : str) : str :=
  if Py.contains $"Heading 1" style_name then $"\section{"
  else if Py.contains $"Heading 2" style_name then $"\subsection{"
  else if Py.contains $"Heading 3" style_name then $"\subsubsection{"
  else if Py.contains $"Heading 4" style_name then $"\paragraph{"
  else $"\subparagraph{".

(** The text of a paragraph inside the environment its alignment asks
    for. *)
Definition aligned (alignment : option Alignment) (paragraph_text : str) : str :=
  match alignment with
  | Some CENTER =>
      $"\begin{center}" ++ [nl] ++ paragraph_text ++ [nl] ++ $"\end{center}"
  | Some RIGHT =>
      $"\begin{flushright}" ++ [nl] ++ paragraph_text ++ [nl] ++ $"\end{flushright}"
  | _ => paragraph_text
  end.

(** A run without text and without flag: what is rendered as nothing. *)
Definition is_void (run : Run) : bool :=
  match run_text run with [] => is_plain run | _ :: _ => false end.

(** * Properties *)

(** ** Python strings *)

Section PyFacts.

Lemma startswith_refl_app (p s : str) : Py.startswith p (p ++ s) = true.
Proof.
  induction p as [|a p IH]; simpl; [reflexivity|].
  rewrite Ascii.eqb_refl. exact IH.
Qed.

Lemma startswith_split (p s : str) :
  Py.startswith p s = true -> s = p ++ skipn (length p) s.
Proof.
  revert s. induction p as [|a p IH]; intros s H; simpl in *; [reflexivity|].
  destruct s as [|b s]; [discriminate|].
  destruct (Ascii.eqb_spec a b) as [->|]; [|discriminate].
  simpl. f_equal. apply IH, H.
Qed.

Lemma startswith_iff (p s : str) :
  Py.startswith p s = true <-> exists rest, s = p ++ rest.
Proof.
  split.
  - intros H. eexists. apply startswith_split, H.
  - intros [rest ->]. apply startswith_refl_app.
Qed.

Lemma startswith_app_l (p u rest : str) :
  Py.startswith p u = true -> Py.startswith p (u ++ rest) = true.
Proof.
  intros H. apply startswith_iff in H as [r ->].
  rewrite <- app_assoc. apply startswith_refl_app.
Qed.

Lemma startswith_length (p s : str) :
  Py.startswith p s = true -> length p <= length s.
Proof.
  intros H. apply startswith_iff in H as [r ->]. rewrite length_app. lia.
Qed.

Lemma replace_scan_skip (old new : str) (k : nat) (s : str) :
  Py.replace_scan old new k s = Py.replace_scan old new 0 (skipn k s).
Proof.
  revert k. induction s as [|c s IH]; intros [|k]; try reflexivity.
  simpl Py.replace_scan at 1. rewrite IH. reflexivity.
Qed.

(** The two equations of the scan. *)
Lemma replace_scan_hit (old new rest : str) :
  old <> [] ->
  Py.replace_scan old new 0 (old ++ rest) = new ++ Py.replace_scan old new 0 rest.
Proof.
  intros Hne. destruct old as [|a old]; [congruence|].
  change ((a :: old) ++ rest) with (a :: (old ++ rest)).
  unfold Py.replace_scan at 1; fold Py.replace_scan.
  change (a :: old ++ rest) with ((a :: old) ++ rest).
  rewrite startswith_refl_app. f_equal.
  rewrite replace_scan_skip.
  replace (length (a :: old) - 1) with (length old) by (simpl; lia).
  rewrite skipn_app, Nat.sub_diag, skipn_all. reflexivity.
Qed.

Lemma replace_scan_miss (old new : str) (c : ascii) (s : str) :
  Py.startswith old (c :: s) = false ->
  Py.replace_scan old new 0 (c :: s) = c :: Py.replace_scan old new 0 s.
Proof.
  intros H. unfold Py.replace_scan at 1; fold Py.replace_scan.
  rewrite H. reflexivity.
Qed.

End PyFacts.

(** ** The codec *)

Section Codec.

Lemma clash_startswith (p v rest : str) :
  clash p v = true -> Py.startswith p (v ++ rest) = false.
Proof.
  revert v. induction p as [|a p IH]; intros [|b v] H; simpl in *;
    try discriminate.
  destruct (Ascii.eqb a b); [apply IH, H | reflexivity].
Qed.

Lemma closed_for_app (fuel : nat) (old new u rest : str) :
  old <> [] ->
  closed_for fuel old u = true ->
  Py.replace_scan old new 0 (u ++ rest)
  = Py.replace_scan old new 0 u ++ Py.replace_scan old new 0 rest.
Proof.
  intros Hne. revert u.
  induction fuel as [|f IH]; intros u H; [discriminate|].
  destruct u as [|c u]; [reflexivity|].
  simpl in H.
  destruct (Py.startswith old (c :: u)) eqn:Hs.
  - pose proof (startswith_split _ _ Hs) as Hu.
    rewrite Hu at 1 2. rewrite <- app_assoc.
    rewrite !replace_scan_hit by assumption.
    rewrite IH by assumption. rewrite app_assoc. reflexivity.
  - apply andb_prop in H as [Hc Hu].
    change ((c :: u) ++ rest) with (c :: (u ++ rest)).
    rewrite !replace_scan_miss.
    + rewrite IH by assumption. reflexivity.
    + exact Hs.
    + change (c :: u ++ rest) with ((c :: u) ++ rest).
      apply clash_startswith, Hc.
Qed.

Lemma unescape_loop_app (tbl : list (ascii * str)) (u rest : str) :
  stages_closed tbl u = true ->
  unescape_loop tbl (u ++ rest) = unescape_loop tbl u ++ unescape_loop tbl rest.
Proof.
  revert u rest. induction tbl as [|[char escaped] tbl IH]; intros u rest H.
  - reflexivity.
  - cbn [stages_closed] in H. destruct escaped as [|e escaped]; [discriminate|].
    apply andb_prop in H as [H1 H2].
    cbn [unescape_loop]. unfold Py.replace in *.
    assert (Hne : e :: escaped <> []) by discriminate.
    rewrite (closed_for_app _ _ [char] _ rest Hne H1).
    apply IH, H2.
Qed.

(** A one-character pattern never straddles a boundary. *)
Lemma replace_char_app (a : ascii) (new u v : str) :
  Py.replace [a] new (u ++ v) = Py.replace [a] new u ++ Py.replace [a] new v.
Proof.
  unfold Py.replace. induction u as [|c u IH]; [reflexivity|].
  simpl. destruct (Ascii.eqb a c).
  - simpl in IH. rewrite IH, app_assoc. reflexivity.
  - simpl in IH. rewrite IH. reflexivity.
Qed.

Lemma escape_loop_app (tbl : list (ascii * str)) (u v : str) :
  escape_loop tbl (u ++ v) = escape_loop tbl u ++ escape_loop tbl v.
Proof.
  revert u v. induction tbl as [|[char escaped] tbl IH]; intros u v.
  - reflexivity.
  - cbn [escape_loop]. destruct (Ascii.eqb char bsl); [apply IH|].
    rewrite replace_char_app. apply IH.
Qed.

Lemma escape_latex_unfold (t : str) :
  escape_latex t
  = escape_loop LATEX_SPECIAL_CHARS (Py.replace [bsl] $"\textbackslash{}" t).
Proof. destruct t; reflexivity. Qed.

Lemma unescape_latex_unfold (t : str) :
  unescape_latex t = unescape_loop LATEX_SPECIAL_CHARS t.
Proof. destruct t; reflexivity. Qed.

(** Escaping works character by character. *)
Lemma escape_latex_app (u v : str) :
  escape_latex (u ++ v) = escape_latex u ++ escape_latex v.
Proof.
  rewrite !escape_latex_unfold, replace_char_app. apply escape_loop_app.
Qed.

Lemma escape_latex_cons (c : ascii) (t : str) :
  escape_latex (c :: t) = escape_latex [c] ++ escape_latex t.
Proof. apply (escape_latex_app [c] t). Qed.

(** The escape sequence of one character is closed for every stage of the
    unescape loop, and the loop maps it back to the character. *)
Lemma escape_unit (c : ascii) :
  stages_closed LATEX_SPECIAL_CHARS (escape_latex [c]) = true
  /\ unescape_loop LATEX_SPECIAL_CHARS (escape_latex [c]) = [c].
Proof.
  destruct c as [[] [] [] [] [] [] [] []]; vm_compute; split; reflexivity.
Qed.

Lemma unescape_escape (t : str) : unescape_latex (escape_latex t) = t.
Proof.
  rewrite unescape_latex_unfold.
  induction t as [|c t IH]; [reflexivity|].
  rewrite escape_latex_cons.
  destruct (escape_unit c) as [Hc Hu].
  rewrite unescape_loop_app by exact Hc.
  rewrite Hu, IH. reflexivity.
Qed.

End Codec.

(** ** The matcher *)

Module ReFacts.

Import Re.

Lemma take_drop_while (p : ascii -> bool) (s : str) :
  take_while p s ++ drop_while p s = s.
Proof.
  induction s as [|c s IH]; simpl; [reflexivity|].
  destruct (p c); simpl; [rewrite IH|]; reflexivity.
Qed.

Lemma drop_while_skipn (p : ascii -> bool) (s : str) :
  drop_while p s = skipn (length (take_while p s)) s.
Proof.
  induction s as [|c s IH]; simpl; [reflexivity|].
  destruct (p c); simpl; [exact IH | reflexivity].
Qed.

Lemma take_while_Forall (p : ascii -> bool) (s : str) :
  Forall (fun c => p c = true) (take_while p s).
Proof.
  induction s as [|c s IH]; simpl; [constructor|].
  destruct (p c) eqn:E; constructor; assumption.
Qed.

Lemma take_while_all (p : ascii -> bool) (g rest : str) :
  forallb p g = true ->
  match rest with c :: _ => p c = false | [] => True end ->
  take_while p (g ++ rest) = g.
Proof.
  intros Hg Hr. induction g as [|c g IH]; simpl in *.
  - destruct rest as [|c rest]; [reflexivity|]. simpl. rewrite Hr. reflexivity.
  - apply andb_prop in Hg as [Hc Hg]. rewrite Hc, IH by assumption. reflexivity.
Qed.

Lemma run_Lits (w s : str) (cs : caps) (k : str -> caps -> outcome) :
  run (Lits w) s cs k
  = if Py.startswith w s then k (skipn (length w) s) cs else None.
Proof.
  revert s. induction w as [|a w IH]; intros s; [reflexivity|].
  simpl. destruct s as [|b s]; [reflexivity|].
  destruct (Ascii.eqb a b); [apply IH | reflexivity].
Qed.

(** Repeats of a body that reads a fixed number of characters after a test
    on the subject: a character class, or a literal word. *)
Section FixedWidthBody.

Variable body : matcher.
Variable test : str -> bool.
Variable n : nat.
Hypothesis n_pos : 1 <= n.
Hypothesis body_eq :
  forall s cs K, body s cs K = if test s then K (skipn n s) cs else None.
Hypothesis test_length : forall s, test s = true -> n <= length s.

Lemma skipn_shorter (s : str) : test s = true -> length (skipn n s) < length s.
Proof. intros H. apply test_length in H. rewrite length_skipn. lia. Qed.

Lemma star_loop_fuel (k : str -> caps -> outcome) (f f' : nat) :
  forall s cs, length s <= f -> length s <= f' ->
  star_loop body k f s cs = star_loop body k f' s cs.
Proof.
  revert f'. induction f as [|f IH]; intros [|f'] s cs H H'; simpl;
    try reflexivity; rewrite ?body_eq.
  - destruct (test s) eqn:E; [|reflexivity].
    apply test_length in E. lia.
  - destruct (test s) eqn:E; [|reflexivity].
    apply test_length in E. lia.
  - destruct (test s) eqn:E; [|reflexivity].
    pose proof (skipn_shorter _ E) as Hl.
    apply Nat.ltb_lt in Hl as Hb. rewrite Hb.
    rewrite (IH f') by lia. reflexivity.
Qed.

Lemma star_loop_unfold (k : str -> caps -> outcome) (s : str) (cs : caps) :
  star_loop body k (length s) s cs
  = if test s
    then match star_loop body k (length (skipn n s)) (skipn n s) cs with
         | Some res => Some res
         | None => k s cs
         end
    else k s cs.
Proof.
  destruct (length s) as [|f] eqn:El; simpl.
  - destruct (test s) eqn:E; [|reflexivity]. apply test_length in E. lia.
  - rewrite body_eq. destruct (test s) eqn:E; [|reflexivity].
    pose proof (skipn_shorter _ E) as Hl.
    rewrite El. apply Nat.ltb_lt in Hl as Hb. rewrite El in Hb. rewrite Hb.
    rewrite (star_loop_fuel k f (length (skipn n s))) by lia. reflexivity.
Qed.

Lemma lazy_loop_fuel (k : str -> caps -> outcome) (f f' : nat) :
  forall s cs, length s <= f -> length s <= f' ->
  lazy_loop body k f s cs = lazy_loop body k f' s cs.
Proof.
  revert f'. induction f as [|f IH]; intros [|f'] s cs H H'; simpl;
    try reflexivity; destruct (k s cs); try reflexivity; rewrite ?body_eq.
  - destruct (test s) eqn:E; [|reflexivity].
    apply test_length in E. lia.
  - destruct (test s) eqn:E; [|reflexivity].
    apply test_length in E. lia.
  - destruct (test s) eqn:E; [|reflexivity].
    pose proof (skipn_shorter _ E) as Hl.
    apply Nat.ltb_lt in Hl as Hb. rewrite Hb.
    rewrite (IH f') by lia. reflexivity.
Qed.

Lemma lazy_loop_unfold (k : str -> caps -> outcome) (s : str) (cs : caps) :
  lazy_loop body k (length s) s cs
  = match k s cs with
    | Some res => Some res
    | None =>
        if test s
        then lazy_loop body k (length (skipn n s)) (skipn n s) cs
        else None
    end.
Proof.
  destruct (length s) as [|f] eqn:El; simpl; destruct (k s cs); try reflexivity.
  - destruct (test s) eqn:E; [|reflexivity]. apply test_length in E. lia.
  - rewrite body_eq. destruct (test s) eqn:E; [|reflexivity].
    pose proof (skipn_shorter _ E) as Hl.
    rewrite El. apply Nat.ltb_lt in Hl as Hb. rewrite El in Hb. rewrite Hb.
    rewrite (lazy_loop_fuel k f (length (skipn n s))) by lia. reflexivity.
Qed.

End FixedWidthBody.

Lemma run_Chr (p : ascii -> bool) (s : str) (cs : caps) (K : str -> caps -> outcome) :
  run (Chr p) s cs K = if head_is p s then K (skipn 1 s) cs else None.
Proof. destruct s; reflexivity. Qed.

Lemma head_is_length (p : ascii -> bool) (s : str) :
  head_is p s = true -> 1 <= length s.
Proof. destruct s; simpl; [discriminate | lia]. Qed.

(** [c*] where [c] is a character class *)
Lemma run_Star_Chr_nil (p : ascii -> bool) (cs : caps) (k : str -> caps -> outcome) :
  run (Star (Chr p)) [] cs k = k [] cs.
Proof. reflexivity. Qed.

Lemma run_Star_Chr_cons (p : ascii -> bool) (c : ascii) (s : str) (cs : caps)
  (k : str -> caps -> outcome) :
  run (Star (Chr p)) (c :: s) cs k
  = if p c
    then match run (Star (Chr p)) s cs k with
         | Some res => Some res
         | None => k (c :: s) cs
         end
    else k (c :: s) cs.
Proof.
  change (run (Star (Chr p)) (c :: s) cs k)
    with (star_loop (run (Chr p)) k (length (c :: s)) (c :: s) cs).
  rewrite (star_loop_unfold _ _ 1 (le_n 1) (run_Chr p) (head_is_length p)).
  reflexivity.
Qed.

(** When the rest of the pattern cannot start at a character of the class,
    the repeat reads the longest run and never gives any of it back. *)
Lemma run_Star_Chr_maximal (p : ascii -> bool) (k : str -> caps -> outcome) :
  (forall c s cs, p c = true -> k (c :: s) cs = None) ->
  forall s cs, run (Star (Chr p)) s cs k = k (drop_while p s) cs.
Proof.
  intros Hk s cs. induction s as [|c s IH]; [reflexivity|].
  rewrite run_Star_Chr_cons. cbn [drop_while].
  destruct (p c) eqn:E; [|reflexivity].
  rewrite IH. destruct (k (drop_while p s) cs); [reflexivity|].
  apply Hk, E.
Qed.

(** When the rest of the pattern accepts what follows the longest run, that
    is the answer: the longest run is tried first. *)
Lemma run_Star_Chr_first (p : ascii -> bool) (k : str -> caps -> outcome)
  (s : str) (cs : caps) (res : str * caps) :
  k (drop_while p s) cs = Some res -> run (Star (Chr p)) s cs k = Some res.
Proof.
  induction s as [|c s IH]; intros H; [exact H|].
  rewrite run_Star_Chr_cons. cbn [drop_while] in H. destruct (p c); [|exact H].
  rewrite (IH H). reflexivity.
Qed.

(** In any case the rest of the pattern runs on some suffix, with the
    captures unchanged. *)
Lemma run_Star_Chr_some (p : ascii -> bool) (k : str -> caps -> outcome)
  (s : str) (cs : caps) (res : str * caps) :
  run (Star (Chr p)) s cs k = Some res ->
  exists n, k (skipn n s) cs = Some res.
Proof.
  induction s as [|c s IH]; intros H.
  - exists 0. exact H.
  - rewrite run_Star_Chr_cons in H. destruct (p c).
    + destruct (run (Star (Chr p)) s cs k) eqn:E.
      * destruct (IH H) as [n Hn]. exists (S n). exact Hn.
      * exists 0. exact H.
    + exists 0. exact H.
Qed.

(** [w*] where [w] is a non-empty literal word *)
Lemma run_Star_Lits (w : str) (s : str) (cs : caps) (k : str -> caps -> outcome) :
  w <> [] ->
  run (Star (Lits w)) s cs k
  = if Py.startswith w s
    then match run (Star (Lits w)) (skipn (length w) s) cs k with
         | Some res => Some res
         | None => k s cs
         end
    else k s cs.
Proof.
  intros Hw.
  change (run (Star (Lits w)) s cs k)
    with (star_loop (run (Lits w)) k (length s) s cs).
  rewrite (star_loop_unfold (run (Lits w)) (Py.startswith w) (length w)).
  - reflexivity.
  - destruct w; [congruence | simpl; lia].
  - intros. apply run_Lits.
  - apply startswith_length.
Qed.

(** [.*?] under DOTALL *)
Lemma run_Lazy_Dot_nil (cs : caps) (k : str -> caps -> outcome) :
  run (Lazy Dot) [] cs k = k [] cs.
Proof. simpl. destruct (k [] cs); reflexivity. Qed.

Lemma run_Lazy_Dot_cons (c : ascii) (s : str) (cs : caps) (k : str -> caps -> outcome) :
  run (Lazy Dot) (c :: s) cs k
  = match k (c :: s) cs with
    | Some res => Some res
    | None => run (Lazy Dot) s cs k
    end.
Proof.
  change (run (Lazy Dot) (c :: s) cs k)
    with (lazy_loop (run Dot) k (length (c :: s)) (c :: s) cs).
  unfold Dot.
  rewrite (lazy_loop_unfold _ _ 1 (le_n 1) (run_Chr _) (head_is_length _)).
  reflexivity.
Qed.

Lemma run_Cat (r1 r2 : regex) (s : str) (cs : caps) (k : str -> caps -> outcome) :
  run (Cat r1 r2) s cs k = run r1 s cs (fun s' cs' => run r2 s' cs' k).
Proof. reflexivity. Qed.

Lemma run_Group (i : nat) (r : regex) (s : str) (cs : caps)
  (k : str -> caps -> outcome) :
  run (Group i r) s cs k
  = run r s cs (fun s' cs' => k s' ((i, firstn (length s - length s') s) :: cs')).
Proof. reflexivity. Qed.

Lemma firstn_app_minus (a b : str) :
  firstn (length (a ++ b) - length b) (a ++ b) = a.
Proof.
  rewrite length_app, Nat.add_sub, firstn_app, Nat.sub_diag, firstn_all.
  simpl. apply app_nil_r.
Qed.

(** [(c+)] for a character class, when the rest of the pattern cannot start
    at a character of the class: the group is the longest run. *)
Lemma run_Group_Plus_maximal (i : nat) (p : ascii -> bool)
  (K : str -> caps -> outcome) (s : str) (cs : caps) :
  (forall c s' cs', p c = true -> K (c :: s') cs' = None) ->
  run (Group i (Plus (Chr p))) s cs K
  = match take_while p s with
    | [] => None
    | g => K (drop_while p s) ((i, g) :: cs)
    end.
Proof.
  intros HK. unfold Plus. rewrite run_Group, run_Cat.
  destruct s as [|c s]; [reflexivity|].
  rewrite run_Chr. cbn [head_is skipn take_while drop_while].
  destruct (p c) eqn:E; [|reflexivity].
  rewrite run_Star_Chr_maximal.
  - f_equal. f_equal. f_equal.
    rewrite <- (take_drop_while p s) at 1 3.
    apply (firstn_app_minus (c :: take_while p s)).
  - intros c0 s0 cs0 Hc. apply HK, Hc.
Qed.

(** [(c+)] at the end of the pattern: the longest run is accepted. *)
Lemma run_Group_Plus_last (i : nat) (p : ascii -> bool) (s : str) (cs : caps) :
  run (Group i (Plus (Chr p))) s cs (fun rest cs' => Some (rest, cs'))
  = match take_while p s with
    | [] => None
    | g => Some (drop_while p s, (i, g) :: cs)
    end.
Proof.
  unfold Plus. rewrite run_Group, run_Cat.
  destruct s as [|c s]; [reflexivity|].
  rewrite run_Chr. cbn [head_is skipn take_while drop_while].
  destruct (p c) eqn:E; [|reflexivity].
  apply run_Star_Chr_first. f_equal. f_equal. f_equal. f_equal.
  rewrite <- (take_drop_while p s) at 1 3.
  apply (firstn_app_minus (c :: take_while p s)).
Qed.

Lemma not_brace_Lit (c : ascii) (s : str) (cs : caps) (K : str -> caps -> outcome) :
  not_brace c = true -> run (Lit "}") (c :: s) cs K = None.
Proof.
  unfold not_brace, Lit. cbn [existsb]. rewrite orb_false_r. intros H.
  rewrite run_Chr. cbn [head_is]. rewrite Ascii.eqb_sym.
  destruct (Ascii.eqb c "}"); [discriminate | reflexivity].
Qed.

Lemma run_braced_then (i : nat) (t : str) (cs : caps) (K : str -> caps -> outcome) :
  run (Group i (Plus (NotOf ["}"%char]))) t cs (fun s' cs' => run (Lit "}") s' cs' K)
  = match braced t with
    | Some (g, rest) => K rest ((i, g) :: cs)
    | None => None
    end.
Proof.
  change (NotOf ["}"%char]) with (Chr not_brace).
  rewrite run_Group_Plus_maximal.
  - unfold braced. destruct (take_while not_brace t); [reflexivity|].
    destruct (drop_while not_brace t) as [|x rest]; [reflexivity|].
    unfold Lit. rewrite run_Chr. cbn [head_is skipn].
    destruct (Ascii.eqb "}" x); reflexivity.
  - intros c s' cs' Hc. apply not_brace_Lit, Hc.
Qed.

Lemma run_braced_Cat (i : nat) (r : regex) (t : str) (cs : caps)
  (k : str -> caps -> outcome) :
  run (Cat (Group i (Plus (NotOf ["}"%char]))) (Cat (Lit "}") r)) t cs k
  = match braced t with
    | Some (g, rest) => run r rest ((i, g) :: cs) k
    | None => None
    end.
Proof. apply (run_braced_then i t cs (fun s' cs' => run r s' cs' k)). Qed.

Lemma run_braced_end (i : nat) (t : str) (cs : caps) (k : str -> caps -> outcome) :
  run (Cat (Group i (Plus (NotOf ["}"%char]))) (Lit "}")) t cs k
  = match braced t with
    | Some (g, rest) => k rest ((i, g) :: cs)
    | None => None
    end.
Proof. apply (run_braced_then i t cs k). Qed.

Lemma braced_app (g rest : str) :
  g <> [] -> forallb not_brace g = true ->
  braced (g ++ "}"%char :: rest) = Some (g, rest).
Proof.
  intros Hne Hg. unfold braced.
  rewrite drop_while_skipn, take_while_all by (assumption || reflexivity).
  rewrite skipn_app, Nat.sub_diag, skipn_all. simpl.
  destruct g; [congruence | reflexivity].
Qed.

(** What [braced] returns: a non-empty brace-free argument, and a rest
    that is shorter than the subject. *)
Lemma braced_some (t g rest : str) :
  braced t = Some (g, rest) ->
  g <> [] /\ forallb not_brace g = true /\ t = g ++ "}"%char :: rest.
Proof.
  unfold braced. intros H.
  pose proof (take_drop_while not_brace t) as Htd.
  pose proof (take_while_Forall not_brace t) as Hall.
  destruct (take_while not_brace t) as [|c g0] eqn:Etw; [discriminate|].
  destruct (drop_while not_brace t) as [|x r]; [discriminate|].
  destruct (Ascii.eqb_spec "}" x) as [<-|]; [|discriminate].
  inversion H; subst g rest. split; [discriminate|]. split.
  - apply forallb_forall. apply Forall_forall. exact Hall.
  - symmetry. exact Htd.
Qed.

(** The attempt of a one-argument command at one offset. *)
Lemma match_here_command (name : str) (pos : nat) (s : str) :
  match_here (DocxGenerator.command_re name) pos s
  = match command_match name s with
    | Some (g, rest) =>
        Some {| m_start := pos; m_end := pos + (length s - length rest);
                m_groups := [(1, g)] |}
    | None => None
    end.
Proof.
  unfold match_here, DocxGenerator.command_re, command_match.
  rewrite run_Cat, run_Lits.
  destruct (Py.startswith name s) eqn:E; [|reflexivity].
  rewrite run_Cat.
  destruct (skipn (length name) s) as [|x t] eqn:Es; [reflexivity|].
  unfold Lit at 1. rewrite run_Chr. cbn [head_is skipn].
  destruct (Ascii.eqb "{" x); [|reflexivity].
  rewrite run_braced_end.
  destruct (braced t) as [[g rest]|]; reflexivity.
Qed.

(** The attempt of the link command at one offset. *)
Lemma match_here_href (pos : nat) (s : str) :
  match_here DocxGenerator.href_re pos s
  = match href_match s with
    | Some (url, text, rest) =>
        Some {| m_start := pos; m_end := pos + (length s - length rest);
                m_groups := [(2, text); (1, url)] |}
    | None => None
    end.
Proof.
  unfold match_here, DocxGenerator.href_re, href_match.
  rewrite run_Cat, run_Lits.
  destruct (Py.startswith $"\href{" s) eqn:E; [|reflexivity].
  change (length $"\href{") with 6.
  change (Lits $"}{") with (Cat (Lit "}") (Lits $"{")).
  change (run (Cat ?g (Cat (Cat ?a ?b) ?r)) ?t ?c ?k)
    with (run (Cat g (Cat a (Cat b r))) t c k).
  rewrite run_braced_Cat.
  destruct (braced (skipn 6 s)) as [[url [|x t]]|]; try reflexivity.
  rewrite run_Cat, run_Lits. change ($"{") with ["{"%char].
  cbn [Py.startswith length skipn].
  destruct (Ascii.eqb "{" x); [|reflexivity].
  rewrite run_braced_end.
  destruct (braced t) as [[text rest]|]; reflexivity.
Qed.

End ReFacts.

(** ** The inline scanner *)

Module InlineFacts.

Import Re DocxGenerator ReFacts.

Lemma search_from_some (r : regex) (s : str) (pos : nat) (m : match_obj) :
  search_from r pos s = Some m ->
  exists n, n <= length s
    /\ match_here r (pos + n) (skipn n s) = Some m
    /\ forall j, j < n -> match_here r (pos + j) (skipn j s) = None.
Proof.
  revert pos. induction s as [|c s IH]; intros pos H; simpl in H.
  - destruct (match_here r pos []) eqn:E; [|discriminate].
    exists 0. rewrite Nat.add_0_r. simpl.
    repeat split; [lia | congruence | lia].
  - destruct (match_here r pos (c :: s)) eqn:E.
    + exists 0. rewrite Nat.add_0_r. simpl.
      repeat split; [lia | congruence | lia].
    + destruct (IH _ H) as (n & Hn & Hm & Hj).
      exists (S n). rewrite <- Nat.add_succ_comm. repeat split.
      * simpl. lia.
      * exact Hm.
      * intros [|j] Hlt; [rewrite Nat.add_0_r; exact E|].
        rewrite <- Nat.add_succ_comm. apply Hj. lia.
Qed.

(** A one-argument command: the match is not empty, ends inside the
    subject, and its argument is not empty. *)
Lemma search_command (name rest : str) (m : match_obj) :
  search (command_re name) rest = Some m ->
  m_start m < m_end m /\ m_end m <= length rest /\ group m 1 <> [].
Proof.
  intros H. apply search_from_some in H as (n & Hn & Hm & _).
  rewrite match_here_command in Hm. unfold command_match in Hm.
  destruct (Py.startswith name (skipn n rest)); [|discriminate].
  destruct (skipn (length name) (skipn n rest)) as [|x t] eqn:Es; [discriminate|].
  destruct (Ascii.eqb "{" x); [|discriminate].
  destruct (braced t) as [[g after]|] eqn:Eb; [|discriminate].
  apply braced_some in Eb as (Hg & _ & Ht).
  assert (Hl : length t < length (skipn n rest)).
  { pose proof (length_skipn (length name) (skipn n rest)) as L.
    rewrite Es in L. simpl in L. lia. }
  assert (Hl' : length after < length t).
  { rewrite Ht, length_app. simpl. lia. }
  rewrite length_skipn in Hl.
  inversion Hm; subst m; cbn [m_start m_end group m_groups lookup Nat.eqb].
  rewrite length_skipn. repeat split; [lia | lia | exact Hg].
Qed.

Lemma search_href (rest : str) (m : match_obj) :
  search href_re rest = Some m ->
  m_start m < m_end m /\ m_end m <= length rest /\ group m 2 <> [].
Proof.
  intros H. apply search_from_some in H as (n & Hn & Hm & _).
  rewrite match_here_href in Hm. unfold href_match in Hm.
  destruct (Py.startswith _ (skipn n rest)); [|discriminate].
  destruct (braced (skipn 6 (skipn n rest))) as [[url [|x t]]|] eqn:Eu;
    try discriminate.
  destruct (Ascii.eqb "{" x); [|discriminate].
  destruct (braced t) as [[text after]|] eqn:Eb; [|discriminate].
  apply braced_some in Eb as (Hg & _ & Ht).
  apply braced_some in Eu as (_ & _ & Hu).
  assert (Hl : length t < length (skipn n rest)).
  { pose proof (length_skipn 6 (skipn n rest)) as L.
    rewrite Hu, length_app in L. simpl in L. lia. }
  assert (Hl' : length after < length t).
  { rewrite Ht, length_app. simpl. lia. }
  rewrite length_skipn in Hl.
  inversion Hm; subst m; cbn [m_start m_end group m_groups lookup Nat.eqb].
  rewrite length_skipn. repeat split; [lia | lia | exact Hg].
Qed.

Lemma replace_nonempty (old new s : str) :
  new <> [] -> s <> [] -> Py.replace old new s <> [].
Proof.
  intros Hn Hs. destruct s as [|c s]; [congruence|].
  destruct new as [|d new]; [congruence|].
  unfold Py.replace. destruct old as [|a old]; [discriminate|].
  cbn [Py.replace_scan].
  destruct (Py.startswith (a :: old) (c :: s)); discriminate.
Qed.

Lemma unescape_nonempty (t : str) : t <> [] -> unescape_latex t <> [].
Proof.
  rewrite unescape_latex_unfold. generalize LATEX_SPECIAL_CHARS.
  intros tbl. revert t. induction tbl as [|[char escaped] tbl IH]; intros t Ht.
  - exact Ht.
  - cbn [unescape_loop]. apply IH, replace_nonempty; [discriminate | exact Ht].
Qed.

(** What a match of the pattern of a kind looks like. *)
Lemma pattern_match (ty : fmt_type) (rest : str) (m : match_obj) :
  search (pattern_of ty) rest = Some m ->
  m_start m < m_end m /\ m_end m <= length rest
  /\ run_text (formatted_run m ty) <> [].
Proof.
  intros H. destruct ty; cbn [pattern_of] in H.
  1-3: apply search_command in H as (H1 & H2 & H3);
       repeat split; try assumption; apply unescape_nonempty, H3.
  apply search_href in H as (H1 & H2 & H3).
  repeat split; try assumption. apply unescape_nonempty, H3.
Qed.

(** The loop over the patterns selects what the specification selects. *)
Lemma first_occurrence_leftmost (rest : str) (m : match_obj) (ty : fmt_type) :
  first_occurrence patterns rest None = Some (m, ty) <-> leftmost_match rest m ty.
Proof.
  unfold leftmost_match, patterns. cbn [first_occurrence].
  change (command_re $"\textbf") with (pattern_of bold).
  change (command_re $"\textit") with (pattern_of italic).
  change (command_re $"\underline") with (pattern_of underline).
  change href_re with (pattern_of hyperlink).
  destruct (search (pattern_of bold) rest) as [mb|] eqn:Eb;
  destruct (search (pattern_of italic) rest) as [mi|] eqn:Ei;
  destruct (search (pattern_of underline) rest) as [mu|] eqn:Eu;
  destruct (search (pattern_of hyperlink) rest) as [mh|] eqn:Eh;
  repeat match goal with
         | |- context [?a <? ?b] => destruct (Nat.ltb_spec a b)
         end;
  (split;
   [ intros Hfo; inversion Hfo; subst; (split; [assumption|]);
     intros ty' m' Hs; destruct ty';
     rewrite ?Eb, ?Ei, ?Eu, ?Eh in Hs; inversion Hs; subst; cbn [rank]; lia
   | intros [Hs Hmin];
     try (pose proof (Hmin _ _ Eb)); try (pose proof (Hmin _ _ Ei));
     try (pose proof (Hmin _ _ Eu)); try (pose proof (Hmin _ _ Eh));
     destruct ty; rewrite ?Eb, ?Ei, ?Eu, ?Eh in Hs; inversion Hs; subst;
     cbn [rank] in *; first [reflexivity | exfalso; lia] ]).
Qed.

Lemma first_occurrence_none (rest : str) :
  first_occurrence patterns rest None = None
  <-> forall ty, search (pattern_of ty) rest = None.
Proof.
  unfold patterns. cbn [first_occurrence].
  change (command_re $"\textbf") with (pattern_of bold).
  change (command_re $"\textit") with (pattern_of italic).
  change (command_re $"\underline") with (pattern_of underline).
  change href_re with (pattern_of hyperlink).
  split.
  - intros H ty.
    destruct (search (pattern_of bold) rest) as [mb|] eqn:Eb;
    destruct (search (pattern_of italic) rest) as [mi|] eqn:Ei;
    destruct (search (pattern_of underline) rest) as [mu|] eqn:Eu;
    destruct (search (pattern_of hyperlink) rest) as [mh|] eqn:Eh;
    repeat match type of H with
           | context [?a <? ?b] => destruct (a <? b)
           end;
    try discriminate; destruct ty; assumption.
  - intros H. rewrite !H. reflexivity.
Qed.

(** The runs collected so far are only ever appended to. *)
Lemma inline_loop_runs (f : nat) (text : str) :
  forall pos runs,
  inline_loop f text pos runs = runs ++ inline_loop f text pos [].
Proof.
  induction f as [|f IH]; intros pos runs; cbn [inline_loop].
  - symmetry. apply app_nil_r.
  - destruct (pos <? length text); [|symmetry; apply app_nil_r].
    destruct (first_occurrence patterns (skipn pos text) None) as [[m ty]|].
    + rewrite IH. rewrite (IH _ (_ ++ _)).
      destruct (unescape_latex (firstn (m_start m) (skipn pos text)));
        cbn [add_run_if]; rewrite <- ?app_assoc; reflexivity.
    + destruct (unescape_latex (skipn pos text)); cbn [add_run_if];
        [symmetry; apply app_nil_r | reflexivity].
Qed.

(** The loop at [pos] in [text] is the loop at 0 in [text[pos:]]. *)
Lemma inline_loop_shift (f : nat) :
  forall text pos runs,
  inline_loop f text pos runs = inline_loop f (skipn pos text) 0 runs.
Proof.
  induction f as [|f IH]; intros text pos runs; cbn [inline_loop]; [reflexivity|].
  rewrite length_skipn. cbn [skipn].
  replace (0 <? length text - pos) with (pos <? length text)
    by (destruct (Nat.ltb_spec pos (length text));
        destruct (Nat.ltb_spec 0 (length text - pos)); (reflexivity || lia)).
  destruct (pos <? length text); [|reflexivity].
  destruct (first_occurrence patterns (skipn pos text) None) as [[m ty]|];
    [|reflexivity].
  rewrite IH, (IH (skipn pos text)). cbn [Nat.add].
  rewrite skipn_skipn, (Nat.add_comm (m_end m) pos). reflexivity.
Qed.

(** More rounds than characters left are as good as any number. *)
Lemma inline_loop_fuel (f : nat) :
  forall f' text pos runs,
  length text - pos < f -> length text - pos < f' ->
  inline_loop f text pos runs = inline_loop f' text pos runs.
Proof.
  induction f as [|f IH]; intros [|f'] text pos runs H H'; try lia.
  cbn [inline_loop].
  destruct (Nat.ltb_spec pos (length text)) as [Hlt|]; [|reflexivity].
  destruct (first_occurrence patterns (skipn pos text) None) as [[m ty]|] eqn:E;
    [|reflexivity].
  apply first_occurrence_leftmost in E as [E _].
  apply pattern_match in E as (E1 & _).
  apply IH; lia.
Qed.

Lemma match_here_start (r : regex) (pos : nat) (s : str) (m : match_obj) :
  match_here r pos s = Some m -> m_start m = pos.
Proof.
  unfold match_here. destruct (run r s [] _) as [[rest cs]|]; [|discriminate].
  intros H. inversion H. reflexivity.
Qed.

Lemma search_from_none (r : regex) (s : str) :
  forall pos, search_from r pos s = None ->
  forall j, j <= length s -> match_here r (pos + j) (skipn j s) = None.
Proof.
  induction s as [|c s IH]; intros pos H j Hj; cbn [search_from] in H.
  - destruct (match_here r pos []) eqn:E; [discriminate|].
    simpl in Hj. replace j with 0 by lia. rewrite Nat.add_0_r. exact E.
  - destruct (match_here r pos (c :: s)) eqn:E; [discriminate|].
    destruct j as [|j]; [rewrite Nat.add_0_r; exact E|].
    rewrite <- Nat.add_succ_comm. cbn [skipn]. apply IH; [exact H|].
    simpl in Hj. lia.
Qed.

(** [search] returns the attempt at the lowest offset that succeeds. *)
Lemma search_lowest (r : regex) (s : str) (m : match_obj) :
  search r s = Some m ->
  m_start m <= length s
  /\ match_here r (m_start m) (skipn (m_start m) s) = Some m
  /\ forall j, j < m_start m -> match_here r j (skipn j s) = None.
Proof.
  intros H. apply search_from_some in H as (n & Hn & Hm & Hj).
  cbn [Nat.add] in *. rewrite (match_here_start _ _ _ _ Hm).
  repeat split; assumption.
Qed.

Lemma match_here_search (r : regex) (s : str) (j : nat) (x : match_obj) :
  j <= length s -> match_here r j (skipn j s) = Some x ->
  exists m, search r s = Some m /\ m_start m <= j.
Proof.
  intros Hj Hx. destruct (search r s) as [m|] eqn:E.
  - exists m. split; [reflexivity|].
    apply search_lowest in E as (_ & _ & Hlow).
    destruct (Nat.le_gt_cases (m_start m) j) as [|Hgt]; [assumption|].
    rewrite (Hlow j Hgt) in Hx. discriminate.
  - pose proof (search_from_none r s 0 E j Hj) as Hn.
    cbn [Nat.add] in Hn. congruence.
Qed.

(** The selected match in terms of offsets: it is the attempt of its
    pattern at its offset, no pattern matches at a lower offset, and no
    pattern that is evaluated earlier matches at the same offset. *)
Lemma leftmost_offsets (rest : str) (m : match_obj) (ty : fmt_type) :
  leftmost_match rest m ty ->
  match_here (pattern_of ty) (m_start m) (skipn (m_start m) rest) = Some m
  /\ (forall ty' j, j < m_start m ->
        match_here (pattern_of ty') j (skipn j rest) = None)
  /\ (forall ty', rank ty' < rank ty ->
        match_here (pattern_of ty') (m_start m) (skipn (m_start m) rest) = None).
Proof.
  intros [Hs Hmin]. pose proof (search_lowest _ _ _ Hs) as (Hlen & Hm & _).
  split; [exact Hm|]. split.
  - intros ty' j Hj.
    destruct (match_here (pattern_of ty') j (skipn j rest)) as [x|] eqn:E;
      [|reflexivity].
    destruct (match_here_search _ rest j x ltac:(lia) E) as (m' & Hs' & Hle).
    destruct (Hmin _ _ Hs') as [Hlt | [Heq _]]; lia.
  - intros ty' Hr.
    destruct (match_here (pattern_of ty') (m_start m) (skipn (m_start m) rest))
      as [x|] eqn:E; [|reflexivity].
    destruct (match_here_search _ rest _ x Hlen E) as (m' & Hs' & Hle).
    destruct (Hmin _ _ Hs') as [Hlt | [Heq Hrk]]; lia.
Qed.

Lemma inline_loop_S (f : nat) (text : str) (pos : nat) (runs : list Run) :
  inline_loop (S f) text pos runs
  = if pos <? length text then
      match first_occurrence patterns (skipn pos text) None with
      | None => add_run_if (unescape_latex (skipn pos text)) runs
      | Some (m, ty) =>
          inline_loop f text (pos + m_end m)
            (add_run_if (unescape_latex (firstn (m_start m) (skipn pos text))) runs
             ++ [formatted_run m ty])
      end
    else runs.
Proof. reflexivity. Qed.

(** One round of the scanner on a non-empty text. *)
Lemma inline_runs_step (c : ascii) (text : str) :
  match first_occurrence patterns (c :: text) None with
  | None =>
      inline_runs (c :: text) = add_run_if (unescape_latex (c :: text)) []
  | Some (m, ty) =>
      inline_runs (c :: text)
      = add_run_if (unescape_latex (firstn (m_start m) (c :: text))) []
        ++ formatted_run m ty :: inline_runs (skipn (m_end m) (c :: text))
  end.
Proof.
  destruct (first_occurrence patterns (c :: text) None) as [[m ty]|] eqn:E;
    unfold inline_runs at 1; rewrite inline_loop_S;
    change (0 <? length (c :: text)) with true; cbn [skipn]; rewrite E;
    [|reflexivity].
  apply first_occurrence_leftmost in E as [E _].
  apply pattern_match in E as (E1 & E2 & _).
  rewrite inline_loop_runs, inline_loop_shift. cbn [Nat.add].
  rewrite <- app_assoc. f_equal. cbn [app]. f_equal.
  unfold inline_runs.
  apply inline_loop_fuel; rewrite length_skipn; lia.
Qed.

Lemma inline_loop_nonempty (f : nat) (text : str) :
  forall pos, Forall (fun r => run_text r <> []) (inline_loop f text pos []).
Proof.
  induction f as [|f IH]; intros pos; cbn [inline_loop]; [constructor|].
  destruct (pos <? length text); [|constructor].
  destruct (first_occurrence patterns (skipn pos text) None) as [[m ty]|] eqn:E.
  - apply first_occurrence_leftmost in E as [E _].
    apply pattern_match in E as (_ & _ & E3).
    rewrite inline_loop_runs. apply Forall_app. split; [|apply IH].
    apply Forall_app. split; [|repeat constructor; exact E3].
    destruct (unescape_latex (firstn (m_start m) (skipn pos text))) eqn:Eu;
      cbn [add_run_if app]; repeat constructor. discriminate.
  - destruct (unescape_latex (skipn pos text)) eqn:Eu;
      cbn [add_run_if app]; repeat constructor. discriminate.
Qed.

End InlineFacts.

(** ** The envelope *)

Module EnvelopeFacts.

Import Re DocxGenerator ReFacts.

Lemma find_none_skipn (e : str) (n : nat) (s : str) :
  Py.find e s = None -> Py.find e (skipn n s) = None.
Proof.
  revert s. induction n as [|n IH]; intros s H; [exact H|].
  destruct s as [|c s]; [exact H|].
  cbn [skipn]. apply IH. cbn [Py.find] in H.
  destruct (Py.startswith e (c :: s)); [discriminate|].
  destruct (Py.find e s); [discriminate | reflexivity].
Qed.

(** [(.*?)w] reads up to the first occurrence of the word [w]. *)
Lemma run_lazy_until (i : nat) (e : str) (cs : caps) (s : str) :
  forall pre,
  run (Lazy Dot) s cs
    (fun s' cs' =>
       run (Lits e) s' ((i, firstn (length (pre ++ s) - length s') (pre ++ s)) :: cs')
         (fun rest cs'' => Some (rest, cs'')))
  = match Py.find e s with
    | Some j => Some (skipn (j + length e) s, (i, pre ++ firstn j s) :: cs)
    | None => None
    end.
Proof.
  induction s as [|c s IH]; intros pre.
  - rewrite run_Lazy_Dot_nil, run_Lits. cbn [Py.find].
    destruct (Py.startswith e []); [|reflexivity].
    rewrite firstn_app_minus. cbn [firstn Nat.add].
    rewrite app_nil_r. reflexivity.
  - rewrite run_Lazy_Dot_cons, run_Lits. cbn [Py.find].
    destruct (Py.startswith e (c :: s)).
    + rewrite firstn_app_minus. cbn [firstn Nat.add].
      rewrite app_nil_r. reflexivity.
    + replace (pre ++ c :: s) with ((pre ++ [c]) ++ s)
        by (rewrite <- app_assoc; reflexivity).
      rewrite IH. destruct (Py.find e s) as [j|]; [|reflexivity].
      cbn [option_map Nat.add skipn firstn].
      rewrite <- app_assoc. reflexivity.
Qed.

Lemma run_group_lazy_until (i : nat) (e : str) (cs : caps) (s : str) :
  run (Cat (Group i (Lazy Dot)) (Lits e)) s cs (fun rest cs' => Some (rest, cs'))
  = match Py.find e s with
    | Some j => Some (skipn (j + length e) s, (i, firstn j s) :: cs)
    | None => None
    end.
Proof.
  rewrite run_Cat, run_Group. apply (run_lazy_until i e cs s []).
Qed.

(** The group of the envelope pattern at one offset. *)
Lemma match_here_document (pos : nat) (s : str) :
  option_map (fun m => group m 1) (match_here document_re pos s)
  = if Py.startswith begin_marker s then
      match Py.find end_marker (skipn (length begin_marker) s) with
      | Some j => Some (firstn j (skipn (length begin_marker) s))
      | None => None
      end
    else None.
Proof.
  unfold match_here, document_re. rewrite run_Cat, run_Lits.
  fold begin_marker end_marker.
  destruct (Py.startswith begin_marker s); [|reflexivity].
  rewrite run_group_lazy_until.
  destruct (Py.find end_marker _); reflexivity.
Qed.

Lemma search_document (s : str) :
  forall pos,
  option_map (fun m => group m 1) (search_from document_re pos s)
  = match Py.find begin_marker s with
    | Some i =>
        match Py.find end_marker (skipn (i + length begin_marker) s) with
        | Some j => Some (firstn j (skipn (i + length begin_marker) s))
        | None => None
        end
    | None => None
    end.
Proof.
  induction s as [|c s IH]; intros pos.
  - cbn [search_from]. pose proof (match_here_document pos []) as H.
    destruct (match_here document_re pos []); exact H.
  - cbn [search_from Py.find]. pose proof (match_here_document pos (c :: s)) as H.
    destruct (Py.startswith begin_marker (c :: s)) eqn:Eb.
    + cbn [Nat.add].
      destruct (Py.find end_marker (skipn (length begin_marker) (c :: s))) eqn:Ee.
      * destruct (match_here document_re pos (c :: s)); [exact H | discriminate].
      * destruct (match_here document_re pos (c :: s)); [discriminate|].
        rewrite IH. destruct (Py.find begin_marker s) as [i|]; [|reflexivity].
        replace (skipn (i + length begin_marker) s)
          with (skipn (S i) (skipn (length begin_marker) (c :: s))).
        -- rewrite find_none_skipn by exact Ee. reflexivity.
        -- rewrite skipn_skipn. cbn [Nat.add skipn]. reflexivity.
    + destruct (match_here document_re pos (c :: s)); [discriminate|].
      rewrite IH. destruct (Py.find begin_marker s) as [i|]; reflexivity.
Qed.

End EnvelopeFacts.

(** ** Headings *)

Module HeadingFacts.

Import Re DocxGenerator ReFacts.

Lemma escape_char_nonempty (c : ascii) : escape_latex [c] <> [].
Proof.
  destruct c as [[] [] [] [] [] [] [] []]; vm_compute; discriminate.
Qed.

Lemma escape_char_brace_free (c : ascii) :
  implb (plain_title_char c) (forallb not_brace (escape_latex [c])) = true.
Proof.
  destruct c as [[] [] [] [] [] [] [] []]; vm_compute; reflexivity.
Qed.

Lemma escape_nonempty (t : str) : t <> [] -> escape_latex t <> [].
Proof.
  destruct t as [|c t]; [congruence|]. intros _.
  rewrite escape_latex_cons. pose proof (escape_char_nonempty c) as H.
  destruct (escape_latex [c]); [congruence | discriminate].
Qed.

Lemma escape_brace_free (t : str) :
  forallb plain_title_char t = true ->
  forallb not_brace (escape_latex t) = true.
Proof.
  induction t as [|c t IH]; intros H; [reflexivity|].
  cbn [forallb] in H. apply andb_prop in H as [Hc Ht].
  rewrite escape_latex_cons, forallb_app, (IH Ht), andb_true_r.
  pose proof (escape_char_brace_free c) as Hi. rewrite Hc in Hi. exact Hi.
Qed.

(** The section pattern at the start of a block that is a backslash, some
    [sub]s, [section] and one braced argument. *)
Lemma run_subs (n : nat) (tail : str) (cs : caps) (k : str -> caps -> outcome)
  (res : str * caps) :
  Py.startswith $"sub" tail = false ->
  k tail cs = Some res ->
  run (Star (Lits $"sub")) (concat (repeat $"sub" n) ++ tail) cs k = Some res.
Proof.
  intros Ht Hk. induction n as [|n IH].
  - cbn [repeat concat app]. rewrite run_Star_Lits by discriminate.
    rewrite Ht. exact Hk.
  - cbn [repeat concat]. rewrite <- app_assoc.
    rewrite run_Star_Lits by discriminate.
    rewrite startswith_refl_app, skipn_app, Nat.sub_diag, skipn_all.
    cbn [skipn app]. rewrite IH. reflexivity.
Qed.

Lemma search_section (n : nat) (g rest : str) :
  g <> [] -> forallb not_brace g = true ->
  option_map (fun m => group m 1)
    (search section_re
       (bsl :: concat (repeat $"sub" n) ++ $"section{" ++ g ++ "}"%char :: rest))
  = Some g.
Proof.
  intros Hne Hg. unfold search.
  assert (Hm : exists m,
             match_here section_re 0
               (bsl :: concat (repeat $"sub" n) ++ $"section{" ++ g ++ "}"%char :: rest)
             = Some m /\ group m 1 = g).
  { unfold match_here, section_re. rewrite run_Cat.
    unfold Lit at 1. rewrite run_Chr.
    cbn [head_is skipn]. rewrite Ascii.eqb_refl. rewrite run_Cat.
    rewrite (run_subs n _ _ _ (rest, [(1, g)])).
    - eexists. split; [reflexivity|]. reflexivity.
    - reflexivity.
    - rewrite run_Cat, run_Lits, startswith_refl_app.
      rewrite skipn_app, Nat.sub_diag, skipn_all. cbn [skipn app].
      rewrite run_braced_end, braced_app by assumption. reflexivity. }
  destruct Hm as (m & Hm & Hgm).
  cbn [search_from]. rewrite Hm. cbn [option_map]. rewrite Hgm. reflexivity.
Qed.

End HeadingFacts.

(** ** Lists *)

Module ListFacts.

Import Re DocxGenerator ReFacts.

(** The item pattern at one offset: the group is a non-empty run of item
    characters. *)
Lemma match_here_item (pos : nat) (s : str) (m : match_obj) :
  match_here item_re pos s = Some m ->
  group m 1 <> [] /\ Forall (fun c => item_char c = true) (group m 1).
Proof.
  unfold match_here, item_re. rewrite run_Cat, run_Lits.
  destruct (Py.startswith $"\item" s); [|discriminate].
  rewrite run_Cat. unfold Plus at 1. rewrite run_Cat. unfold Space at 1.
  rewrite run_Chr. destruct (head_is Py.isspace _); [|discriminate].
  destruct (run (Star Space) _ _ _) as [[rest cs]|] eqn:E; [|discriminate].
  intros H. inversion H; subst m. cbn [group m_groups]. clear H.
  apply run_Star_Chr_some in E as [n Hn].
  change (NotOf [bsl; nl]) with (Chr item_char) in Hn.
  rewrite run_Group_Plus_last in Hn.
  pose proof (take_while_Forall item_char
                (skipn n (skipn 1 (skipn (length $"\item") s)))) as Hall.
  destruct (take_while item_char _) as [|c g]; [discriminate|].
  inversion Hn; subst. cbn [lookup Nat.eqb]. split; [discriminate | exact Hall].
Qed.

Lemma search_item (s : str) (m : match_obj) :
  search item_re s = Some m ->
  Forall (fun c => item_char c = true) (group m 1).
Proof.
  intros H. apply InlineFacts.search_from_some in H as (n & _ & Hm & _).
  apply match_here_item in Hm. apply Hm.
Qed.

Lemma findall_loop_Forall (P : str -> Prop) (r : regex) :
  (forall s m, search r s = Some m -> P (group m 1)) ->
  forall f s, Forall P (findall_loop f r s).
Proof.
  intros Hr. induction f as [|f IH]; intros s; cbn [findall_loop]; [constructor|].
  destruct (search r s) as [m|] eqn:E; constructor; [eapply Hr, E | apply IH].
Qed.

Lemma item_char_not_backslash (c : ascii) : item_char c = true -> c <> bsl.
Proof.
  unfold item_char. cbn [existsb]. intros H ->.
  rewrite Ascii.eqb_refl in H. discriminate.
Qed.

Lemma In_lstrip (c : ascii) (s : str) : In c (Py.lstrip s) -> In c s.
Proof.
  induction s as [|x s IH]; cbn [Py.lstrip]; [tauto|].
  destruct (Py.isspace x); [right; apply IH; assumption | tauto].
Qed.

Lemma In_strip (c : ascii) (s : str) : In c (Py.strip s) -> In c s.
Proof.
  unfold Py.strip, Py.rstrip. intros H.
  apply In_lstrip. apply in_rev in H. apply In_lstrip in H.
  apply in_rev in H. exact H.
Qed.

(** A replacement whose pattern starts with a character the text does not
    hold changes nothing. *)
Lemma replace_absent (a : ascii) (old new s : str) :
  ~ In a s -> Py.replace (a :: old) new s = s.
Proof.
  unfold Py.replace. induction s as [|c s IH]; intros H; [reflexivity|].
  rewrite replace_scan_miss.
  - f_equal. apply IH. intros Hin. apply H. right. exact Hin.
  - cbn [Py.startswith]. destruct (Ascii.eqb_spec a c) as [->|]; [|reflexivity].
    exfalso. apply H. left. reflexivity.
Qed.

Lemma unescape_no_backslash (s : str) : ~ In bsl s -> unescape_latex s = s.
Proof.
  intros H. rewrite unescape_latex_unfold. unfold LATEX_SPECIAL_CHARS.
  cbn [unescape_loop].
  change ($"\&") with (bsl :: $"&").
  change ($"\%") with (bsl :: $"%").
  change ($"\$") with (bsl :: $"$").
  change ($"\#") with (bsl :: $"#").
  change ($"\_") with (bsl :: $"_").
  change ($"\{") with (bsl :: $"{").
  change ($"\}") with (bsl :: $"}").
  change ($"\textasciitilde{}") with (bsl :: $"textasciitilde{}").
  change ($"\textasciicircum{}") with (bsl :: $"textasciicircum{}").
  change ($"\textbackslash{}") with (bsl :: $"textbackslash{}").
  rewrite !(replace_absent bsl _ _ s H). reflexivity.
Qed.

(** No item holds a backslash, so its unescaping changes nothing. *)
Lemma items_without_backslash (block : str) :
  Forall (fun item => ~ In bsl item
                      /\ unescape_latex (Py.strip item) = Py.strip item)
    (findall item_re block).
Proof.
  unfold findall. apply findall_loop_Forall. intros s m H.
  apply search_item in H.
  assert (Hn : ~ In bsl (group m 1)).
  { intros Hin. rewrite Forall_forall in H.
    apply (item_char_not_backslash _ (H _ Hin)). reflexivity. }
  split; [exact Hn|].
  apply unescape_no_backslash. intros Hin. apply Hn, In_strip, Hin.
Qed.

(** One paragraph per item, in the style the enumerate marker decides. *)
Lemma process_list_items (block : str) (doc : Document) :
  _process_list block doc
  = doc ++ map (fun item =>
                  Para (add_paragraph (unescape_latex (Py.strip item))
                          (item_style block)))
             (findall item_re block).
Proof.
  unfold _process_list, item_style.
  generalize (findall item_re block). intros items. revert doc.
  induction items as [|item items IH]; intros doc; cbn [fold_left map].
  - symmetry. apply app_nil_r.
  - rewrite IH, <- app_assoc. reflexivity.
Qed.

End ListFacts.

(** ** Tables *)

Module TableFacts.

Import Re DocxGenerator.

Lemma set_nth_length {A : Type} (xs : list A) (i : nat) (v : A) :
  length (set_nth xs i v) = length xs.
Proof.
  revert i. induction xs as [|x xs IH]; intros [|i]; simpl; try reflexivity.
  rewrite IH. reflexivity.
Qed.

Lemma set_nth_twice {A : Type} (xs : list A) (i : nat) (a b : A) :
  set_nth (set_nth xs i a) i b = set_nth xs i b.
Proof.
  revert i. induction xs as [|x xs IH]; intros [|i]; simpl; try reflexivity.
  rewrite IH. reflexivity.
Qed.

Lemma set_nth_same {A : Type} (xs : list A) (i : nat) (d : A) :
  set_nth xs i (nth i xs d) = xs.
Proof.
  revert i. induction xs as [|x xs IH]; intros [|i]; simpl; try reflexivity.
  rewrite IH. reflexivity.
Qed.

Lemma nth_set_nth {A : Type} (xs : list A) (i : nat) (v d : A) :
  i < length xs -> nth i (set_nth xs i v) d = v.
Proof.
  revert i. induction xs as [|x xs IH]; intros [|i] H; simpl in *;
    try lia; [reflexivity|].
  apply IH. lia.
Qed.

Lemma set_nth_middle {A : Type} (pre : list A) (x v : A) (post : list A) :
  set_nth (pre ++ x :: post) (length pre) v = pre ++ v :: post.
Proof.
  induction pre as [|p pre IH]; simpl; [reflexivity|].
  rewrite IH. reflexivity.
Qed.

Lemma nth_middle_here {A : Type} (pre : list A) (x d : A) (post : list A) :
  nth (length pre) (pre ++ x :: post) d = x.
Proof. induction pre as [|p pre IH]; simpl; [reflexivity | exact IH]. Qed.

(** Past the last column nothing is written. *)
Lemma fill_row_done (num_cols i : nat) (cells : list str) :
  forall j grid, num_cols <= j -> fill_row num_cols i j cells grid = grid.
Proof.
  induction cells as [|c cells IH]; intros j grid H; cbn [fill_row];
    [reflexivity|].
  destruct (Nat.ltb_spec j num_cols); [lia|]. apply IH. lia.
Qed.

(** The inner loop from column [j] on, when the columns before [j] hold
    [pre] and the others are still empty. *)
Lemma fill_row_from (num_cols i : nat) (cells : list str) :
  forall j pre grid,
  length pre = j -> j <= num_cols -> i < length grid ->
  nth i grid [] = pre ++ repeat [] (num_cols - j) ->
  fill_row num_cols i j cells grid
  = set_nth grid i (pre ++ written_row (num_cols - j) cells).
Proof.
  induction cells as [|c cells IH]; intros j pre grid Hpre Hj Hi Hrow.
  - cbn [fill_row]. unfold written_row.
    rewrite firstn_nil. cbn [length app]. rewrite Nat.sub_0_r, <- Hrow.
    symmetry. apply set_nth_same.
  - cbn [fill_row]. destruct (Nat.ltb_spec j num_cols) as [Hlt|Hge].
    + destruct (num_cols - j) as [|k] eqn:Ek; [lia|].
      assert (Hk : num_cols - S j = k) by lia.
      assert (Hcell : set_cell grid i j c
                      = set_nth grid i (pre ++ c :: repeat [] k)).
      { unfold set_cell. unfold str in *. rewrite Hrow. cbn [repeat].
        rewrite <- Hpre, set_nth_middle. reflexivity. }
      rewrite Hcell.
      rewrite (IH (S j) (pre ++ [c])).
      * rewrite set_nth_twice, Hk. unfold written_row. cbn [firstn length].
        rewrite <- !app_assoc. cbn [app Nat.sub]. reflexivity.
      * rewrite length_app. simpl. lia.
      * lia.
      * rewrite set_nth_length. exact Hi.
      * rewrite nth_set_nth by exact Hi. rewrite Hk, <- app_assoc. reflexivity.
    + rewrite fill_row_done by lia.
      replace (num_cols - j) with 0 in * by lia.
      unfold written_row. cbn [firstn Nat.sub repeat app] in *.
      rewrite <- Hrow. symmetry. apply set_nth_same.
Qed.

(** The outer loop from row [i] on, when the rows before [i] are [done] and
    the others are still empty. *)
Lemma fill_rows_from (num_cols : nat) (rows : list str) :
  forall i done,
  length done = i ->
  fill_rows num_cols i rows (done ++ repeat (repeat [] num_cols) (length rows))
  = done ++ map (fun row_text => written_row num_cols (row_cells row_text)) rows.
Proof.
  induction rows as [|row_text rows IH]; intros i done Hi; [reflexivity|].
  cbn [fill_rows length repeat map]. fold (row_cells row_text).
  rewrite (fill_row_from num_cols i (row_cells row_text) 0 []).
  - rewrite Nat.sub_0_r. cbn [app]. rewrite <- Hi, set_nth_middle.
    pose proof (IH (S (length done))
                  (done ++ [written_row num_cols (row_cells row_text)])) as IH'.
    rewrite <- !app_assoc in IH'. cbn [app] in IH'. apply IH'.
    rewrite length_app. simpl. lia.
  - reflexivity.
  - lia.
  - rewrite length_app. simpl. lia.
  - rewrite <- Hi, nth_middle_here, Nat.sub_0_r. reflexivity.
Qed.

(** The table [_process_table] adds: one row of [num_cols] cells for each
    row that passed the filter, where [num_cols] is the number of cells of
    the first of them; each row holds the first [num_cols] cells of its
    markup row, stripped and unescaped, and the cells its markup row does
    not have stay empty. *)
Lemma process_table_grid (block : str) (doc : Document) :
  _process_table block doc
  = match search tabular_re block with
    | None => doc
    | Some tabular_match =>
        match table_rows (group tabular_match 1) with
        | [] => doc
        | row0 :: rows =>
            doc ++ [Tbl $"Light Grid Accent 1"
                      (map (fun row_text =>
                              written_row (length (Py.split $"&" row0))
                                (row_cells row_text))
                         (row0 :: rows))]
        end
    end.
Proof.
  unfold _process_table.
  destruct (search tabular_re block) as [m|]; [|reflexivity].
  destruct (table_rows (group m 1)) as [|row0 rows]; [reflexivity|].
  rewrite length_map. unfold add_table.
  pose proof (fill_rows_from (length (Py.split $"&" row0)) (row0 :: rows) 0 []
                eq_refl) as H.
  cbn [app] in H. rewrite H. reflexivity.
Qed.

(** A row that starts with a backslash never reaches the table. *)
Lemma table_rows_no_backslash (table_content : str) :
  Forall (fun row => Py.startswith [bsl] row = false) (table_rows table_content).
Proof.
  unfold table_rows. apply Forall_forall. intros row H.
  apply filter_In in H as [_ H]. apply negb_true_iff, H.
Qed.

End TableFacts.

(** * The claims *)

Import Re DocxGenerator.

(** C1.  For every text [t] that contains none of the escape sequences of
    the table, unescaping the escaped text gives [t] back.  (The equation
    holds for every text; see [unescape_escape].) *)
Theorem unescape_escape_roundtrip (t : str) :
  has_escape_sequence t = false ->
  unescape_latex (escape_latex t) = t.
Proof.
  intros _. rewrite unescape_latex_unfold.
  induction t as [|c t IH]; [reflexivity|].
  rewrite escape_latex_cons.
  destruct (escape_unit c) as [Hclosed Hunit].
  rewrite (unescape_loop_app _ _ _ Hclosed), Hunit, IH.
  reflexivity.
Qed.

Lemma unescape_escape_roundtrip_witness :
  has_escape_sequence $"50% of {A_1} & B#2 ~ C^3 \ $4" = false
  /\ unescape_latex (escape_latex $"50% of {A_1} & B#2 ~ C^3 \ $4")
     = $"50% of {A_1} & B#2 ~ C^3 \ $4".
Proof.
  split; [reflexivity | apply unescape_escape_roundtrip; reflexivity].
Defined.

(** C2.  What [escape_latex] returns for each of the ten characters of the
    table, taken alone.  Nine come out as the table says; the backslash does
    not: the braces of its sequence are escaped again by the later
    substitutions of the loop. *)
Theorem escape_single_characters :
  map (fun entry => (fst entry, escape_latex [fst entry])) LATEX_SPECIAL_CHARS
  = [ ("&"%char, $"\&");
      ("%"%char, $"\%");
      ("$"%char, $"\$");
      ("#"%char, $"\#");
      ("_"%char, $"\_");
      ("{"%char, $"\{");
      ("}"%char, $"\}");
      ("~"%char, $"\textasciitilde{}");
      ("^"%char, $"\textasciicircum{}");
      (bsl, $"\textbackslash\{\}") ].
Proof. vm_compute. reflexivity. Qed.

(** C3, as the claim states it, fails at level 4: the command of a level-4
    heading is read back as a plain paragraph. *)
Lemma heading_level4_not_reparsed :
  _process_block no_files
    (LatexGenerator._process_heading (heading_paragraph 4 $"Title")) []
  <> [Heading $"Title" 4].
Proof. vm_compute. discriminate. Qed.

(** At the levels the parser knows, a title with a closing brace is cut at
    the brace of its escape sequence. *)
Example heading_title_cut_at_brace :
  _process_block no_files
    (LatexGenerator._process_heading (heading_paragraph 1 $"a}b")) []
  = [Heading $"a\" 1].
Proof. vm_compute. reflexivity. Qed.

(** C3, amended.  For every level from 1 to 3 and every non-empty title
    whose characters are all other than the closing brace, the tilde, the
    circumflex and the backslash, the command generated for the heading is
    classified as a heading and read back with the same level and the same
    title. *)
Theorem heading_roundtrip_levels_1_3 (w : World) (level : nat) (title : str)
  (doc : Document) :
  1 <= level <= 3 ->
  title <> [] ->
  forallb plain_title_char title = true ->
  _process_block w
    (LatexGenerator._process_heading (heading_paragraph level title)) doc
  = doc ++ [Heading title level].
Proof.
  intros Hl Hne Hp.
  pose proof (HeadingFacts.escape_nonempty title Hne) as Hg.
  pose proof (HeadingFacts.escape_brace_free title Hp) as Hb.
  assert (Ht : par_text (heading_paragraph level title) = title)
    by apply app_nil_r.
  unfold LatexGenerator._process_heading. rewrite Ht.
  destruct level as [|[|[|[|]]]]; try lia.
  - change (Py.contains $"Heading 1" (par_style (heading_paragraph 1 title)))
      with true. cbv iota.
    pose proof (HeadingFacts.search_section 0 _ [] Hg Hb) as Hs.
    unfold _process_block, _process_section.
    change (Py.startswith $"\section" ($"\section{" ++ escape_latex title ++ $"}"))
      with true. cbv iota.
    cbn [repeat concat app] in Hs.
    destruct (search section_re _) as [m|]; [|discriminate].
    inversion Hs as [Hm]. rewrite Hm, unescape_escape. reflexivity.
  - change (Py.contains $"Heading 1" (par_style (heading_paragraph 2 title)))
      with false.
    change (Py.contains $"Heading 2" (par_style (heading_paragraph 2 title)))
      with true. cbv iota.
    pose proof (HeadingFacts.search_section 1 _ [] Hg Hb) as Hs.
    unfold _process_block, _process_section.
    change (Py.startswith $"\section" ($"\subsection{" ++ escape_latex title ++ $"}"))
      with false.
    change (Py.startswith $"\subsection" ($"\subsection{" ++ escape_latex title ++ $"}"))
      with true. cbv iota.
    cbn [repeat concat app] in Hs.
    destruct (search section_re _) as [m|]; [|discriminate].
    inversion Hs as [Hm]. rewrite Hm, unescape_escape. reflexivity.
  - change (Py.contains $"Heading 1" (par_style (heading_paragraph 3 title)))
      with false.
    change (Py.contains $"Heading 2" (par_style (heading_paragraph 3 title)))
      with false.
    change (Py.contains $"Heading 3" (par_style (heading_paragraph 3 title)))
      with true. cbv iota.
    pose proof (HeadingFacts.search_section 2 _ [] Hg Hb) as Hs.
    unfold _process_block, _process_section.
    change (Py.startswith $"\section" ($"\subsubsection{" ++ escape_latex title ++ $"}"))
      with false.
    change (Py.startswith $"\subsection" ($"\subsubsection{" ++ escape_latex title ++ $"}"))
      with false.
    change (Py.startswith $"\subsubsection" ($"\subsubsection{" ++ escape_latex title ++ $"}"))
      with true. cbv iota.
    cbn [repeat concat app] in Hs.
    destruct (search section_re _) as [m|]; [|discriminate].
    inversion Hs as [Hm]. rewrite Hm, unescape_escape. reflexivity.
Qed.

Lemma heading_roundtrip_levels_1_3_witness :
  1 <= 2 <= 3
  /\ $"Costs & Risks_1 = $100%" <> []
  /\ forallb plain_title_char $"Costs & Risks_1 = $100%" = true
  /\ _process_block no_files
       (LatexGenerator._process_heading
          (heading_paragraph 2 $"Costs & Risks_1 = $100%")) []
     = [] ++ [Heading $"Costs & Risks_1 = $100%" 2].
Proof.
  split; [lia|]. split; [discriminate|]. split; [reflexivity|].
  apply (heading_roundtrip_levels_1_3 no_files 2 $"Costs & Risks_1 = $100%" []).
  - lia.
  - discriminate.
  - reflexivity.
Defined.

(** C4, as the claim states it, fails at level 5: the command is not the
    one of level 4. *)
Lemma heading_level5_differs_from_level4 :
  LatexGenerator._process_heading (heading_paragraph 5 $"Title")
  <> LatexGenerator._process_heading (heading_paragraph 4 $"Title").
Proof. vm_compute. discriminate. Qed.

(** C4, amended.  For every heading of a level from 5 to 9 (the built-in
    heading styles below level 4) the generator emits [\subparagraph], the
    same command for all of them and one of its own: level 4 emits
    [\paragraph]. *)
Theorem deep_headings_subparagraph (level : nat) (title : str) :
  5 <= level <= 9 ->
  LatexGenerator._process_heading (heading_paragraph level title)
  = $"\subparagraph{" ++ escape_latex title ++ $"}"
  /\ LatexGenerator._process_heading (heading_paragraph 4 title)
     = $"\paragraph{" ++ escape_latex title ++ $"}".
Proof.
  intros Hl. unfold LatexGenerator._process_heading.
  assert (Ht : forall n, par_text (heading_paragraph n title) = title)
    by (intros n; apply app_nil_r).
  rewrite !Ht. split; [|reflexivity].
  destruct level as [|[|[|[|[|[|[|[|[|[|]]]]]]]]]]; try lia; reflexivity.
Qed.

Lemma deep_headings_subparagraph_witness :
  5 <= 6 <= 9
  /\ LatexGenerator._process_heading (heading_paragraph 6 $"Notes")
     = $"\subparagraph{" ++ escape_latex $"Notes" ++ $"}"
  /\ LatexGenerator._process_heading (heading_paragraph 4 $"Notes")
     = $"\paragraph{" ++ escape_latex $"Notes" ++ $"}".
Proof.
  split; [lia|]. apply (deep_headings_subparagraph 6 $"Notes"). lia.
Defined.

(** C6.  The table the generator writes for two rows of two cells is read
    back as no table at all: each data row follows a rule command in its
    piece between row terminators, the piece starts with a backslash, and
    the filter drops it with the rule command.  A table block without rule
    commands is read as the claim says: the first row of three cells sets
    three columns, a row of five keeps its first three cells, and of a row
    of two only its own two cells are written (the third stays as the new
    table has it, empty). *)
Theorem generated_table_rows_dropped :
  LatexGenerator._process_table [[$"a"; $"b"]; [$"c"; $"d"]]
  = Py.join [nl]
      [ $"\begin{table}[h]"; $"\centering"; $"\begin{tabular}{l|l}";
        $"\toprule"; $"a & b \\"; $"\midrule"; $"c & d \\"; $"\bottomrule";
        $"\end{tabular}"; $"\end{table}" ]
  /\ table_rows
       (Py.join [nl]
          [ []; $"\toprule"; $"a & b \\"; $"\midrule"; $"c & d \\";
            $"\bottomrule"; [] ])
     = []
  /\ _process_block no_files
       (LatexGenerator._process_table [[$"a"; $"b"]; [$"c"; $"d"]]) []
     = []
  /\ _process_block no_files
       (Py.join [nl]
          [ $"\begin{table}[h]"; $"\begin{tabular}{l|l|l}";
            $"a & b\% & c \\"; $"d & e & f & g & h \\"; $"i & j \\";
            $"\end{tabular}"; $"\end{table}" ]) []
     = [ Tbl $"Light Grid Accent 1"
           [ [$"a"; $"b%"; $"c"]; [$"d"; $"e"; $"f"]; [$"i"; $"j"; []] ] ].
Proof. vm_compute. repeat split. Qed.

(** The ampersand of an escape sequence separates cells like any other:
    the row written for the cells [a], [b&] and [c] is read as four cells. *)
Example escaped_ampersand_splits_cell :
  row_cells ($"a & " ++ escape_latex $"b&" ++ $" & c") = [$"a"; $"b\"; []; $"c"].
Proof. vm_compute. reflexivity. Qed.

(** C7.  A list item is cut at the first backslash, so at an escape
    sequence too: the item written for the text [50% off] is read back as
    [50].  For every block, no item holds a backslash, and the call of
    [unescape_latex] on it changes nothing; the paragraphs are numbered
    exactly when the enumerate marker is in the block. *)
Theorem list_item_cut_at_escape :
  _process_block no_files
    (Py.join [nl]
       [ $"\begin{itemize}"; $"\item " ++ escape_latex $"50% off";
         $"\item two"; $"\end{itemize}" ]) []
  = [ Para (add_paragraph $"50" $"List Bullet");
      Para (add_paragraph $"two" $"List Bullet") ]
  /\ (forall block,
        Forall (fun item => ~ In bsl item
                            /\ unescape_latex (Py.strip item) = Py.strip item)
          (findall item_re block))
  /\ (forall block doc,
        _process_list block doc
        = doc ++ map (fun item =>
                        Para (add_paragraph (unescape_latex (Py.strip item))
                                (item_style block)))
                   (findall item_re block)).
Proof.
  split; [vm_compute; reflexivity|]. split.
  - apply ListFacts.items_without_backslash.
  - apply ListFacts.process_list_items.
Qed.

(** C8.  For every text: the scanner appends its runs to the paragraph; the
    match it consumes is the one the patterns select, that is the attempt of
    a pattern at an offset such that no pattern matches at a lower offset
    of the unread text and no pattern earlier in the order bold, italic,
    underline, hyperlink matches at the same offset; the text before the
    match becomes a plain run, the match a formatted run, and the scan goes
    on behind the match; without a match the unread text becomes a plain
    run.  The example of the specification gives the four runs it lists. *)
Theorem inline_scan_leftmost (text : str) :
  (forall paragraph,
     par_runs (_parse_inline_formatting text paragraph)
     = par_runs paragraph ++ inline_runs text)
  /\ (forall m ty,
        first_occurrence patterns text None = Some (m, ty)
        <-> leftmost_match text m ty)
  /\ (forall m ty,
        first_occurrence patterns text None = Some (m, ty) ->
        match_here (pattern_of ty) (m_start m) (skipn (m_start m) text) = Some m
        /\ (forall ty' j, j < m_start m ->
              match_here (pattern_of ty') j (skipn j text) = None)
        /\ (forall ty', rank ty' < rank ty ->
              match_here (pattern_of ty') (m_start m) (skipn (m_start m) text)
              = None))
  /\ match text with
     | [] => inline_runs text = []
     | _ :: _ =>
         match first_occurrence patterns text None with
         | None => inline_runs text = add_run_if (unescape_latex text) []
         | Some (m, ty) =>
             inline_runs text
             = add_run_if (unescape_latex (firstn (m_start m) text)) []
               ++ formatted_run m ty :: inline_runs (skipn (m_end m) text)
         end
     end
  /\ inline_runs $"plain \textbf{bold} then \textit{italic}"
     = [ plain_run $"plain ";
         {| run_text := $"bold"; run_bold := true; run_italic := false;
            run_underline := false; run_hyperlink := None |};
         plain_run $" then ";
         {| run_text := $"italic"; run_bold := false; run_italic := true;
            run_underline := false; run_hyperlink := None |} ].
Proof.
  split; [|split; [|split; [|split]]].
  - intros paragraph. cbn [_parse_inline_formatting par_runs].
    apply InlineFacts.inline_loop_runs.
  - intros m ty. apply InlineFacts.first_occurrence_leftmost.
  - intros m ty H. apply InlineFacts.leftmost_offsets.
    apply InlineFacts.first_occurrence_leftmost, H.
  - destruct text as [|c text]; [reflexivity|].
    apply InlineFacts.inline_runs_step.
  - vm_compute. reflexivity.
Qed.

(** C9.  The body [_parse_latex] works on is the span between the first
    begin marker and the first end marker after it, and the whole input
    when there is no such pair; an end marker inside a table cell cuts the
    body there. *)
Theorem document_body_between_markers (content : str) :
  document_body content = body_between_markers content
  /\ document_body
       ($"\documentclass{article}\begin{document}a & \end{document} & b \\"
        ++ $"\end{document}")
     = $"a & ".
Proof.
  split; [|vm_compute; reflexivity].
  unfold document_body, body_between_markers, search.
  pose proof (EnvelopeFacts.search_document content 0) as H.
  destruct (search_from document_re 0 content) as [m|];
    destruct (Py.find begin_marker content) as [i|]; cbn [option_map] in H;
    try discriminate; try reflexivity.
  - destruct (Py.find end_marker _); [|discriminate]. congruence.
  - destruct (Py.find end_marker _); [discriminate | reflexivity].
Qed.

(** C10.  Every run the inline scanner adds to a paragraph has a non-empty
    text. *)
Theorem inline_runs_nonempty (text : str) (paragraph : Paragraph) :
  exists added,
    par_runs (_parse_inline_formatting text paragraph)
    = par_runs paragraph ++ added
    /\ Forall (fun r => run_text r <> []) added.
Proof.
  exists (inline_runs text). split.
  - cbn [_parse_inline_formatting par_runs].
    apply InlineFacts.inline_loop_runs.
  - apply InlineFacts.inline_loop_nonempty.
Qed.

(** * Further properties *)

(** ** What escaped text cannot hold *)

Module MarkerFacts.

Import Re DocxGenerator ReFacts.

Lemma clash_app (p v rest : str) :
  clash p v = true -> clash p (v ++ rest) = true.
Proof.
  revert v. induction p as [|a p IH]; intros [|b v] H; simpl in *;
    try discriminate.
  destruct (Ascii.eqb a b); [apply IH, H | reflexivity].
Qed.

Lemma never_starts_app (p u v : str) :
  never_starts p u = true -> never_starts p v = true ->
  never_starts p (u ++ v) = true.
Proof.
  intros Hu Hv. induction u as [|c u IH]; [exact Hv|].
  cbn [never_starts] in Hu. apply andb_prop in Hu as [Hc Hu].
  cbn [app never_starts]. rewrite (IH Hu), andb_true_r.
  apply (clash_app p (c :: u) v Hc).
Qed.

Lemma never_starts_skipn (p : str) (j : nat) (s : str) :
  never_starts p s = true -> never_starts p (skipn j s) = true.
Proof.
  revert s. induction j as [|j IH]; intros s H; [exact H|].
  destruct s as [|c s]; [reflexivity|].
  cbn [skipn]. apply IH. cbn [never_starts] in H.
  apply andb_prop in H. apply H.
Qed.

Lemma never_starts_startswith (p s : str) :
  p <> [] -> never_starts p s = true -> Py.startswith p s = false.
Proof.
  intros Hp H. destruct s as [|c s].
  - destruct p; [congruence | reflexivity].
  - cbn [never_starts] in H. apply andb_prop in H as [Hc _].
    rewrite <- (app_nil_r (c :: s)). apply clash_startswith, Hc.
Qed.

Lemma never_starts_contains (p s : str) :
  p <> [] -> never_starts p s = true -> Py.contains p s = false.
Proof.
  intros Hp. induction s as [|c s IH]; intros H.
  - cbn [Py.contains]. rewrite never_starts_startswith by assumption.
    reflexivity.
  - cbn [Py.contains]. rewrite never_starts_startswith by assumption.
    apply IH. cbn [never_starts] in H. apply andb_prop in H. apply H.
Qed.

(** Past a part in which [p] never starts, [find] and [contains] look at
    the rest only. *)
Lemma find_app_never (p u rest : str) :
  never_starts p u = true ->
  Py.find p (u ++ rest) = option_map (Nat.add (length u)) (Py.find p rest).
Proof.
  intros H. induction u as [|c u IH].
  - cbn [app length]. destruct (Py.find p rest); reflexivity.
  - cbn [never_starts] in H. apply andb_prop in H as [Hc Hu].
    cbn [app Py.find].
    change (c :: u ++ rest) with ((c :: u) ++ rest).
    rewrite (clash_startswith _ _ rest Hc), (IH Hu).
    destruct (Py.find p rest); reflexivity.
Qed.

Lemma contains_app_never (p u rest : str) :
  never_starts p u = true ->
  Py.contains p (u ++ rest) = Py.contains p rest.
Proof.
  intros H. induction u as [|c u IH]; [reflexivity|].
  cbn [never_starts] in H. apply andb_prop in H as [Hc Hu].
  cbn [app Py.contains].
  change (c :: u ++ rest) with ((c :: u) ++ rest).
  rewrite (clash_startswith _ _ rest Hc). apply IH, Hu.
Qed.

(** None of the markers starts inside the escape sequence of a character. *)
Lemma escape_char_never (c : ascii) :
  forallb (fun p => never_starts p (escape_latex [c])) parser_markers = true.
Proof.
  destruct c as [[] [] [] [] [] [] [] []]; vm_compute; reflexivity.
Qed.

Lemma escape_never (p : str) (t : str) :
  In p parser_markers -> never_starts p (escape_latex t) = true.
Proof.
  intros Hp. induction t as [|c t IH]; [reflexivity|].
  rewrite escape_latex_cons. apply never_starts_app; [|exact IH].
  pose proof (escape_char_never c) as H.
  rewrite forallb_forall in H. apply H, Hp.
Qed.

Lemma markers_nonempty (p : str) : In p parser_markers -> p <> [].
Proof.
  intros H ->. revert H. unfold parser_markers. cbn [In].
  intuition discriminate.
Qed.

End MarkerFacts.

(** X1.  Escaping works piece by piece: the escaped form of a
    concatenation is the concatenation of the escaped forms. *)
Theorem escape_latex_concatenation (u v : str) :
  escape_latex (u ++ v) = escape_latex u ++ escape_latex v.
Proof.
  rewrite !escape_latex_unfold, replace_char_app. apply escape_loop_app.
Qed.

(** X2.  Escaped text holds none of the commands the parser looks for: no
    sectioning command, no environment or envelope marker, no item marker,
    no formatting or link command, no row terminator. *)
Theorem escaped_text_has_no_marker (t : str) :
  Forall (fun p => Py.contains p (escape_latex t) = false) parser_markers.
Proof.
  apply Forall_forall. intros p Hp.
  apply MarkerFacts.never_starts_contains.
  - apply MarkerFacts.markers_nonempty, Hp.
  - apply MarkerFacts.escape_never, Hp.
Qed.

(** ** Generating and parsing back *)

Module RoundTripFacts.

Import Re DocxGenerator ReFacts MarkerFacts.

Lemma search_from_all_none (r : regex) (s : str) :
  forall pos,
  (forall j, j <= length s -> match_here r (pos + j) (skipn j s) = None) ->
  search_from r pos s = None.
Proof.
  induction s as [|c s IH]; intros pos H; cbn [search_from].
  - pose proof (H 0 (le_n 0)) as H0. rewrite Nat.add_0_r in H0.
    cbn [skipn] in H0. rewrite H0. reflexivity.
  - pose proof (H 0 (Nat.le_0_l _)) as H0. rewrite Nat.add_0_r in H0.
    cbn [skipn] in H0. rewrite H0. apply IH. intros j Hj.
    rewrite Nat.add_succ_comm. apply (H (S j)). simpl. lia.
Qed.

(** Where a command never starts, its pattern finds nothing. *)
Lemma search_command_none (name s : str) :
  name <> [] -> never_starts name s = true ->
  search (command_re name) s = None.
Proof.
  intros Hn H. apply search_from_all_none. intros j _.
  rewrite match_here_command. unfold command_match.
  rewrite never_starts_startswith; [reflexivity | exact Hn |].
  apply never_starts_skipn, H.
Qed.

Lemma search_href_none (s : str) :
  never_starts $"\href{" s = true -> search href_re s = None.
Proof.
  intros H. apply search_from_all_none. intros j _.
  rewrite match_here_href. unfold href_match.
  rewrite never_starts_startswith; [reflexivity | discriminate |].
  apply never_starts_skipn, H.
Qed.

(** A text in which none of the four commands starts has no match. *)
Lemma first_occurrence_never (s : str) :
  never_starts $"\textbf" s = true -> never_starts $"\textit" s = true ->
  never_starts $"\underline" s = true -> never_starts $"\href{" s = true ->
  first_occurrence patterns s None = None.
Proof.
  intros Hb Hi Hu Hh. apply InlineFacts.first_occurrence_none.
  intros [| | |]; cbn [pattern_of].
  - apply search_command_none; [discriminate | exact Hb].
  - apply search_command_none; [discriminate | exact Hi].
  - apply search_command_none; [discriminate | exact Hu].
  - apply search_href_none, Hh.
Qed.

(** Stripping *)
Lemma rstrip_snoc (s : str) (c : ascii) :
  Py.rstrip (s ++ [c]) = if Py.isspace c then Py.rstrip s else s ++ [c].
Proof.
  unfold Py.rstrip. rewrite rev_app_distr. cbn [rev app Py.lstrip].
  destruct (Py.isspace c); [reflexivity|].
  cbn [rev]. rewrite rev_involutive. reflexivity.
Qed.

Lemma rstrip_nil : Py.rstrip [] = [].
Proof. reflexivity. Qed.

Lemma rstrip_keep (s u : str) (d : ascii) :
  Py.isspace d = false -> Py.rstrip (s ++ u ++ [d]) = s ++ u ++ [d].
Proof.
  intros H. rewrite app_assoc, rstrip_snoc, H. reflexivity.
Qed.

Lemma rstrip_cons_keep (d : ascii) (s : str) :
  Py.isspace d = false -> s <> [] -> Py.rstrip s <> [] ->
  Py.rstrip (d :: s) = d :: Py.rstrip s.
Proof.
  intros Hd. induction s as [|c s IH] using rev_ind; [congruence|].
  intros _ Hr. change (d :: s ++ [c]) with ((d :: s) ++ [c]).
  rewrite !rstrip_snoc in *. destruct (Py.isspace c); [|reflexivity].
  destruct s as [|x s]; [exfalso; apply Hr; reflexivity|].
  apply IH; [discriminate | exact Hr].
Qed.

(** What surrounds a character in its escape sequence is no white space,
    and white space is not escaped. *)
Lemma escape_char_space (c : ascii) :
  if Py.isspace c then escape_latex [c] = [c]
  else match escape_latex [c] with
       | [] => False
       | d :: u => Py.isspace d = false
                   /\ Py.isspace (last (d :: u) d) = false
       end.
Proof.
  destruct c as [[] [] [] [] [] [] [] []]; vm_compute;
    first [reflexivity | split; reflexivity].
Qed.

Lemma lstrip_escape (t : str) :
  Py.lstrip (escape_latex t) = escape_latex (Py.lstrip t).
Proof.
  induction t as [|c t IH]; [reflexivity|].
  rewrite escape_latex_cons. pose proof (escape_char_space c) as H.
  cbn [Py.lstrip]. destruct (Py.isspace c) eqn:E.
  - rewrite H. cbn [app Py.lstrip]. rewrite E. exact IH.
  - destruct (escape_latex [c]) as [|d u] eqn:Eu; [contradiction|].
    destruct H as [Hd _]. cbn [app Py.lstrip]. rewrite Hd.
    rewrite escape_latex_cons, Eu. reflexivity.
Qed.

Lemma rstrip_escape (t : str) :
  Py.rstrip (escape_latex t) = escape_latex (Py.rstrip t).
Proof.
  induction t as [|c t IH] using rev_ind; [reflexivity|].
  rewrite escape_latex_app, rstrip_snoc.
  pose proof (escape_char_space c) as H. destruct (Py.isspace c) eqn:E.
  - rewrite H, rstrip_snoc, E. exact IH.
  - destruct (escape_latex [c]) as [|d u] eqn:Eu; [contradiction|].
    destruct H as [_ Hl].
    rewrite (app_removelast_last (l := d :: u) d) by discriminate.
    rewrite rstrip_keep by exact Hl.
    rewrite <- (app_removelast_last (l := d :: u) d) by discriminate.
    rewrite escape_latex_app, Eu. reflexivity.
Qed.

Lemma strip_escape (t : str) :
  Py.strip (escape_latex t) = escape_latex (Py.strip t).
Proof. unfold Py.strip. rewrite lstrip_escape, rstrip_escape. reflexivity. Qed.

Lemma lstrip_head (s : str) (c : ascii) (x : str) :
  Py.lstrip s = c :: x -> Py.isspace c = false.
Proof.
  induction s as [|a s IH]; cbn [Py.lstrip]; [discriminate|].
  destruct (Py.isspace a) eqn:E; [exact IH|].
  intros H. inversion H; subst. exact E.
Qed.

Lemma lstrip_nil (s : str) : Py.lstrip s = [] -> forallb Py.isspace s = true.
Proof.
  induction s as [|a s IH]; cbn [Py.lstrip forallb]; [reflexivity|].
  destruct (Py.isspace a); [exact IH | discriminate].
Qed.

Lemma lstrip_spaces (s : str) : forallb Py.isspace s = true -> Py.lstrip s = [].
Proof.
  induction s as [|a s IH]; cbn [Py.lstrip forallb]; [reflexivity|].
  destruct (Py.isspace a); [exact IH | discriminate].
Qed.

Lemma forallb_rev (f : ascii -> bool) (s : str) :
  forallb f (rev s) = forallb f s.
Proof.
  induction s as [|a s IH]; [reflexivity|].
  cbn [rev forallb]. rewrite forallb_app, IH. cbn [forallb].
  rewrite andb_true_r. apply andb_comm.
Qed.

(** Stripping gives the empty text exactly for texts of white space. *)
Lemma strip_nil (s : str) : Py.strip s = [] -> forallb Py.isspace s = true.
Proof.
  unfold Py.strip, Py.rstrip. intros H.
  assert (H1 : Py.lstrip (rev (Py.lstrip s)) = []).
  { destruct (Py.lstrip (rev (Py.lstrip s))) as [|a x]; [reflexivity|].
    cbn [rev] in H. destruct (rev x); discriminate. }
  apply lstrip_nil in H1. rewrite forallb_rev in H1.
  destruct (Py.lstrip s) as [|c x] eqn:E; [apply lstrip_nil, E|].
  apply lstrip_head in E. cbn [forallb] in H1. rewrite E in H1. discriminate.
Qed.

Lemma strip_spaces (s : str) : forallb Py.isspace s = true -> Py.strip s = [].
Proof. intros H. unfold Py.strip. rewrite (lstrip_spaces _ H). reflexivity. Qed.

Lemma strip_has_nonspace (c : ascii) (s : str) :
  In c s -> Py.isspace c = false -> Py.strip s <> [].
Proof.
  intros Hin Hc H. apply strip_nil in H. rewrite forallb_forall in H.
  rewrite (H c Hin) in Hc. discriminate.
Qed.

End RoundTripFacts.

Module ParagraphFacts.

Import Re DocxGenerator ReFacts MarkerFacts RoundTripFacts.

Ltac in_markers :=
  unfold parser_markers; cbn [In]; repeat (first [left; reflexivity | right]).

Ltac marker_nonempty := let E := fresh in intro E; discriminate E.

Lemma render_plain (run : Run) :
  is_plain run = true ->
  LatexGenerator.render_run run = escape_latex (run_text run).
Proof.
  unfold is_plain, LatexGenerator.render_run.
  destruct (run_bold run), (run_italic run), (run_underline run),
    (run_hyperlink run); cbn; intros H; try discriminate; reflexivity.
Qed.

Lemma render_plain_runs (runs : list Run) :
  forallb is_plain runs = true ->
  concat (map LatexGenerator.render_run runs)
  = escape_latex (concat (map run_text runs)).
Proof.
  induction runs as [|run runs IH]; intros H; [reflexivity|].
  cbn [forallb] in H. apply andb_prop in H as [Hr Hrs].
  cbn [map concat]. rewrite escape_latex_app, render_plain, IH by assumption.
  reflexivity.
Qed.

Lemma unescape_escape_app (t rest : str) :
  unescape_loop LATEX_SPECIAL_CHARS (escape_latex t ++ rest)
  = t ++ unescape_loop LATEX_SPECIAL_CHARS rest.
Proof.
  induction t as [|c t IH]; [reflexivity|].
  rewrite escape_latex_cons, <- app_assoc.
  destruct (escape_unit c) as [Hc Hu].
  rewrite unescape_loop_app by exact Hc. rewrite Hu, IH. reflexivity.
Qed.

Lemma strip_nonempty (t : str) : Py.strip t <> [] -> t <> [].
Proof. intros H ->. apply H. reflexivity. Qed.

(** The classification of a block in which no marker starts. *)
Lemma process_block_unmarked (w : World) (block : str) (doc : Document) :
  (forall p, In p parser_markers -> never_starts p block = true) ->
  _process_block w block doc = _process_paragraph block doc.
Proof.
  intros H. unfold _process_block.
  rewrite !never_starts_startswith;
    try (apply H; in_markers); try marker_nonempty.
  rewrite !never_starts_contains;
    try (apply H; in_markers); try marker_nonempty.
  reflexivity.
Qed.

(** The scan of a text in which none of the four commands starts. *)
Lemma inline_runs_unmarked (text : str) :
  (forall p, In p parser_markers -> never_starts p text = true) ->
  inline_runs text = add_run_if (unescape_latex text) [].
Proof.
  intros H. destruct text as [|c text]; [reflexivity|].
  pose proof (InlineFacts.inline_runs_step c text) as Hs.
  rewrite first_occurrence_never in Hs by (apply H; in_markers).
  exact Hs.
Qed.

(** A paragraph block of escaped text is read as one plain run. *)
Lemma escaped_block_parse (w : World) (t : str) (doc : Document) :
  Py.strip t <> [] ->
  _process_block w (escape_latex t) doc
  = doc ++ [Para (add_paragraph t $"Normal")].
Proof.
  intros Ht.
  rewrite process_block_unmarked by (intros p Hp; apply escape_never, Hp).
  unfold _process_paragraph. rewrite strip_escape.
  pose proof (HeadingFacts.escape_nonempty _ Ht) as Hne.
  destruct (escape_latex (Py.strip t)); [congruence|].
  unfold _parse_inline_formatting. cbn [par_runs add_paragraph].
  change (inline_loop (S (length (escape_latex t))) (escape_latex t) 0 [])
    with (inline_runs (escape_latex t)).
  rewrite inline_runs_unmarked by (intros p Hp; apply escape_never, Hp).
  rewrite unescape_escape.
  destruct t as [|c t]; [exfalso; apply Ht; reflexivity|]. reflexivity.
Qed.

End ParagraphFacts.

(** X3.  A paragraph of the body whose runs carry no formatting and no link,
    whose text is not blank and whose alignment asks for no environment, is
    generated as its escaped text and read back as one paragraph with one
    plain run that holds the whole text of the paragraph; the division into
    runs and the style name are not kept. *)
Theorem plain_paragraph_roundtrip (w : DocxGenerator.World) (p : Paragraph)
  (doc : DocxGenerator.Document) :
  forallb is_plain (par_runs p) = true ->
  Py.strip (par_text p) <> [] ->
  Py.startswith $"Heading" (par_style p) = false ->
  flows_left (par_alignment p) = true ->
  LatexGenerator._process_paragraph p = escape_latex (par_text p)
  /\ _process_block w (LatexGenerator._process_paragraph p) doc
     = doc ++ [Para (add_paragraph (par_text p) $"Normal")].
Proof.
  intros Hplain Htext Hstyle Halign.
  assert (Hgen : LatexGenerator._process_paragraph p = escape_latex (par_text p)).
  { unfold LatexGenerator._process_paragraph.
    destruct (Py.strip (par_text p)); [congruence|].
    rewrite Hstyle, ParagraphFacts.render_plain_runs by exact Hplain.
    unfold par_text.
    destruct (par_alignment p) as [[| | |]|]; try discriminate; reflexivity. }
  split; [exact Hgen|].
  rewrite Hgen. apply ParagraphFacts.escaped_block_parse, Htext.
Qed.

Lemma plain_paragraph_roundtrip_witness :
  let p := {| par_style := $"Normal";
              par_runs := [plain_run $"Profit & loss: "; plain_run $"50% {net}"];
              par_alignment := Some LEFT |} in
  forallb is_plain (par_runs p) = true
  /\ Py.strip (par_text p) <> []
  /\ Py.startswith $"Heading" (par_style p) = false
  /\ flows_left (par_alignment p) = true
  /\ LatexGenerator._process_paragraph p = escape_latex (par_text p)
  /\ _process_block no_files (LatexGenerator._process_paragraph p) []
     = [] ++ [Para (add_paragraph (par_text p) $"Normal")].
Proof.
  intros p. split; [reflexivity|]. split; [discriminate|].
  split; [reflexivity|]. split; [reflexivity|].
  apply (plain_paragraph_roundtrip no_files p []);
    [reflexivity | discriminate | reflexivity | reflexivity].
Defined.

Module RunFacts.

Import Re DocxGenerator ReFacts MarkerFacts RoundTripFacts ParagraphFacts.

Lemma block_markers_incl (p : str) : In p block_markers -> In p parser_markers.
Proof.
  unfold block_markers. cbn [In]. intros H.
  repeat (destruct H as [<-|H]; [in_markers|]). contradiction.
Qed.



(** A text without backslash holds no marker. *)
Lemma never_starts_no_backslash (p u : str) :
  forallb (fun c => negb (Ascii.eqb c bsl)) u = true ->
  never_starts (bsl :: p) u = true.
Proof.
  induction u as [|c u IH]; intros H; [reflexivity|].
  cbn [forallb] in H. apply andb_prop in H as [Hc Hu].
  cbn [never_starts clash]. rewrite (IH Hu), andb_true_r.
  rewrite Ascii.eqb_sym. destruct (Ascii.eqb c bsl); [discriminate | reflexivity].
Qed.

Lemma search_at_start (r : regex) (s : str) (m : match_obj) :
  match_here r 0 s = Some m -> search r s = Some m.
Proof.
  intros H. unfold search. destruct s; cbn [search_from]; rewrite H; reflexivity.
Qed.



End RunFacts.



Module AlignedFacts.

Import Re DocxGenerator ReFacts MarkerFacts RoundTripFacts ParagraphFacts.

Lemma lstrip_app (s v : str) :
  Py.lstrip (s ++ v)
  = if forallb Py.isspace s then Py.lstrip v else Py.lstrip s ++ v.
Proof.
  induction s as [|a s IH]; [reflexivity|].
  cbn [app Py.lstrip forallb]. destruct (Py.isspace a); [exact IH | reflexivity].
Qed.

(** A line break before and after a text does not survive stripping. *)
Lemma strip_between_newlines (s : str) :
  Py.strip (nl :: s ++ [nl]) = Py.strip s.
Proof.
  unfold Py.strip. change (Py.lstrip (nl :: s ++ [nl])) with (Py.lstrip (s ++ [nl])).
  rewrite lstrip_app. destruct (forallb Py.isspace s) eqn:E.
  - rewrite (lstrip_spaces _ E). reflexivity.
  - rewrite rstrip_snoc. reflexivity.
Qed.

(** Escaped text between two parts in which no marker starts. *)
Lemma wrapped_unmarked_all (pre t post : str) :
  forallb (fun p => never_starts p pre) parser_markers = true ->
  forallb (fun p => never_starts p post) parser_markers = true ->
  forall p, In p parser_markers ->
  never_starts p (pre ++ escape_latex t ++ post) = true.
Proof.
  rewrite !forallb_forall. intros Hpre Hpost p Hp.
  apply never_starts_app; [apply Hpre, Hp|].
  apply never_starts_app; [|apply Hpost, Hp].
  apply escape_never, Hp.
Qed.

(** The generator's output for a paragraph of plain runs. *)
Lemma generate_plain (p : Paragraph) :
  forallb is_plain (par_runs p) = true ->
  Py.strip (par_text p) <> [] ->
  Py.startswith $"Heading" (par_style p) = false ->
  LatexGenerator._process_paragraph p
  = match par_alignment p with
    | Some CENTER =>
        $"\begin{center}" ++ [nl] ++ escape_latex (par_text p) ++ [nl]
        ++ $"\end{center}"
    | Some RIGHT =>
        $"\begin{flushright}" ++ [nl] ++ escape_latex (par_text p) ++ [nl]
        ++ $"\end{flushright}"
    | _ => escape_latex (par_text p)
    end.
Proof.
  intros Hplain Htext Hstyle. unfold LatexGenerator._process_paragraph.
  destruct (Py.strip (par_text p)); [congruence|].
  rewrite Hstyle, render_plain_runs by exact Hplain. reflexivity.
Qed.

End AlignedFacts.

(** X6.  A centred paragraph of plain runs with a text that is not blank is
    generated as a center environment and read back as a centred paragraph
    with one plain run: the text of the paragraph without the white space
    at its two ends. *)
Theorem centered_paragraph_roundtrip (w : DocxGenerator.World) (p : Paragraph)
  (doc : DocxGenerator.Document) :
  forallb is_plain (par_runs p) = true ->
  Py.strip (par_text p) <> [] ->
  Py.startswith $"Heading" (par_style p) = false ->
  par_alignment p = Some CENTER ->
  _process_block w (LatexGenerator._process_paragraph p) doc
  = doc ++ [Para (body_paragraph [plain_run (Py.strip (par_text p))]
                    (Some CENTER))].
Proof.
  intros Hplain Htext Hstyle Halign.
  rewrite AlignedFacts.generate_plain by assumption. rewrite Halign.
  set (t := par_text p) in *.
  set (inner := [nl] ++ escape_latex t ++ [nl]).
  assert (Hin : forall q, In q parser_markers -> never_starts q inner = true).
  { intros q Hq. unfold inner.
    apply (AlignedFacts.wrapped_unmarked_all [nl] t [nl]);
      [reflexivity | reflexivity | exact Hq]. }
  assert (Hall : forall q, In q block_markers -> q <> $"\begin{center}" ->
                 Py.contains q ($"\begin{center}" ++ inner ++ $"\end{center}")
                 = false).
  { intros q Hq Hne.
    assert (Hq' : In q parser_markers) by apply RunFacts.block_markers_incl, Hq.
    apply MarkerFacts.never_starts_contains;
      [apply MarkerFacts.markers_nonempty, Hq'|].
    apply MarkerFacts.never_starts_app; [|apply MarkerFacts.never_starts_app].
    - unfold block_markers in Hq. cbn [In] in Hq.
      repeat (destruct Hq as [<-|Hq]; [first [reflexivity | congruence]|]).
      contradiction.
    - apply Hin, Hq'.
    - unfold block_markers in Hq. cbn [In] in Hq.
      repeat (destruct Hq as [<-|Hq]; [first [reflexivity | congruence]|]).
      contradiction. }
  change ($"\begin{center}" ++ [nl] ++ escape_latex t ++ [nl] ++ $"\end{center}")
    with ($"\begin{center}" ++ (nl :: escape_latex t ++ [nl] ++ $"\end{center}")).
  assert (Hblock : $"\begin{center}" ++ (nl :: escape_latex t ++ [nl] ++ $"\end{center}")
                   = $"\begin{center}" ++ inner ++ $"\end{center}").
  { unfold inner. rewrite <- !app_assoc. reflexivity. }
  rewrite Hblock. unfold _process_block.
  change (Py.startswith $"\section" ($"\begin{center}" ++ inner ++ $"\end{center}"))
    with false.
  change (Py.startswith $"\subsection" ($"\begin{center}" ++ inner ++ $"\end{center}"))
    with false.
  change (Py.startswith $"\subsubsection" ($"\begin{center}" ++ inner ++ $"\end{center}"))
    with false.
  cbv iota.
  rewrite (Hall $"\begin{table}"), (Hall $"\begin{figure}"),
    (Hall $"\begin{itemize}"), (Hall $"\begin{enumerate}");
    try (unfold block_markers; cbn [In];
         repeat (first [left; reflexivity | right]));
    try discriminate.
  cbn [orb].
  assert (Hc : Py.contains $"\begin{center}"
                 ($"\begin{center}" ++ inner ++ $"\end{center}") = true).
  { destruct ($"\begin{center}" ++ inner ++ $"\end{center}") eqn:E;
      cbn [Py.contains]; rewrite <- E, startswith_refl_app; reflexivity. }
  rewrite Hc. unfold _process_centered_text.
  assert (Hm : exists m,
             match_here center_re 0 ($"\begin{center}" ++ inner ++ $"\end{center}")
             = Some m /\ group m 1 = inner).
  { unfold match_here, center_re. rewrite ReFacts.run_Cat, ReFacts.run_Lits.
    rewrite startswith_refl_app, skipn_app, Nat.sub_diag, skipn_all.
    cbn [skipn app]. rewrite EnvelopeFacts.run_group_lazy_until.
    rewrite MarkerFacts.find_app_never
      by (apply Hin; ParagraphFacts.in_markers).
    change (Py.find $"\end{center}" $"\end{center}") with (Some 0).
    cbn [option_map]. eexists. split; [reflexivity|].
    unfold group. cbn [m_groups lookup Nat.eqb].
    rewrite Nat.add_0_r, firstn_app, Nat.sub_diag, firstn_all.
    cbn [firstn]. apply app_nil_r. }
  destruct Hm as (m & Hm & Hg).
  rewrite (RunFacts.search_at_start _ _ _ Hm), Hg.
  unfold inner. change ([nl] ++ escape_latex t ++ [nl])
    with (nl :: escape_latex t ++ [nl]).
  rewrite AlignedFacts.strip_between_newlines, RoundTripFacts.strip_escape,
    unescape_escape.
  unfold add_paragraph, body_paragraph. cbn [par_style par_runs].
  destruct (Py.strip t); [congruence | reflexivity].
Qed.

Lemma centered_paragraph_roundtrip_witness :
  let p := {| par_style := $"Normal";
              par_runs := [plain_run $"  Annual report "; plain_run $"2024 & 2025 "];
              par_alignment := Some CENTER |} in
  forallb is_plain (par_runs p) = true
  /\ Py.strip (par_text p) <> []
  /\ Py.startswith $"Heading" (par_style p) = false
  /\ par_alignment p = Some CENTER
  /\ _process_block no_files (LatexGenerator._process_paragraph p) []
     = [] ++ [Para (body_paragraph [plain_run (Py.strip (par_text p))]
                      (Some CENTER))].
Proof.
  intros p. split; [reflexivity|]. split; [discriminate|].
  split; [reflexivity|]. split; [reflexivity|].
  apply (centered_paragraph_roundtrip no_files p []);
    [reflexivity | discriminate | reflexivity | reflexivity].
Defined.

(** X7.  A right-aligned paragraph of plain runs is generated as a
    flushright environment, which the parser does not know: it is read
    back as a paragraph without alignment whose one plain run holds the
    begin and end commands of the environment around the text. *)
Theorem right_aligned_paragraph_read_literally (w : DocxGenerator.World)
  (p : Paragraph) (doc : DocxGenerator.Document) :
  forallb is_plain (par_runs p) = true ->
  Py.strip (par_text p) <> [] ->
  Py.startswith $"Heading" (par_style p) = false ->
  par_alignment p = Some RIGHT ->
  _process_block w (LatexGenerator._process_paragraph p) doc
  = doc ++ [Para (body_paragraph
                    [plain_run ($"\begin{flushright}" ++ [nl] ++ par_text p
                                ++ [nl] ++ $"\end{flushright}")] None)].
Proof.
  intros Hplain Htext Hstyle Halign.
  rewrite AlignedFacts.generate_plain by assumption. rewrite Halign.
  set (t := par_text p) in *.
  pose (pre := $"\begin{flushright}" ++ [nl]).
  pose (post := [nl] ++ $"\end{flushright}").
  assert (Hb : $"\begin{flushright}" ++ [nl] ++ escape_latex t ++ [nl]
               ++ $"\end{flushright}"
               = pre ++ escape_latex t ++ post).
  { unfold pre, post. rewrite <- !app_assoc. reflexivity. }
  rewrite Hb.
  assert (Hun : forall q, In q parser_markers ->
                never_starts q (pre ++ escape_latex t ++ post) = true).
  { apply AlignedFacts.wrapped_unmarked_all; reflexivity. }
  rewrite ParagraphFacts.process_block_unmarked by exact Hun.
  unfold _process_paragraph.
  assert (Hs : Py.strip (pre ++ escape_latex t ++ post) <> []).
  { apply (RoundTripFacts.strip_has_nonspace "\"%char); [|reflexivity].
    apply in_or_app. left. left. reflexivity. }
  destruct (Py.strip (pre ++ escape_latex t ++ post)); [congruence|].
  unfold _parse_inline_formatting.
  cbn [par_runs par_style par_alignment add_paragraph].
  change (inline_loop (S (length (pre ++ escape_latex t ++ post)))
            (pre ++ escape_latex t ++ post) 0 [])
    with (inline_runs (pre ++ escape_latex t ++ post)).
  rewrite ParagraphFacts.inline_runs_unmarked by exact Hun.
  rewrite unescape_latex_unfold.
  rewrite (unescape_loop_app LATEX_SPECIAL_CHARS pre) by reflexivity.
  rewrite ParagraphFacts.unescape_escape_app.
  change (unescape_loop LATEX_SPECIAL_CHARS pre) with pre.
  change (unescape_loop LATEX_SPECIAL_CHARS post) with post.
  unfold pre, post. rewrite <- !app_assoc. reflexivity.
Qed.

Lemma right_aligned_paragraph_read_literally_witness :
  let p := {| par_style := $"Normal";
              par_runs := [plain_run $"Signed, "; plain_run $"A & B"];
              par_alignment := Some RIGHT |} in
  forallb is_plain (par_runs p) = true
  /\ Py.strip (par_text p) <> []
  /\ Py.startswith $"Heading" (par_style p) = false
  /\ par_alignment p = Some RIGHT
  /\ _process_block no_files (LatexGenerator._process_paragraph p) []
     = [] ++ [Para (body_paragraph
                      [plain_run ($"\begin{flushright}" ++ [nl] ++ par_text p
                                  ++ [nl] ++ $"\end{flushright}")] None)].
Proof.
  intros p. split; [reflexivity|]. split; [discriminate|].
  split; [reflexivity|]. split; [reflexivity|].
  apply (right_aligned_paragraph_read_literally no_files p []);
    [reflexivity | discriminate | reflexivity | reflexivity].
Defined.



(** ** Blocks *)

Module BlockFacts.

Import Re DocxGenerator ReFacts MarkerFacts RoundTripFacts.

Lemma lstrip_idem (s : str) : Py.lstrip (Py.lstrip s) = Py.lstrip s.
Proof.
  induction s as [|a s IH]; [reflexivity|].
  cbn [Py.lstrip]. destruct (Py.isspace a) eqn:E; [exact IH|].
  cbn [Py.lstrip]. rewrite E. reflexivity.
Qed.

Lemma rstrip_idem (s : str) : Py.rstrip (Py.rstrip s) = Py.rstrip s.
Proof.
  unfold Py.rstrip. rewrite rev_involutive, lstrip_idem. reflexivity.
Qed.

(** [rstrip] cuts white space off the end. *)
Lemma rstrip_prefix (s : str) :
  exists tail, s = Py.rstrip s ++ tail /\ forallb Py.isspace tail = true.
Proof.
  induction s as [|c s IH] using rev_ind.
  - exists []. split; reflexivity.
  - rewrite rstrip_snoc. destruct (Py.isspace c) eqn:E.
    + destruct IH as (tail & Hs & Ht). exists (tail ++ [c]). split.
      * rewrite app_assoc, <- Hs. reflexivity.
      * rewrite forallb_app, Ht. cbn [forallb]. rewrite E. reflexivity.
    + exists []. split; [symmetry; apply app_nil_r | reflexivity].
Qed.

Lemma lstrip_suffix (s : str) :
  exists head, s = head ++ Py.lstrip s /\ forallb Py.isspace head = true.
Proof.
  induction s as [|c s IH].
  - exists []. split; reflexivity.
  - cbn [Py.lstrip]. destruct (Py.isspace c) eqn:E.
    + destruct IH as (head & Hs & Hh). exists (c :: head). split.
      * cbn [app]. rewrite <- Hs. reflexivity.
      * cbn [forallb]. rewrite E, Hh. reflexivity.
    + exists []. split; reflexivity.
Qed.

Lemma lstrip_rstrip (s : str) :
  Py.lstrip (Py.rstrip (Py.lstrip s)) = Py.rstrip (Py.lstrip s).
Proof.
  destruct (Py.lstrip s) as [|c x] eqn:E; [reflexivity|].
  apply lstrip_head in E.
  destruct (rstrip_prefix (c :: x)) as (tail & Hs & _).
  destruct (Py.rstrip (c :: x)) as [|d y]; [reflexivity|].
  cbn [app] in Hs. inversion Hs; subst d.
  cbn [Py.lstrip]. rewrite E. reflexivity.
Qed.

(** Stripping twice is stripping once. *)
Lemma strip_idem (s : str) : Py.strip (Py.strip s) = Py.strip s.
Proof.
  unfold Py.strip. rewrite lstrip_rstrip, rstrip_idem. reflexivity.
Qed.

(** A text that stripping leaves alone starts and ends with a character
    that is no white space. *)
Lemma strip_fixed_lstrip (b : str) : Py.strip b = b -> Py.lstrip b = b.
Proof.
  intros H. destruct (lstrip_suffix b) as (head & Hb & _).
  destruct (rstrip_prefix (Py.lstrip b)) as (tail & Hl & _).
  unfold Py.strip in H.
  assert (Hlen : length head = 0).
  { apply (f_equal (@length ascii)) in Hb, Hl.
    rewrite length_app in Hb, Hl. rewrite H in Hl. lia. }
  destruct head; [|discriminate]. symmetry. exact Hb.
Qed.

Lemma strip_fixed_rstrip (b : str) : Py.strip b = b -> Py.rstrip b = b.
Proof.
  intros H. pose proof (strip_fixed_lstrip b H) as Hl.
  unfold Py.strip in H. rewrite Hl in H. exact H.
Qed.

Lemma strip_fixed_head (c : ascii) (b : str) :
  Py.strip (c :: b) = c :: b -> Py.isspace c = false.
Proof.
  intros H. apply strip_fixed_lstrip in H. apply lstrip_head in H. exact H.
Qed.

Lemma strip_fixed_last (b : str) (c : ascii) :
  Py.strip (b ++ [c]) = b ++ [c] -> Py.isspace c = false.
Proof.
  intros H. apply strip_fixed_rstrip in H. rewrite rstrip_snoc in H.
  destruct (Py.isspace c); [|reflexivity].
  destruct (rstrip_prefix b) as (tail & Hb & _).
  apply (f_equal (@length ascii)) in H, Hb.
  rewrite length_app in H, Hb. simpl in H. lia.
Qed.

(** The pieces of [re.split] are made of characters of the subject. *)
Lemma split_loop_incl (r : regex) (fuel : nat) :
  forall s piece c, In piece (split_loop fuel r s) -> In c piece -> In c s.
Proof.
  induction fuel as [|f IH]; intros s piece c Hp Hc; cbn [split_loop] in Hp.
  - destruct Hp as [<-|[]]. exact Hc.
  - destruct (search r s) as [m|].
    + destruct Hp as [<-|Hp].
      * rewrite <- (firstn_skipn (m_start m) s). apply in_or_app. left. exact Hc.
      * rewrite <- (firstn_skipn (m_end m) s). apply in_or_app. right.
        apply (IH _ piece c Hp Hc).
    + destruct Hp as [<-|[]]. exact Hc.
Qed.

(** The body is made of characters of the input. *)
Lemma document_body_incl (content : str) (c : ascii) :
  In c (document_body content) -> In c content.
Proof.
  unfold document_body, search.
  pose proof (EnvelopeFacts.search_document content 0) as H.
  destruct (search_from document_re 0 content) as [m|]; [|tauto].
  cbn [option_map] in H.
  destruct (Py.find begin_marker content) as [i|]; [|discriminate].
  destruct (Py.find end_marker _) as [j|]; [|discriminate].
  inversion H as [Hg]. rewrite Hg. intros Hin.
  rewrite <- (firstn_skipn (i + length begin_marker) content).
  apply in_or_app. right.
  rewrite <- (firstn_skipn j (skipn _ content)).
  apply in_or_app. left. exact Hin.
Qed.

Lemma split_into_blocks_In (content block : str) :
  In block (_split_into_blocks content) ->
  exists piece, In piece (Re.split blank_re content)
                /\ Py.strip piece <> [] /\ block = Py.strip piece.
Proof.
  unfold _split_into_blocks. intros H.
  apply in_map_iff in H as (piece & Hb & Hp).
  apply filter_In in Hp as [Hp Hne].
  exists piece. split; [exact Hp|]. split; [|symmetry; exact Hb].
  destruct (Py.strip piece); [discriminate | discriminate].
Qed.

End BlockFacts.

(** X9.  Every block [_split_into_blocks] returns is non-empty and has no
    white space at either end. *)
Theorem blocks_nonempty_and_stripped (content : str) :
  Forall (fun block => block <> [] /\ Py.strip block = block)
    (DocxGenerator._split_into_blocks content).
Proof.
  apply Forall_forall. intros block H.
  apply BlockFacts.split_into_blocks_In in H as (piece & _ & Hne & ->).
  split; [exact Hne | apply BlockFacts.strip_idem].
Qed.

(** X10.  An input of white space only (the empty input too) has no block,
    and parsing it adds nothing to the document. *)
Theorem blank_input_adds_nothing (w : DocxGenerator.World) (content : str)
  (doc : DocxGenerator.Document) :
  forallb Py.isspace content = true ->
  DocxGenerator._split_into_blocks content = []
  /\ DocxGenerator._parse_latex w content doc = doc.
Proof.
  intros H.
  assert (Hblank : forall s, forallb Py.isspace s = true ->
                   DocxGenerator._split_into_blocks s = []).
  { intros s Hs.
    destruct (DocxGenerator._split_into_blocks s) as [|block blocks] eqn:E;
      [reflexivity|].
    assert (Hin : In block (DocxGenerator._split_into_blocks s))
      by (rewrite E; left; reflexivity).
    apply BlockFacts.split_into_blocks_In in Hin as (piece & Hp & Hne & _).
    exfalso. apply Hne. apply RoundTripFacts.strip_spaces.
    apply forallb_forall. intros c Hc.
    rewrite forallb_forall in Hs. apply Hs.
    apply (BlockFacts.split_loop_incl _ _ _ _ _ Hp Hc). }
  split; [apply Hblank, H|].
  unfold DocxGenerator._parse_latex. rewrite Hblank; [reflexivity|].
  apply forallb_forall. intros c Hc. rewrite forallb_forall in H.
  apply H, BlockFacts.document_body_incl, Hc.
Qed.

Lemma blank_input_adds_nothing_witness :
  forallb Py.isspace [nl; " "%char; nl; nl; " "%char] = true
  /\ DocxGenerator._split_into_blocks [nl; " "%char; nl; nl; " "%char] = []
  /\ DocxGenerator._parse_latex no_files [nl; " "%char; nl; nl; " "%char]
       [DocxGenerator.Heading $"Kept" 1]
     = [DocxGenerator.Heading $"Kept" 1].
Proof.
  split; [reflexivity|].
  apply (blank_input_adds_nothing no_files [nl; " "%char; nl; nl; " "%char]
           [DocxGenerator.Heading $"Kept" 1]).
  reflexivity.
Defined.

Module SplitFacts.

Import Re DocxGenerator ReFacts MarkerFacts RoundTripFacts BlockFacts.

(** The rest of the blank-line pattern after its first line break. *)
Lemma run_blank_tail_cons (c : ascii) (y : str) (cs : caps)
  (k : str -> caps -> outcome) :
  run (Cat (Star Space) (Lit nl)) (c :: y) cs k
  = if Py.isspace c
    then match run (Cat (Star Space) (Lit nl)) y cs k with
         | Some res => Some res
         | None => if Ascii.eqb nl c then k y cs else None
         end
    else None.
Proof.
  rewrite !run_Cat. unfold Space. rewrite run_Star_Chr_cons.
  unfold Lit at 2 3. rewrite !run_Chr. cbn [head_is skipn].
  destruct (Py.isspace c) eqn:E; [reflexivity|].
  destruct (Ascii.eqb_spec nl c) as [<-|]; [discriminate | reflexivity].
Qed.

Lemma run_blank_tail_nil (cs : caps) (k : str -> caps -> outcome) :
  run (Cat (Star Space) (Lit nl)) [] cs k = None.
Proof. reflexivity. Qed.

(** What follows a text that holds a character that is no white space
    cannot turn a failure of the pattern inside the text into a match. *)
Lemma run_blank_tail_app (y v : str) (cs : caps) :
  forallb Py.isspace y = false ->
  run (Cat (Star Space) (Lit nl)) y cs (fun rest cs' => Some (rest, cs')) = None ->
  run (Cat (Star Space) (Lit nl)) (y ++ v) cs (fun rest cs' => Some (rest, cs'))
  = None.
Proof.
  induction y as [|c y IH]; intros Hy H; [discriminate|].
  cbn [app]. rewrite run_blank_tail_cons in *.
  cbn [forallb] in Hy. destruct (Py.isspace c); [|reflexivity].
  cbn [andb] in Hy.
  destruct (run (Cat (Star Space) (Lit nl)) y cs _) eqn:E; [discriminate|].
  rewrite (IH Hy eq_refl).
  destruct (Ascii.eqb nl c); [discriminate | reflexivity].
Qed.

Lemma match_here_blank (pos : nat) (s : str) :
  match_here blank_re pos s
  = match s with
    | c :: y =>
        if Ascii.eqb nl c then
          match run (Cat (Star Space) (Lit nl)) y []
                  (fun rest cs => Some (rest, cs)) with
          | Some (rest, cs) =>
              Some {| m_start := pos; m_end := pos + (length s - length rest);
                      m_groups := cs |}
          | None => None
          end
        else None
    | [] => None
    end.
Proof.
  unfold match_here, blank_re. rewrite run_Cat. unfold Lit at 1.
  rewrite run_Chr. destruct s as [|c y]; [reflexivity|].
  cbn [head_is skipn]. destruct (Ascii.eqb nl c); reflexivity.
Qed.

(** Inside a block without blank line that ends with a character that is
    no white space, the pattern fails whatever follows the block. *)
Lemma match_here_blank_inside (b : str) (d : ascii) (v : str) (pos j : nat) :
  Py.isspace d = false ->
  match_here blank_re pos (skipn j (b ++ [d])) = None ->
  j <= length b ->
  match_here blank_re pos (skipn j (b ++ [d]) ++ v) = None.
Proof.
  intros Hd H Hj. rewrite match_here_blank in *.
  assert (Hs : skipn j (b ++ [d]) = skipn j b ++ [d]).
  { rewrite skipn_app. replace (j - length b) with 0 by lia. reflexivity. }
  rewrite Hs in *.
  destruct (skipn j b) as [|c y]; cbn [app] in *.
  - destruct (Ascii.eqb_spec nl d) as [<-|]; [discriminate | reflexivity].
  - destruct (Ascii.eqb nl c); [|reflexivity].
    rewrite run_blank_tail_app; [reflexivity | |].
    + rewrite forallb_app. cbn [forallb]. rewrite Hd.
      rewrite andb_false_r. reflexivity.
    + destruct (run (Cat (Star Space) (Lit nl)) (y ++ [d]) [] _) as [[? ?]|];
        [discriminate | reflexivity].
Qed.

(** Two line breaks before the end or before a character that is no white
    space are one match of the pattern. *)
Lemma match_here_blank_gap (pos : nat) (rest : str) :
  match rest with c :: _ => Py.isspace c = false | [] => True end ->
  match_here blank_re pos (nl :: nl :: rest)
  = Some {| m_start := pos; m_end := pos + 2; m_groups := [] |}.
Proof.
  intros Hr. rewrite match_here_blank. rewrite Ascii.eqb_refl.
  rewrite run_blank_tail_cons. change (Py.isspace nl) with true. cbv iota.
  assert (Hn : run (Cat (Star Space) (Lit nl)) rest []
                 (fun rest cs => Some (rest, cs)) = None).
  { destruct rest as [|c rest]; [reflexivity|].
    rewrite run_blank_tail_cons, Hr. reflexivity. }
  rewrite Hn, Ascii.eqb_refl. f_equal. f_equal.
  cbn [length]. lia.
Qed.

(** The first blank line after a block. *)
Lemma search_blank_after_block (b : str) (rest : str) :
  b <> [] -> Py.strip b = b -> search blank_re b = None ->
  match rest with c :: _ => Py.isspace c = false | [] => True end ->
  search blank_re (b ++ nl :: nl :: rest)
  = Some {| m_start := length b; m_end := length b + 2; m_groups := [] |}.
Proof.
  intros Hne Hstrip Hnone Hrest.
  destruct (exists_last Hne) as (x & d & ->).
  pose proof (strip_fixed_last _ _ Hstrip) as Hd.
  assert (Hbefore : forall j, j < length (x ++ [d]) ->
            match_here blank_re j (skipn j ((x ++ [d]) ++ nl :: nl :: rest)) = None).
  { intros j Hj. rewrite length_app in Hj. simpl in Hj.
    rewrite skipn_app. replace (j - length (x ++ [d])) with 0
      by (rewrite length_app; simpl; lia).
    cbn [skipn]. apply match_here_blank_inside; [exact Hd | | lia].
    pose proof (InlineFacts.search_from_none _ _ 0 Hnone j) as Hn.
    cbn [Nat.add] in Hn. apply Hn. rewrite length_app. simpl. lia. }
  assert (Hat : match_here blank_re (length (x ++ [d]))
                  (skipn (length (x ++ [d])) ((x ++ [d]) ++ nl :: nl :: rest))
                = Some {| m_start := length (x ++ [d]);
                          m_end := length (x ++ [d]) + 2; m_groups := [] |}).
  { rewrite skipn_app, Nat.sub_diag, skipn_all. cbn [skipn app].
    apply match_here_blank_gap, Hrest. }
  destruct (search blank_re ((x ++ [d]) ++ nl :: nl :: rest)) as [m|] eqn:E.
  - apply InlineFacts.search_lowest in E as (Hlen & Hm & Hlow).
    destruct (Nat.lt_trichotomy (m_start m) (length (x ++ [d]))) as [Hlt|[Heq|Hgt]].
    + rewrite (Hbefore _ Hlt) in Hm. discriminate.
    + rewrite Heq in Hm. rewrite Hat in Hm. inversion Hm. reflexivity.
    + rewrite (Hlow _ Hgt) in Hat. discriminate.
  - pose proof (InlineFacts.search_from_none _ _ 0 E (length (x ++ [d]))) as Hn.
    cbn [Nat.add] in Hn. rewrite Hat in Hn. discriminate Hn.
    rewrite (length_app (x ++ [d])). lia.
Qed.

End SplitFacts.

Module JoinFacts.

Import Re DocxGenerator ReFacts MarkerFacts RoundTripFacts BlockFacts SplitFacts.

Lemma join_cons2 (sep b b2 : str) (bs : list str) :
  Py.join sep (b :: b2 :: bs) = b ++ sep ++ Py.join sep (b2 :: bs).
Proof. reflexivity. Qed.

Lemma join_head (sep : str) (c : ascii) (x : str) (bs : list str) :
  exists y, Py.join sep ((c :: x) :: bs) = c :: y.
Proof. destruct bs; eexists; reflexivity. Qed.

(** What follows a blank line in the joined text starts with a character
    that is no white space. *)
Lemma join_starts (bs : list str) :
  Forall (fun b => b <> [] /\ whole_block b) bs ->
  match Py.join [nl; nl] bs with
  | c :: _ => Py.isspace c = false
  | [] => True
  end.
Proof.
  intros H. destruct bs as [|b bs]; [exact I|].
  inversion H as [|? ? [Hne [Hs _]] _]; subst.
  destruct b as [|c x]; [congruence|].
  destruct bs; cbn [Py.join app]; apply (strip_fixed_head _ _ Hs).
Qed.

(** Splitting the joined blocks, with or without a blank line behind the
    last of them. *)
Lemma split_loop_join (tail : list str) (ending : str) :
  (tail = [] /\ ending = [] \/ tail = [[]] /\ ending = [nl; nl]) ->
  forall blocks fuel,
  Forall (fun b => b <> [] /\ whole_block b) blocks ->
  blocks <> [] -> length blocks <= fuel ->
  split_loop fuel blank_re (Py.join [nl; nl] blocks ++ ending) = blocks ++ tail.
Proof.
  intros Hend. induction blocks as [|b blocks IH]; intros fuel Hall Hne Hf;
    [congruence|].
  inversion Hall as [|? ? [Hb [Hs Hn]] Hall']; subst.
  destruct fuel as [|f]; [simpl in Hf; lia|].
  destruct blocks as [|b2 blocks].
  - cbn [Py.join split_loop app].
    destruct Hend as [[-> ->]|[-> ->]].
    + rewrite app_nil_r, Hn. reflexivity.
    + cbn [app]. rewrite (search_blank_after_block b [] Hb Hs Hn I).
      cbn [m_start m_end].
      rewrite firstn_app, Nat.sub_diag, firstn_all. cbn [firstn].
      rewrite app_nil_r.
      replace (length b + 2) with (length (b ++ [nl; nl]))
        by (rewrite length_app; reflexivity).
      change (b ++ [nl; nl]) with (b ++ [nl; nl] ++ []) at 2.
      rewrite app_assoc, skipn_app, Nat.sub_diag, skipn_all.
      destruct f; reflexivity.
  - rewrite join_cons2, <- !app_assoc. cbn [app split_loop].
    pose proof (join_starts (b2 :: blocks) Hall') as Hstart.
    assert (Hstart' : match Py.join [nl; nl] (b2 :: blocks) ++ ending with
                      | c :: _ => Py.isspace c = false
                      | [] => True
                      end).
    { destruct (Py.join [nl; nl] (b2 :: blocks)) eqn:Ej; [|exact Hstart].
      inversion Hall' as [|? ? [Hb2 _] _]; subst.
      destruct b2 as [|c x]; [congruence|].
      destruct (join_head [nl; nl] c x blocks) as (y & Hy).
      rewrite Hy in Ej. discriminate. }
    unfold str in *.
    rewrite (search_blank_after_block b _ Hb Hs Hn Hstart').
    cbn [m_start m_end].
    rewrite firstn_app, Nat.sub_diag, firstn_all. cbn [firstn].
    rewrite app_nil_r.
    replace (length b + 2) with (length (b ++ [nl; nl]))
      by (rewrite length_app; reflexivity).
    change (b ++ nl :: nl :: Py.join [nl; nl] (b2 :: blocks) ++ ending)
      with (b ++ [nl; nl] ++ Py.join [nl; nl] (b2 :: blocks) ++ ending).
    rewrite app_assoc, skipn_app, Nat.sub_diag, skipn_all. cbn [skipn app].
    rewrite IH; [reflexivity | exact Hall' | discriminate |].
    simpl in Hf. simpl. lia.
Qed.

Lemma join_length (blocks : list str) :
  Forall (fun b => b <> [] /\ whole_block b) blocks ->
  length blocks <= length (Py.join [nl; nl] blocks).
Proof.
  induction blocks as [|b blocks IH]; intros H; [apply le_n|].
  inversion H as [|? ? [Hb _] H']; subst.
  destruct b as [|c x]; [congruence|].
  destruct blocks as [|b2 blocks]; [simpl; lia|].
  rewrite join_cons2, !length_app. specialize (IH H'). simpl in *. lia.
Qed.

(** Stripping and filtering leave whole blocks alone, and drop the empty
    pieces around them. *)
Lemma keep_whole_blocks (blocks : list str) :
  Forall (fun b => b <> [] /\ whole_block b) blocks ->
  map Py.strip
    (filter (fun block => match Py.strip block with [] => false | _ => true end)
       blocks)
  = blocks.
Proof.
  induction blocks as [|b blocks IH]; intros H; [reflexivity|].
  inversion H as [|? ? [Hb [Hs _]] H']; subst.
  cbn [filter]. rewrite Hs. destruct b as [|c x]; [congruence|].
  cbn [map]. rewrite Hs, (IH H'). reflexivity.
Qed.

Lemma keep_whole_blocks_padded (blocks : list str) :
  Forall (fun b => b <> [] /\ whole_block b) blocks ->
  map Py.strip
    (filter (fun block => match Py.strip block with [] => false | _ => true end)
       ([] :: blocks ++ [[]]))
  = blocks.
Proof.
  intros H. change ([] :: blocks ++ [[]]) with ([[]] ++ blocks ++ [[]]).
  rewrite !filter_app, !map_app, (keep_whole_blocks _ H).
  cbn. apply app_nil_r.
Qed.

Lemma split_into_blocks_join (blocks : list str) :
  Forall (fun b => b <> [] /\ whole_block b) blocks ->
  _split_into_blocks (Py.join [nl; nl] blocks) = blocks.
Proof.
  intros H. destruct blocks as [|b blocks]; [reflexivity|].
  unfold _split_into_blocks, Re.split.
  pose proof (split_loop_join [] [] (or_introl (conj eq_refl eq_refl))
                (b :: blocks) (S (length (Py.join [nl; nl] (b :: blocks)))) H
                ltac:(discriminate)) as Hs.
  rewrite !app_nil_r in Hs. rewrite Hs; [apply keep_whole_blocks, H|].
  pose proof (join_length _ H). unfold str in *. lia.
Qed.

(** The same with a blank line before the first and after the last block,
    as the envelope of a generated document leaves them. *)
Lemma split_loop_S (f : nat) (r : regex) (s : str) :
  split_loop (S f) r s
  = match search r s with
    | None => [s]
    | Some m => firstn (m_start m) s :: split_loop f r (skipn (m_end m) s)
    end.
Proof. reflexivity. Qed.

Lemma split_into_blocks_join_wrapped (blocks : list str) :
  Forall (fun b => b <> [] /\ whole_block b) blocks ->
  _split_into_blocks ([nl; nl] ++ Py.join [nl; nl] blocks ++ [nl; nl]) = blocks.
Proof.
  intros H. destruct blocks as [|b blocks]; [reflexivity|].
  assert (Hstart : match Py.join [nl; nl] (b :: blocks) ++ [nl; nl] with
                   | c :: _ => Py.isspace c = false
                   | [] => True
                   end).
  { pose proof (join_starts (b :: blocks) H) as Hj.
    inversion H as [|? ? [Hb _] _]; subst.
    destruct b as [|c x]; [congruence|].
    destruct (join_head [nl; nl] c x blocks) as (y & Hy).
    unfold str in *. rewrite Hy in *. exact Hj. }
  pose proof (split_loop_join [[]] [nl; nl] (or_intror (conj eq_refl eq_refl))
                (b :: blocks)
                (length ([nl; nl] ++ Py.join [nl; nl] (b :: blocks) ++ [nl; nl]))
                H ltac:(discriminate)) as Hs.
  pose proof (join_length _ H) as Hl.
  unfold _split_into_blocks, Re.split. rewrite split_loop_S.
  unfold str in *.
  remember (Py.join [nl; nl] (b :: blocks)) as joined eqn:Ej.
  change ([nl; nl] ++ joined ++ [nl; nl]) with (nl :: nl :: joined ++ [nl; nl])
    in *.
  rewrite (RunFacts.search_at_start _ _ _ (match_here_blank_gap 0 _ Hstart)).
  cbn [m_start m_end firstn Nat.add skipn].
  rewrite Hs.
  - apply (keep_whole_blocks_padded (b :: blocks) H).
  - cbn [length] in *. rewrite (length_app joined). lia.
Qed.

Lemma body_lines_nonempty (body : list LatexGenerator.BodyElement) :
  Forall (fun b => b <> []) (LatexGenerator.body_lines body).
Proof.
  induction body as [|[paragraph|table] body IH]; cbn [LatexGenerator.body_lines];
    [constructor| |].
  - destruct (LatexGenerator._process_paragraph paragraph); [exact IH|].
    constructor; [discriminate | exact IH].
  - destruct (LatexGenerator._process_table table); [exact IH|].
    constructor; [discriminate | exact IH].
Qed.

Lemma whole_blocks_nonempty (blocks : list str) :
  Forall (fun b => b <> []) blocks -> Forall whole_block blocks ->
  Forall (fun b => b <> [] /\ whole_block b) blocks.
Proof.
  intros H1 H2. rewrite Forall_forall in *. intros b Hb.
  split; [apply H1, Hb | apply H2, Hb].
Qed.

End JoinFacts.

(** X11.  Segmentation undoes the joining of the body: when every block the
    generator writes for the elements of a body has no white space at
    either end and no blank line inside, splitting the generated body gives
    exactly these blocks, in order. *)
Theorem body_blocks_roundtrip (body : list LatexGenerator.BodyElement) :
  Forall whole_block (LatexGenerator.body_lines body) ->
  DocxGenerator._split_into_blocks (LatexGenerator._process_document_body body)
  = LatexGenerator.body_lines body.
Proof.
  intros H. unfold LatexGenerator._process_document_body.
  apply JoinFacts.split_into_blocks_join.
  apply JoinFacts.whole_blocks_nonempty; [|exact H].
  apply JoinFacts.body_lines_nonempty.
Qed.

Lemma body_blocks_roundtrip_witness :
  let body :=
    [ LatexGenerator.CT_P (heading_paragraph 1 $"Results");
      LatexGenerator.CT_P (body_paragraph [] None);
      LatexGenerator.CT_P
        (body_paragraph [plain_run $"Profit & loss, "; styled_run DocxGenerator.bold $"net"]
           None);
      LatexGenerator.CT_Tbl [[$"a"; $"b"]; [$"c"; $"d"]] ] in
  Forall whole_block (LatexGenerator.body_lines body)
  /\ DocxGenerator._split_into_blocks (LatexGenerator._process_document_body body)
     = LatexGenerator.body_lines body.
Proof.
  intros body.
  assert (H : Forall whole_block (LatexGenerator.body_lines body)).
  { unfold whole_block. vm_compute. repeat constructor. }
  split; [exact H | apply (body_blocks_roundtrip body H)].
Defined.

(** ** The generated body and the envelope markers *)

Module GeneratedFacts.

Import MarkerFacts ParagraphFacts.

Lemma never_starts_concat (p : str) (xs : list str) :
  Forall (fun x => never_starts p x = true) xs ->
  never_starts p (concat xs) = true.
Proof.
  induction 1 as [|x xs Hx _ IH]; [reflexivity|].
  cbn [concat]. apply never_starts_app; assumption.
Qed.

Lemma never_starts_join (p sep : str) (xs : list str) :
  never_starts p sep = true ->
  Forall (fun x => never_starts p x = true) xs ->
  never_starts p (Py.join sep xs) = true.
Proof.
  intros Hsep. induction 1 as [|x xs Hx Hxs IH]; [reflexivity|].
  destruct xs as [|y xs]; [exact Hx|].
  change (Py.join sep (x :: y :: xs)) with (x ++ sep ++ Py.join sep (y :: xs)).
  repeat apply never_starts_app; assumption.
Qed.

(** Lines of which each one is safe together with the separator after it. *)
Lemma never_starts_join_lines (p sep : str) (xs ys : list str) :
  ys <> [] ->
  Forall (fun x => never_starts p (x ++ sep) = true) xs ->
  never_starts p (Py.join sep ys) = true ->
  never_starts p (Py.join sep (xs ++ ys)) = true.
Proof.
  unfold str in *.
  intros Hys Hxs Hj. induction Hxs as [|x xs Hx _ IH]; [exact Hj|].
  cbn [app]. destruct (xs ++ ys) as [|z zs] eqn:E.
  - destruct xs; [exfalso; apply Hys, E | discriminate E].
  - change (Py.join sep (x :: z :: zs)) with (x ++ sep ++ Py.join sep (z :: zs)).
    rewrite (app_assoc x sep). apply never_starts_app; assumption.
Qed.

Ltac envelope_marker H :=
  destruct H as [<-|[<-|[]]].

Ltac piecewise :=
  repeat apply never_starts_app;
  first [ assumption
        | apply escape_never; unfold begin_marker, end_marker; in_markers
        | vm_compute; reflexivity ].

Lemma render_run_never (m : str) (run : Run) :
  In m [begin_marker; end_marker] ->
  never_starts m (run_url run) = true ->
  never_starts m (LatexGenerator.render_run run) = true.
Proof.
  intros Hm. unfold run_url, LatexGenerator.render_run.
  destruct (run_bold run), (run_italic run), (run_underline run),
    (run_hyperlink run) as [[[[|c url]|]]|]; intros Hu;
    envelope_marker Hm; piecewise.
Qed.

Lemma process_heading_never (m : str) (paragraph : Paragraph) :
  In m [begin_marker; end_marker] ->
  never_starts m (LatexGenerator._process_heading paragraph) = true.
Proof.
  intros Hm. unfold LatexGenerator._process_heading.
  repeat match goal with |- context [if ?b then _ else _] => destruct b end;
    envelope_marker Hm; piecewise.
Qed.

Lemma process_paragraph_never (m : str) (paragraph : Paragraph) :
  In m [begin_marker; end_marker] ->
  forallb (fun run => never_starts m (run_url run)) (par_runs paragraph) = true ->
  never_starts m (LatexGenerator._process_paragraph paragraph) = true.
Proof.
  intros Hm Hu. unfold LatexGenerator._process_paragraph.
  destruct (Py.strip (par_text paragraph)); [reflexivity|].
  destruct (Py.startswith _ _); [apply process_heading_never, Hm|].
  assert (Hruns : never_starts m
            (concat (map LatexGenerator.render_run (par_runs paragraph))) = true).
  { apply never_starts_concat, Forall_map, Forall_forall. intros run Hr.
    rewrite forallb_forall in Hu. apply render_run_never; [exact Hm|].
    apply Hu, Hr. }
  destruct (par_alignment paragraph) as [[| | |]|]; try exact Hruns;
    envelope_marker Hm; piecewise.
Qed.

Lemma row_lines_never (m : str) (row : list str) (i : nat) :
  In m [begin_marker; end_marker] ->
  Forall (fun x => never_starts m (x ++ [nl]) = true)
    (LatexGenerator.row_lines i row).
Proof.
  intros Hm. unfold LatexGenerator.row_lines.
  assert (Hrow : never_starts m
            ((Py.join $" & " (map (fun cell => escape_latex (Py.strip cell)) row)
              ++ $" \\") ++ [nl]) = true).
  { rewrite <- app_assoc. apply never_starts_app.
    - apply never_starts_join; [envelope_marker Hm; vm_compute; reflexivity|].
      apply Forall_map, Forall_forall. intros cell _.
      envelope_marker Hm; piecewise.
    - envelope_marker Hm; vm_compute; reflexivity. }
  destruct (i =? 0); repeat constructor; try exact Hrow;
    envelope_marker Hm; vm_compute; reflexivity.
Qed.

Lemma rows_lines_never (m : str) (rows : list (list str)) :
  In m [begin_marker; end_marker] ->
  forall i,
  Forall (fun x => never_starts m (x ++ [nl]) = true)
    (LatexGenerator.rows_lines i rows).
Proof.
  intros Hm. induction rows as [|row rows IH]; intros i; [constructor|].
  cbn [LatexGenerator.rows_lines]. apply Forall_app. split.
  - apply row_lines_never, Hm.
  - apply IH.
Qed.

Lemma process_table_never (m : str) (table : Table) :
  In m [begin_marker; end_marker] ->
  never_starts m (LatexGenerator._process_table table) = true.
Proof.
  intros Hm. unfold LatexGenerator._process_table.
  destruct table as [|row0 rows]; [reflexivity|].
  cbv zeta. rewrite app_assoc.
  apply never_starts_join_lines; [discriminate| |].
  - apply Forall_app. split; [|apply rows_lines_never, Hm].
    repeat constructor; try (envelope_marker Hm; vm_compute; reflexivity).
    rewrite <- !app_assoc. apply never_starts_app;
      [envelope_marker Hm; vm_compute; reflexivity|].
    apply never_starts_app; [|envelope_marker Hm; vm_compute; reflexivity].
    apply never_starts_join; [envelope_marker Hm; vm_compute; reflexivity|].
    apply Forall_forall. intros x Hx. apply repeat_spec in Hx. subst x.
    envelope_marker Hm; vm_compute; reflexivity.
  - envelope_marker Hm; vm_compute; reflexivity.
Qed.

Lemma body_lines_never (m : str) (body : list LatexGenerator.BodyElement) :
  In m [begin_marker; end_marker] ->
  links_clear m body = true ->
  Forall (fun x => never_starts m x = true) (LatexGenerator.body_lines body).
Proof.
  intros Hm. induction body as [|[paragraph|table] body IH]; intros Hl;
    cbn [LatexGenerator.body_lines]; [constructor| |];
    cbn [links_clear forallb] in Hl; apply andb_prop in Hl as [Hp Hb].
  - pose proof (process_paragraph_never m paragraph Hm Hp) as H.
    destruct (LatexGenerator._process_paragraph paragraph);
      [apply IH, Hb | constructor; [exact H | apply IH, Hb]].
  - pose proof (process_table_never m table Hm) as H.
    destruct (LatexGenerator._process_table table);
      [apply IH, Hb | constructor; [exact H | apply IH, Hb]].
Qed.

Lemma document_body_never (m : str) (body : list LatexGenerator.BodyElement) :
  In m [begin_marker; end_marker] ->
  links_clear m body = true ->
  never_starts m (LatexGenerator._process_document_body body) = true.
Proof.
  intros Hm Hl. unfold LatexGenerator._process_document_body.
  apply never_starts_join; [|apply body_lines_never; assumption].
  envelope_marker Hm; vm_compute; reflexivity.
Qed.

End GeneratedFacts.

(** X12.  The text generated for the body of a document holds neither the
    begin marker nor the end marker of the document environment, unless a
    link target brings one: the markers the parser cuts the body at can only
    come from the envelope. *)
Theorem generated_body_has_no_envelope_marker (m : str)
  (body : list LatexGenerator.BodyElement) :
  In m [begin_marker; end_marker] ->
  links_clear m body = true ->
  Py.contains m (LatexGenerator._process_document_body body) = false
  /\ Py.find m (LatexGenerator._process_document_body body) = None.
Proof.
  intros Hm Hl.
  pose proof (GeneratedFacts.document_body_never m body Hm Hl) as H.
  split.
  - apply MarkerFacts.never_starts_contains; [|exact H].
    destruct Hm as [<-|[<-|[]]]; discriminate.
  - rewrite <- (app_nil_r (LatexGenerator._process_document_body body)).
    rewrite (MarkerFacts.find_app_never _ _ [] H).
    destruct Hm as [<-|[<-|[]]]; reflexivity.
Qed.

Lemma generated_body_has_no_envelope_marker_witness :
  let body :=
    [ LatexGenerator.CT_P (heading_paragraph 1 $"Costs");
      LatexGenerator.CT_P
        (body_paragraph
           [ plain_run $"see ";
             {| run_text := $"the \end{document} page"; run_bold := true;
                run_italic := false; run_underline := false;
                run_hyperlink := Some {| address := Some $"http://a.org/x" |} |} ]
           (Some CENTER));
      LatexGenerator.CT_Tbl [[ $"a"; $"b & c" ]; [ $"1"; $"2" ]] ] in
  In end_marker [begin_marker; end_marker]
  /\ links_clear end_marker body = true
  /\ Py.contains end_marker (LatexGenerator._process_document_body body) = false
  /\ Py.find end_marker (LatexGenerator._process_document_body body) = None.
Proof.
  intros body.
  assert (Hm : In end_marker [begin_marker; end_marker])
    by (right; left; reflexivity).
  assert (Hl : links_clear end_marker body = true) by reflexivity.
  split; [exact Hm|]. split; [exact Hl|].
  apply (generated_body_has_no_envelope_marker end_marker body Hm Hl).
Defined.

(** ** The envelope of a generated document *)

Module DocumentFacts.

Import Re DocxGenerator MarkerFacts GeneratedFacts.

Lemma document_body_cut (content : str) :
  document_body content = body_between_markers content.
Proof.
  unfold document_body, body_between_markers, search.
  pose proof (EnvelopeFacts.search_document content 0) as H.
  destruct (search_from document_re 0 content) as [m|];
    destruct (Py.find begin_marker content) as [i|]; cbn [option_map] in H;
    try discriminate; try reflexivity.
  - destruct (Py.find end_marker _); [|discriminate]. congruence.
  - destruct (Py.find end_marker _); [discriminate | reflexivity].
Qed.

Lemma find_at_start (p rest : str) : Py.find p (p ++ rest) = Some 0.
Proof.
  destruct p as [|a p]; [destruct rest; reflexivity|].
  cbn [app Py.find].
  change (a :: p ++ rest) with ((a :: p) ++ rest).
  rewrite startswith_refl_app. reflexivity.
Qed.

Lemma skipn_length_app (u v : str) : skipn (length u) (u ++ v) = v.
Proof. induction u as [|c u IH]; [reflexivity | exact IH]. Qed.

Lemma firstn_length_app (u v : str) : firstn (length u) (u ++ v) = u.
Proof.
  induction u as [|c u IH]; [reflexivity|].
  cbn [length app firstn]. f_equal. exact IH.
Qed.

(** The body between a prefix without begin marker and a suffix that starts
    with the end marker. *)
Lemma body_between (prefix inner rest : str) :
  never_starts begin_marker prefix = true ->
  never_starts end_marker inner = true ->
  body_between_markers
    (prefix ++ begin_marker ++ inner ++ end_marker ++ rest) = inner.
Proof.
  intros Hp Hi. unfold body_between_markers.
  rewrite (find_app_never _ _ _ Hp), find_at_start. cbn [option_map].
  rewrite Nat.add_0_r.
  assert (Hskip : skipn (length prefix + length begin_marker)
                    (prefix ++ begin_marker ++ inner ++ end_marker ++ rest)
                  = inner ++ end_marker ++ rest).
  { rewrite (app_assoc prefix), <- length_app. apply skipn_length_app. }
  cbv zeta. rewrite Hskip.
  rewrite (find_app_never _ _ _ Hi), find_at_start. cbn [option_map].
  rewrite Nat.add_0_r. apply firstn_length_app.
Qed.

Lemma preamble_lines_never (options : ConversionOptions) :
  settings_clear options = true ->
  Forall (fun x => never_starts begin_marker x = true)
    (Preamble.preamble_lines options).
Proof.
  unfold settings_clear. intros H.
  apply andb_prop in H as [H Hc]. apply andb_prop in H as [Hm Hb].
  unfold Preamble.preamble_lines. cbv zeta.
  repeat (apply Forall_app; split).
  - constructor; [|constructor].
    destruct (font_size options), (document_type options);
      vm_compute; reflexivity.
  - destruct (unicode_support options); repeat constructor.
  - constructor; [|constructor].
    repeat apply never_starts_app;
      first [assumption | vm_compute; reflexivity].
  - destruct (preserve_images options); repeat constructor.
  - repeat constructor.
  - destruct (line_spacing options); repeat constructor.
  - destruct (extract_bibliography options); repeat constructor.
    repeat apply never_starts_app;
      first [assumption | vm_compute; reflexivity].
  - apply Forall_map, Forall_forall. intros package Hp.
    rewrite forallb_forall in Hc.
    repeat apply never_starts_app;
      first [apply Hc, Hp | vm_compute; reflexivity].
Qed.

Lemma preamble_never (options : ConversionOptions) :
  settings_clear options = true ->
  never_starts begin_marker (Preamble._generate_preamble options) = true.
Proof.
  intros H. unfold Preamble._generate_preamble.
  apply never_starts_app; [|reflexivity].
  apply never_starts_join; [reflexivity | apply preamble_lines_never, H].
Qed.

(** The generated document, as a prefix, the two markers and the body. *)
Lemma generate_latex_standalone (options : ConversionOptions)
  (body : list LatexGenerator.BodyElement) :
  standalone_document options = true ->
  Preamble._generate_latex options body
  = (if include_preamble options
     then Preamble._generate_preamble options ++ [nl] else [])
    ++ begin_marker
    ++ ([nl; nl] ++ LatexGenerator._process_document_body body ++ [nl; nl])
    ++ end_marker ++ [].
Proof.
  intros Hs. unfold Preamble._generate_latex. rewrite Hs, andb_true_r.
  destruct (include_preamble options); cbn [app Py.join];
    rewrite <- ?app_assoc; reflexivity.
Qed.

Lemma generate_latex_fragment (options : ConversionOptions)
  (body : list LatexGenerator.BodyElement) :
  standalone_document options = false ->
  Preamble._generate_latex options body
  = LatexGenerator._process_document_body body.
Proof.
  intros Hs. unfold Preamble._generate_latex. rewrite Hs, andb_false_r.
  reflexivity.
Qed.

Lemma padded_never (inner : str) :
  never_starts end_marker inner = true ->
  never_starts end_marker ([nl; nl] ++ inner ++ [nl; nl]) = true.
Proof.
  intros H. repeat apply never_starts_app; first [assumption | reflexivity].
Qed.

(** What the parser takes as the body of a generated document. *)
Lemma generated_document_body (options : ConversionOptions)
  (body : list LatexGenerator.BodyElement) :
  settings_clear options = true ->
  links_clear begin_marker body = true ->
  links_clear end_marker body = true ->
  document_body (Preamble._generate_latex options body)
  = if standalone_document options
    then [nl; nl] ++ LatexGenerator._process_document_body body ++ [nl; nl]
    else LatexGenerator._process_document_body body.
Proof.
  intros Ho Hb He. rewrite document_body_cut.
  destruct (standalone_document options) eqn:Hs.
  - rewrite generate_latex_standalone by exact Hs.
    apply body_between.
    + destruct (include_preamble options); [|reflexivity].
      apply never_starts_app; [apply preamble_never, Ho | reflexivity].
    + apply padded_never, document_body_never; [right; left; reflexivity|exact He].
  - rewrite generate_latex_fragment by exact Hs.
    unfold body_between_markers.
    rewrite <- (app_nil_r (LatexGenerator._process_document_body body)) at 1.
    rewrite (find_app_never begin_marker _ []).
    + reflexivity.
    + apply document_body_never; [left; reflexivity | exact Hb].
Qed.

(** The blocks of a generated document. *)
Lemma generated_blocks (options : ConversionOptions)
  (body : list LatexGenerator.BodyElement) :
  settings_clear options = true ->
  links_clear begin_marker body = true ->
  links_clear end_marker body = true ->
  Forall whole_block (LatexGenerator.body_lines body) ->
  _split_into_blocks (document_body (Preamble._generate_latex options body))
  = LatexGenerator.body_lines body.
Proof.
  intros Ho Hb He Hw.
  rewrite generated_document_body by assumption.
  pose proof (JoinFacts.whole_blocks_nonempty _
                (JoinFacts.body_lines_nonempty body) Hw) as H.
  unfold LatexGenerator._process_document_body.
  destruct (standalone_document options).
  - apply JoinFacts.split_into_blocks_join_wrapped, H.
  - apply JoinFacts.split_into_blocks_join, H.
Qed.

End DocumentFacts.

(** X13.  The parser finds the generated body again: from a document
    generated with the envelope it takes the text of the body between two
    pairs of line breaks, and from a fragment generated without envelope the
    whole text, whatever the preamble holds, as long as no free text of the
    settings and no link target brings a marker of the document
    environment. *)
Theorem generated_envelope_roundtrip (options : ConversionOptions)
  (body : list LatexGenerator.BodyElement) :
  settings_clear options = true ->
  links_clear begin_marker body = true ->
  links_clear end_marker body = true ->
  DocxGenerator.document_body (Preamble._generate_latex options body)
  = if standalone_document options
    then [nl; nl] ++ LatexGenerator._process_document_body body ++ [nl; nl]
    else LatexGenerator._process_document_body body.
Proof.
  intros Ho Hb He. apply DocumentFacts.generated_document_body; assumption.
Qed.

Lemma generated_envelope_roundtrip_witness :
  let options :=
    {| document_type := REPORT; font_size := PT_11; line_spacing := DOUBLE;
       page_margins := $"margin=1in"; extract_bibliography := true;
       bibliography_style := $"alpha"; unicode_support := true;
       preserve_images := false; custom_packages := [ $"xcolor"; $"tikz" ];
       include_preamble := true; standalone_document := true |} in
  let body :=
    [ LatexGenerator.CT_P (heading_paragraph 2 $"Costs & risks");
      LatexGenerator.CT_P (body_paragraph [plain_run $"50% of it"] None);
      LatexGenerator.CT_Tbl [[ $"a"; $"b" ]; [ $"1"; $"2" ]] ] in
  settings_clear options = true
  /\ links_clear begin_marker body = true
  /\ links_clear end_marker body = true
  /\ DocxGenerator.document_body (Preamble._generate_latex options body)
     = if standalone_document options
       then [nl; nl] ++ LatexGenerator._process_document_body body ++ [nl; nl]
       else LatexGenerator._process_document_body body.
Proof.
  intros options body.
  assert (Ho : settings_clear options = true) by reflexivity.
  assert (Hb : links_clear begin_marker body = true) by reflexivity.
  assert (He : links_clear end_marker body = true) by reflexivity.
  split; [exact Ho|]. split; [exact Hb|]. split; [exact He|].
  apply (generated_envelope_roundtrip options body Ho Hb He).
Defined.

(** X14.  The blocks the parser works on are the pieces the generator wrote
    for the elements of the body, one block per piece and in their order,
    with or without envelope and preamble, when every piece has no white
    space at its ends and no blank line inside. *)
Theorem generated_document_blocks (options : ConversionOptions)
  (body : list LatexGenerator.BodyElement) :
  settings_clear options = true ->
  links_clear begin_marker body = true ->
  links_clear end_marker body = true ->
  Forall whole_block (LatexGenerator.body_lines body) ->
  DocxGenerator._split_into_blocks
    (DocxGenerator.document_body (Preamble._generate_latex options body))
  = LatexGenerator.body_lines body.
Proof.
  intros Ho Hb He Hw. apply DocumentFacts.generated_blocks; assumption.
Qed.

Lemma generated_document_blocks_witness :
  let options := default_options in
  let body :=
    [ LatexGenerator.CT_P (heading_paragraph 1 $"Costs & risks");
      LatexGenerator.CT_P (body_paragraph [] None);
      LatexGenerator.CT_P
        (body_paragraph [plain_run $"50% of "; styled_run DocxGenerator.bold $"it"]
           (Some CENTER));
      LatexGenerator.CT_Tbl [[ $"a"; $"b" ]; [ $"1"; $"2" ]] ] in
  settings_clear options = true
  /\ links_clear begin_marker body = true
  /\ links_clear end_marker body = true
  /\ Forall whole_block (LatexGenerator.body_lines body)
  /\ DocxGenerator._split_into_blocks
       (DocxGenerator.document_body (Preamble._generate_latex options body))
     = LatexGenerator.body_lines body.
Proof.
  intros options body.
  assert (Ho : settings_clear options = true) by reflexivity.
  assert (Hb : links_clear begin_marker body = true) by reflexivity.
  assert (He : links_clear end_marker body = true) by reflexivity.
  assert (Hw : Forall whole_block (LatexGenerator.body_lines body)).
  { unfold whole_block. vm_compute. repeat constructor. }
  split; [exact Ho|]. split; [exact Hb|]. split; [exact He|].
  split; [exact Hw|].
  apply (generated_document_blocks options body Ho Hb He Hw).
Defined.

(** ** A document of plain paragraphs *)

Module PlainFacts.

Import Re DocxGenerator ReFacts MarkerFacts RoundTripFacts ParagraphFacts
  SplitFacts.

(** The escape sequence of a character that is no white space holds no
    white space. *)
Lemma escape_char_nonspace (c : ascii) :
  Py.isspace c = false ->
  forallb (fun d => negb (Py.isspace d)) (escape_latex [c]) = true.
Proof.
  destruct c as [[] [] [] [] [] [] [] []]; vm_compute;
    first [reflexivity | discriminate].
Qed.

Lemma escape_space (c : ascii) :
  Py.isspace c = true -> escape_latex [c] = [c].
Proof.
  destruct c as [[] [] [] [] [] [] [] []]; vm_compute;
    first [reflexivity | discriminate].
Qed.

Lemma match_here_blank_pos (pos pos' : nat) (s : str) :
  match_here blank_re pos s = None -> match_here blank_re pos' s = None.
Proof.
  rewrite !match_here_blank. destruct s as [|c y]; [reflexivity|].
  destruct (Ascii.eqb nl c); [|reflexivity].
  destruct (run _ y [] _) as [[? ?]|]; [discriminate | reflexivity].
Qed.

Lemma search_from_blank_pos (s : str) :
  forall pos pos',
  search_from blank_re pos s = None -> search_from blank_re pos' s = None.
Proof.
  induction s as [|c s IH]; intros pos pos' H; cbn [search_from] in *.
  - destruct (match_here blank_re pos []) eqn:E; [discriminate|].
    rewrite (match_here_blank_pos pos pos' _ E). reflexivity.
  - destruct (match_here blank_re pos (c :: s)) eqn:E; [discriminate|].
    rewrite (match_here_blank_pos pos pos' _ E). apply (IH (S pos)), H.
Qed.

(** The rest of the pattern fails on the escaped text where it fails on the
    text. *)
Lemma run_blank_tail_escape (y : str) :
  run (Cat (Star Space) (Lit nl)) y [] (fun rest cs => Some (rest, cs)) = None ->
  run (Cat (Star Space) (Lit nl)) (escape_latex y) []
    (fun rest cs => Some (rest, cs)) = None.
Proof.
  induction y as [|c y IH]; intros H; [exact H|].
  rewrite escape_latex_cons. rewrite run_blank_tail_cons in H.
  destruct (Py.isspace c) eqn:Ec.
  - rewrite (escape_space c Ec). cbn [app]. rewrite run_blank_tail_cons, Ec.
    destruct (run _ y [] _) eqn:Ey; [discriminate|].
    rewrite (IH eq_refl).
    destruct (Ascii.eqb nl c); [discriminate | reflexivity].
  - pose proof (escape_char_nonspace c Ec) as Hu.
    pose proof (HeadingFacts.escape_char_nonempty c) as Hne.
    destruct (escape_latex [c]) as [|d u]; [congruence|].
    cbn [app]. rewrite run_blank_tail_cons.
    cbn [forallb] in Hu. apply andb_prop in Hu as [Hd _].
    destruct (Py.isspace d); [discriminate | reflexivity].
Qed.

Lemma search_blank_nonspace_app (u s : str) :
  forallb (fun d => negb (Py.isspace d)) u = true ->
  forall pos,
  search_from blank_re pos s = None ->
  search_from blank_re pos (u ++ s) = None.
Proof.
  intros Hu. induction u as [|d u IH]; intros pos H; [exact H|].
  cbn [forallb] in Hu. apply andb_prop in Hu as [Hd Hu].
  cbn [app search_from]. rewrite match_here_blank.
  destruct (Ascii.eqb_spec nl d) as [<-|_];
    [vm_compute in Hd; discriminate Hd|].
  apply (IH Hu). apply (search_from_blank_pos s pos), H.
Qed.

(** Escaping brings no blank line. *)
Lemma search_blank_escape (t : str) :
  forall pos,
  search_from blank_re pos t = None ->
  search_from blank_re pos (escape_latex t) = None.
Proof.
  induction t as [|c t IH]; intros pos H; [exact H|].
  rewrite escape_latex_cons. cbn [search_from] in H.
  destruct (match_here blank_re pos (c :: t)) eqn:E; [discriminate|].
  destruct (Py.isspace c) eqn:Ec.
  - rewrite (escape_space c Ec). cbn [app search_from].
    rewrite match_here_blank in *.
    destruct (Ascii.eqb nl c).
    + destruct (run _ t [] _) as [[? ?]|] eqn:Et; [discriminate|].
      rewrite (run_blank_tail_escape t Et). apply IH, H.
    + apply IH, H.
  - apply search_blank_nonspace_app; [apply escape_char_nonspace, Ec|].
    apply (search_from_blank_pos _ (S pos)), IH, H.
Qed.

Lemma escaped_whole_block (t : str) :
  Py.strip t = t -> search blank_re t = None ->
  whole_block (escape_latex t).
Proof.
  intros Hs Hb. split.
  - rewrite strip_escape, Hs. reflexivity.
  - apply search_blank_escape, Hb.
Qed.

Lemma plain_run_url (m : str) (runs : list Run) :
  forallb is_plain runs = true ->
  forallb (fun run => never_starts m (run_url run)) runs = true.
Proof.
  induction runs as [|run runs IH]; intros H; [reflexivity|].
  cbn [forallb] in *. apply andb_prop in H as [Hr Hrs].
  rewrite (IH Hrs), andb_true_r. unfold is_plain in Hr. unfold run_url.
  destruct (run_hyperlink run); [|reflexivity].
  rewrite andb_false_r in Hr. discriminate.
Qed.





End PlainFacts.



(** ** Paragraphs the generator drops *)

Module DropFacts.

Import MarkerFacts RoundTripFacts.

(** A run is rendered as nothing only if it has no text. *)
Lemma render_run_nil (run : Run) :
  LatexGenerator.render_run run = [] -> run_text run = [].
Proof.
  unfold LatexGenerator.render_run.
  destruct (run_text run) as [|c t] eqn:Et; [reflexivity|].
  pose proof (HeadingFacts.escape_nonempty (c :: t)) as Hne.
  destruct (escape_latex (c :: t)) as [|d u]; [intros _; exfalso; apply Hne;
    [discriminate | reflexivity]|].
  destruct (run_bold run), (run_italic run), (run_underline run),
    (run_hyperlink run) as [[[[|a url]|]]|]; discriminate.
Qed.

Lemma render_runs_nil (runs : list Run) :
  concat (map LatexGenerator.render_run runs) = [] ->
  concat (map run_text runs) = [].
Proof.
  induction runs as [|run runs IH]; [reflexivity|].
  cbn [map concat]. intros H. apply app_eq_nil in H as [H1 H2].
  rewrite (render_run_nil run H1), (IH H2). reflexivity.
Qed.

Lemma process_heading_nonempty (paragraph : Paragraph) :
  LatexGenerator._process_heading paragraph <> [].
Proof.
  unfold LatexGenerator._process_heading.
  repeat match goal with |- context [if ?b then _ else _] => destruct b end;
    discriminate.
Qed.

End DropFacts.

(** ** The table the parser adds *)

Module GridFacts.

Import Re DocxGenerator.

Lemma split_scan_nonempty (sep : str) (s : str) :
  forall skip cur, 1 <= length (Py.split_scan sep skip cur s).
Proof.
  induction s as [|c s IH]; intros skip cur; cbn [Py.split_scan];
    [apply le_n|].
  destruct skip as [|k]; [|apply IH].
  destruct (Py.startswith sep (c :: s)); [cbn [length]; lia | apply IH].
Qed.

Lemma written_row_length (num_cols : nat) (cells : list str) :
  length (written_row num_cols cells) = num_cols.
Proof.
  unfold written_row. rewrite length_app, length_firstn, repeat_length. lia.
Qed.

End GridFacts.

(** X17.  What the table reader adds is settled by the first tabular
    environment of the block and the markup rows of its content that pass
    the filter, none of which is empty or starts with a backslash.  Without
    such an environment, or without such a row, the document stays as it
    is.  Otherwise it gains one table in the fixed style with one row for
    each of these markup rows, in their order; every row has as many cells
    as the first markup row has parts between ampersands, at least one, and
    holds the stripped and unescaped parts of its markup row from the left:
    longer markup rows are cut, shorter ones leave empty cells. *)
Theorem parsed_table_is_rectangular (block : str)
  (doc : DocxGenerator.Document) :
  match Re.search DocxGenerator.tabular_re block with
  | None => DocxGenerator._process_table block doc = doc
  | Some tabular_match =>
      let rows := DocxGenerator.table_rows (Re.group tabular_match 1) in
      Forall (fun row_text =>
                row_text <> [] /\ Py.startswith [bsl] row_text = false) rows
      /\ match rows with
         | [] => DocxGenerator._process_table block doc = doc
         | row0 :: _ =>
             let num_cols := length (Py.split $"&" row0) in
             let grid :=
               map (fun row_text => written_row num_cols (row_cells row_text))
                 rows in
             DocxGenerator._process_table block doc
             = doc ++ [DocxGenerator.Tbl $"Light Grid Accent 1" grid]
             /\ 1 <= num_cols
             /\ length grid = length rows
             /\ Forall (fun row => length row = num_cols) grid
         end
  end.
Proof.
  rewrite TableFacts.process_table_grid.
  destruct (Re.search DocxGenerator.tabular_re block) as [m|]; [|reflexivity].
  cbv zeta. split.
  - apply Forall_forall. intros row_text H. split.
    + unfold DocxGenerator.table_rows in H.
      apply filter_In in H as [H _]. apply in_map_iff in H as (r & <- & H).
      apply filter_In in H as [_ H].
      destruct (Py.strip r); [discriminate H | discriminate].
    + pose proof (TableFacts.table_rows_no_backslash (Re.group m 1)) as Hb.
      rewrite Forall_forall in Hb. exact (Hb _ H).
  - destruct (DocxGenerator.table_rows (Re.group m 1)) as [|row0 rows];
      [reflexivity|].
    split; [reflexivity|]. split; [apply GridFacts.split_scan_nonempty|].
    split; [apply length_map|].
    apply Forall_map, Forall_forall. intros row_text _.
    apply GridFacts.written_row_length.
Qed.

(** ** Generated tables read back *)

Module TableLossFacts.

Import Re DocxGenerator ReFacts MarkerFacts RoundTripFacts GeneratedFacts
  DocumentFacts.

Lemma join_lines (xs ys : list str) :
  ys <> [] ->
  Py.join [nl] (xs ++ ys)
  = concat (map (fun x => x ++ [nl]) xs) ++ Py.join [nl] ys.
Proof.
  unfold str in *. intros Hys. induction xs as [|x xs IH]; [reflexivity|].
  cbn [app map concat]. destruct (xs ++ ys) as [|z zs] eqn:E.
  - destruct xs; [exfalso; apply Hys, E | discriminate E].
  - change (Py.join [nl] (x :: z :: zs)) with (x ++ [nl] ++ Py.join [nl] (z :: zs)).
    rewrite IH, <- !app_assoc. reflexivity.
Qed.

(** The generated table, as one text. *)
Lemma generated_table_text (row0 : list str) (rows : list (list str)) :
  LatexGenerator._process_table (row0 :: rows)
  = ($"\begin{table}[h]" ++ [nl] ++ $"\centering" ++ [nl])
    ++ tabular_begin
    ++ (Py.join $"|" (repeat $"l" (length row0)) ++ "}"%char
        :: table_content (row0 :: rows) ++ tabular_end ++ [nl] ++ $"\end{table}").
Proof.
  unfold LatexGenerator._process_table. cbv zeta.
  rewrite app_assoc, join_lines by discriminate.
  rewrite map_app, concat_app. unfold table_content, tabular_begin, tabular_end.
  cbn [map concat Py.join]. rewrite <- !app_assoc. reflexivity.
Qed.

Lemma spec_brace_free (n : nat) :
  forallb not_brace (Py.join $"|" (repeat $"l" n)) = true.
Proof.
  induction n as [|n IH]; [reflexivity|].
  destruct n as [|n]; [reflexivity|].
  change (repeat $"l" (S (S n))) with ($"l" :: repeat $"l" (S n)).
  change (Py.join $"|" ($"l" :: repeat $"l" (S n)))
    with ($"l" ++ $"|" ++ Py.join $"|" (repeat $"l" (S n))).
  rewrite !forallb_app, IH. reflexivity.
Qed.

Lemma spec_nonempty (n : nat) :
  n <> 0 -> Py.join $"|" (repeat $"l" n) <> [].
Proof.
  destruct n as [|[|n]]; [congruence | discriminate | discriminate].
Qed.

(** [c+] for a character class, when the rest of the pattern cannot start
    with a character of the class. *)
Lemma run_Plus_maximal (p : ascii -> bool) (K : str -> caps -> outcome)
  (s : str) (cs : caps) :
  (forall c s' cs', p c = true -> K (c :: s') cs' = None) ->
  run (Plus (Chr p)) s cs K
  = match take_while p s with
    | [] => None
    | _ => K (drop_while p s) cs
    end.
Proof.
  intros HK. unfold Plus. rewrite run_Cat.
  destruct s as [|c s]; [reflexivity|].
  rewrite run_Chr. cbn [head_is skipn take_while drop_while].
  destruct (p c) eqn:E; [|reflexivity].
  apply run_Star_Chr_maximal. intros c0 s0 cs0 Hc. apply HK, Hc.
Qed.

Lemma run_braced_plain (r : regex) (t : str) (cs : caps)
  (k : str -> caps -> outcome) :
  run (Cat (Plus (NotOf ["}"%char])) (Cat (Lit "}") r)) t cs k
  = match braced t with
    | Some (_, rest) => run r rest cs k
    | None => None
    end.
Proof.
  rewrite run_Cat. change (NotOf ["}"%char]) with (Chr not_brace).
  rewrite run_Plus_maximal.
  - unfold braced. destruct (take_while not_brace t); [reflexivity|].
    destruct (drop_while not_brace t) as [|x rest]; [reflexivity|].
    rewrite run_Cat. unfold Lit. rewrite run_Chr. cbn [head_is skipn].
    destruct (Ascii.eqb "}" x); reflexivity.
  - intros c s' cs' Hc. rewrite run_Cat. apply not_brace_Lit, Hc.
Qed.

(** The group of the tabular pattern at one offset. *)
Lemma match_here_tabular (pos : nat) (s : str) :
  option_map (fun m => group m 1) (match_here tabular_re pos s)
  = if Py.startswith tabular_begin s then
      match braced (skipn (length tabular_begin) s) with
      | Some (_, rest) =>
          match Py.find tabular_end rest with
          | Some j => Some (firstn j rest)
          | None => None
          end
      | None => None
      end
    else None.
Proof.
  unfold match_here, tabular_re. rewrite run_Cat, run_Lits.
  fold tabular_begin tabular_end.
  destruct (Py.startswith tabular_begin s); [|reflexivity].
  rewrite run_braced_plain.
  destruct (braced _) as [[g rest]|]; [|reflexivity].
  rewrite EnvelopeFacts.run_group_lazy_until.
  destruct (Py.find tabular_end rest); reflexivity.
Qed.

Lemma match_here_tabular_miss (pos : nat) (s : str) :
  Py.startswith tabular_begin s = false -> match_here tabular_re pos s = None.
Proof.
  intros H. pose proof (match_here_tabular pos s) as Hm. rewrite H in Hm.
  destruct (match_here tabular_re pos s); [discriminate | reflexivity].
Qed.

(** The search passes over a part in which the pattern cannot start. *)
Lemma search_tabular_skip (u s : str) :
  never_starts tabular_begin u = true ->
  forall pos,
  search_from tabular_re pos (u ++ s)
  = search_from tabular_re (pos + length u) s.
Proof.
  intros H. induction u as [|c u IH]; intros pos.
  - cbn [app length]. rewrite Nat.add_0_r. reflexivity.
  - cbn [never_starts] in H. apply andb_prop in H as [Hc Hu].
    cbn [app search_from length].
    change (c :: u ++ s) with ((c :: u) ++ s).
    rewrite match_here_tabular_miss by (apply clash_startswith, Hc).
    rewrite (IH Hu). f_equal. lia.
Qed.

Lemma search_tabular_never (s : str) (pos : nat) :
  never_starts tabular_begin s = true -> search_from tabular_re pos s = None.
Proof.
  intros H. rewrite <- (app_nil_r s), (search_tabular_skip s [] H).
  cbn [search_from]. rewrite match_here_tabular_miss; reflexivity.
Qed.

Ltac tabular_marker H :=
  destruct H as [<-|[<-|[]]].

Ltac tabular_piecewise :=
  repeat apply never_starts_app;
  first [ assumption
        | apply escape_never; unfold tabular_begin, tabular_end, row_end;
          ParagraphFacts.in_markers
        | vm_compute; reflexivity ].

Lemma row_markup_never (m : str) (row : list str) :
  In m [tabular_begin; tabular_end; row_end] ->
  never_starts m (row_markup row) = true.
Proof.
  intros Hm. unfold row_markup. apply never_starts_join.
  - destruct Hm as [<-|[<-|[<-|[]]]]; vm_compute; reflexivity.
  - apply Forall_map, Forall_forall. intros cell _.
    destruct Hm as [<-|[<-|[<-|[]]]]; tabular_piecewise.
Qed.

Lemma rows_lines_S (rows : list (list str)) :
  forall i,
  LatexGenerator.rows_lines (S i) rows
  = map (fun row => row_markup row ++ $" \\") rows.
Proof.
  induction rows as [|row rows IH]; intros i; [reflexivity|].
  cbn [LatexGenerator.rows_lines map]. rewrite IH. reflexivity.
Qed.

Lemma table_content_unfold (row0 : list str) (rows : list (list str)) :
  table_content (row0 :: rows)
  = ([nl] ++ $"\toprule" ++ [nl] ++ row_markup row0 ++ $" ")
    ++ row_end ++ ([nl] ++ $"\midrule" ++ [nl]) ++ rows_tail rows.
Proof.
  unfold table_content, rows_tail. cbn [LatexGenerator.rows_lines].
  rewrite rows_lines_S. unfold LatexGenerator.row_lines. cbn [Nat.eqb].
  fold (row_markup row0). rewrite map_app, concat_app, map_map.
  cbn [map concat]. change ($" \\") with ($" " ++ row_end).
  rewrite <- !app_assoc. reflexivity.
Qed.

Lemma rows_tail_never (m : str) (rows : list (list str)) :
  In m [tabular_begin; tabular_end] ->
  never_starts m (rows_tail rows) = true.
Proof.
  intros Hm. unfold rows_tail. apply never_starts_app.
  - apply never_starts_concat, Forall_map, Forall_forall. intros row _.
    rewrite <- app_assoc. apply never_starts_app.
    + apply row_markup_never. destruct Hm as [<-|[<-|[]]]; cbn [In]; tauto.
    + tabular_marker Hm; vm_compute; reflexivity.
  - tabular_marker Hm; vm_compute; reflexivity.
Qed.

Lemma table_content_never (m : str) (table : Table) :
  In m [tabular_begin; tabular_end] ->
  table <> [] ->
  never_starts m (table_content table) = true.
Proof.
  intros Hm Ht. destruct table as [|row0 rows]; [congruence|].
  rewrite table_content_unfold.
  assert (Hr : never_starts m (row_markup row0) = true).
  { apply row_markup_never. destruct Hm as [<-|[<-|[]]]; cbn [In]; tauto. }
  assert (Hrs : never_starts m (rows_tail rows) = true)
    by (apply rows_tail_never, Hm).
  apply never_starts_app.
  - repeat apply never_starts_app;
      first [assumption | tabular_marker Hm; vm_compute; reflexivity].
  - rewrite app_assoc. apply never_starts_app; [|exact Hrs].
    tabular_marker Hm; vm_compute; reflexivity.
Qed.

Lemma search_from_cons (r : regex) (pos : nat) (c : ascii) (s : str) :
  search_from r pos (c :: s)
  = match match_here r pos (c :: s) with
    | Some m => Some m
    | None => search_from r (S pos) s
    end.
Proof. reflexivity. Qed.

(** The search at the start of a tabular environment with a column
    specification and an end. *)
Lemma search_tabular_hit (pos : nat) (t g rest : str) (j : nat) :
  braced t = Some (g, rest) -> Py.find tabular_end rest = Some j ->
  option_map (fun m => group m 1)
    (search_from tabular_re pos (tabular_begin ++ t))
  = Some (firstn j rest).
Proof.
  intros Hb Hf.
  pose proof (match_here_tabular pos (tabular_begin ++ t)) as Hm.
  rewrite startswith_refl_app, DocumentFacts.skipn_length_app, Hb, Hf in Hm.
  change (tabular_begin ++ t) with (bsl :: ($"begin{tabular}{" ++ t)) in *.
  rewrite search_from_cons.
  destruct (match_here tabular_re pos (bsl :: _)); [exact Hm | discriminate Hm].
Qed.

(** The search at the start of a tabular environment without column
    specification. *)
Lemma search_tabular_miss (pos : nat) (t : str) :
  braced t = None -> never_starts tabular_begin t = true ->
  search_from tabular_re pos (tabular_begin ++ t) = None.
Proof.
  intros Hb Hn.
  pose proof (match_here_tabular pos (tabular_begin ++ t)) as Hm.
  rewrite startswith_refl_app, DocumentFacts.skipn_length_app, Hb in Hm.
  change (tabular_begin ++ t) with (bsl :: ($"begin{tabular}{" ++ t)) in *.
  rewrite search_from_cons.
  destruct (match_here tabular_re pos (bsl :: _)); [discriminate Hm|].
  apply search_tabular_never, never_starts_app; [vm_compute; reflexivity | exact Hn].
Qed.

(** The tabular pattern finds the content of the generated table. *)
Lemma search_tabular_generated (row0 : list str) (rows : list (list str)) :
  option_map (fun m => group m 1)
    (search tabular_re (LatexGenerator._process_table (row0 :: rows)))
  = match row0 with
    | [] => None
    | _ :: _ => Some (table_content (row0 :: rows))
    end.
Proof.
  rewrite generated_table_text. unfold search.
  rewrite search_tabular_skip by (vm_compute; reflexivity).
  destruct row0 as [|cell row0].
  - (* no column: the class before the closing brace reads nothing *)
    cbn [length repeat Py.join app].
    rewrite search_tabular_miss; [reflexivity | reflexivity |].
    apply (never_starts_app tabular_begin $"}"
             (table_content ([] :: rows) ++ tabular_end ++ [nl] ++ $"\end{table}"));
      [vm_compute; reflexivity|].
    apply never_starts_app; [|vm_compute; reflexivity].
    apply table_content_never; [left; reflexivity | discriminate].
  - rewrite (search_tabular_hit _ _
               (Py.join $"|" (repeat $"l" (length (cell :: row0))))
               (table_content ((cell :: row0) :: rows)
                ++ tabular_end ++ [nl] ++ $"\end{table}")
               (length (table_content ((cell :: row0) :: rows)))).
    + rewrite DocumentFacts.firstn_length_app. reflexivity.
    + apply braced_app; [apply spec_nonempty; discriminate | apply spec_brace_free].
    + rewrite find_app_never
        by (apply table_content_never; [right; left; reflexivity | discriminate]).
      rewrite find_at_start. cbn [option_map]. rewrite Nat.add_0_r. reflexivity.
Qed.

(** [str.split] past an occurrence of the separator. *)
Lemma split_scan_skip (sep : str) (v rest : str) :
  forall cur,
  Py.split_scan sep (length v) cur (v ++ rest) = Py.split_scan sep 0 cur rest.
Proof.
  induction v as [|c v IH]; intros cur; cbn [length app Py.split_scan].
  - destruct rest; reflexivity.
  - apply IH.
Qed.

Lemma split_scan_never (sep u rest : str) :
  sep <> [] -> never_starts sep u = true ->
  forall cur,
  Py.split_scan sep 0 cur (u ++ sep ++ rest)
  = (rev cur ++ u) :: Py.split_scan sep 0 [] rest.
Proof.
  intros Hsep H. induction u as [|c u IH]; intros cur.
  - destruct sep as [|a sep]; [congruence|].
    cbn [app Py.split_scan].
    change (a :: sep ++ rest) with ((a :: sep) ++ rest).
    rewrite startswith_refl_app, app_nil_r. cbn [length Nat.sub].
    rewrite Nat.sub_0_r, split_scan_skip. reflexivity.
  - cbn [never_starts] in H. apply andb_prop in H as [Hc Hu].
    cbn [app Py.split_scan].
    change (c :: u ++ sep ++ rest) with ((c :: u) ++ sep ++ rest).
    rewrite (clash_startswith _ _ _ Hc), (IH Hu). cbn [rev].
    rewrite <- app_assoc. reflexivity.
Qed.

Lemma split_scan_last (sep u : str) :
  sep <> [] -> never_starts sep u = true ->
  forall cur, Py.split_scan sep 0 cur u = [rev cur ++ u].
Proof.
  intros Hsep H. induction u as [|c u IH]; intros cur.
  - cbn [Py.split_scan]. rewrite app_nil_r. reflexivity.
  - cbn [never_starts] in H. apply andb_prop in H as [Hc Hu].
    cbn [Py.split_scan].
    rewrite <- (app_nil_r (c :: u)) at 1.
    rewrite (clash_startswith _ _ _ Hc), (IH Hu). cbn [rev].
    rewrite <- app_assoc. reflexivity.
Qed.

Lemma rows_tail_cons (pre : str) (row : list str) (rows : list (list str)) :
  pre ++ rows_tail (row :: rows)
  = (pre ++ row_markup row ++ $" ") ++ row_end ++ [nl] ++ rows_tail rows.
Proof.
  unfold rows_tail. cbn [map concat].
  change ($" \\") with ($" " ++ row_end).
  rewrite <- !app_assoc. reflexivity.
Qed.

Lemma rows_tail_nil : rows_tail [] = $"\bottomrule" ++ [nl].
Proof. reflexivity. Qed.

(** The pieces between row terminators, from a row after the first on. *)
Lemma split_rows_tail (rows : list (list str)) :
  Py.split row_end ([nl] ++ rows_tail rows)
  = map (fun row => [nl] ++ row_markup row ++ $" ") rows
    ++ [[nl] ++ $"\bottomrule" ++ [nl]].
Proof.
  unfold Py.split. induction rows as [|row rows IH].
  - rewrite rows_tail_nil.
    apply (split_scan_last row_end); [discriminate | vm_compute; reflexivity].
  - rewrite rows_tail_cons, split_scan_never; [|discriminate|].
    + rewrite IH. reflexivity.
    + apply never_starts_app; [vm_compute; reflexivity|].
      apply never_starts_app; [|vm_compute; reflexivity].
      apply row_markup_never. cbn [In]. tauto.
Qed.

Lemma split_table_content (row0 : list str) (rows : list (list str)) :
  Py.split row_end (table_content (row0 :: rows))
  = ([nl] ++ $"\toprule" ++ [nl] ++ row_markup row0 ++ $" ")
    :: match rows with
       | [] => [[nl] ++ $"\midrule" ++ [nl] ++ $"\bottomrule" ++ [nl]]
       | row1 :: rows' =>
           ([nl] ++ $"\midrule" ++ [nl] ++ row_markup row1 ++ $" ")
           :: map (fun row => [nl] ++ row_markup row ++ $" ") rows'
           ++ [[nl] ++ $"\bottomrule" ++ [nl]]
       end.
Proof.
  rewrite table_content_unfold. unfold Py.split.
  rewrite split_scan_never; [|discriminate|].
  - cbn [rev]. rewrite app_nil_l. f_equal. destruct rows as [|row1 rows'].
    + rewrite rows_tail_nil.
      apply (split_scan_last row_end); [discriminate | vm_compute; reflexivity].
    + rewrite rows_tail_cons, split_scan_never; [|discriminate|].
      * cbn [rev]. rewrite app_nil_l, <- !app_assoc. f_equal.
        apply split_rows_tail.
      * rewrite <- !app_assoc.
        repeat (apply never_starts_app; [vm_compute; reflexivity|]).
        apply never_starts_app; [|vm_compute; reflexivity].
        apply row_markup_never. cbn [In]. tauto.
  - repeat (apply never_starts_app; [vm_compute; reflexivity|]).
    apply never_starts_app; [|vm_compute; reflexivity].
    apply row_markup_never. cbn [In]. tauto.
Qed.

(** Stripping keeps a first character that is no white space. *)
Lemma rstrip_head (d : ascii) (y : str) :
  Py.isspace d = false -> exists z, Py.rstrip (d :: y) = d :: z.
Proof.
  intros Hd. induction y as [|c y IH] using rev_ind.
  - exists []. pose proof (rstrip_snoc [] d) as H. rewrite Hd in H. exact H.
  - change (d :: y ++ [c]) with ((d :: y) ++ [c]). rewrite rstrip_snoc.
    destruct (Py.isspace c); [exact IH | eexists; reflexivity].
Qed.

Lemma strip_command (y : str) :
  exists z, Py.strip (nl :: bsl :: y) = bsl :: z.
Proof. apply (rstrip_head bsl y). reflexivity. Qed.

(** A line break before and a space after a text do not survive
    stripping. *)
Lemma strip_padded (s : str) : Py.strip ([nl] ++ s ++ $" ") = Py.strip s.
Proof.
  unfold Py.strip.
  change (Py.lstrip ([nl] ++ s ++ $" ")) with (Py.lstrip (s ++ $" ")).
  rewrite AlignedFacts.lstrip_app. destruct (forallb Py.isspace s) eqn:E.
  - rewrite (lstrip_spaces _ E). reflexivity.
  - apply (rstrip_snoc (Py.lstrip s) " "%char).
Qed.

Lemma kept_rows_cons (piece : str) (pieces : list str) :
  kept_rows (piece :: pieces)
  = match Py.strip piece with
    | [] => kept_rows pieces
    | c :: x =>
        if Py.startswith [bsl] (c :: x) then kept_rows pieces
        else (c :: x) :: kept_rows pieces
    end.
Proof.
  unfold kept_rows. cbn [filter].
  destruct (Py.strip piece) as [|c x] eqn:E; [reflexivity|].
  cbn [map filter]. rewrite E.
  destruct (Py.startswith [bsl] (c :: x)); reflexivity.
Qed.

Lemma kept_rows_command (piece : str) (pieces : list str) :
  (exists z, Py.strip piece = bsl :: z) ->
  kept_rows (piece :: pieces) = kept_rows pieces.
Proof.
  intros [z Hz]. rewrite kept_rows_cons, Hz. cbn [Py.startswith].
  rewrite Ascii.eqb_refl. reflexivity.
Qed.

Lemma kept_rows_padded (rows : list (list str)) (last : str) :
  (exists z, Py.strip last = bsl :: z) ->
  kept_rows (map (fun row => [nl] ++ row_markup row ++ $" ") rows ++ [last])
  = kept_rows (map row_markup rows).
Proof.
  intros Hl. induction rows as [|row rows IH].
  - apply (kept_rows_command last []), Hl.
  - rewrite !map_cons, <- app_comm_cons, !kept_rows_cons, strip_padded, IH.
    reflexivity.
Qed.

(** The rows the table reader keeps of a generated table. *)
Lemma table_rows_generated (table : Table) :
  table <> [] ->
  table_rows (table_content table) = surviving_rows table.
Proof.
  intros Ht. destruct table as [|row0 rows]; [congruence|].
  change (table_rows (table_content (row0 :: rows)))
    with (kept_rows (Py.split row_end (table_content (row0 :: rows)))).
  rewrite split_table_content. unfold surviving_rows.
  rewrite kept_rows_command by apply strip_command.
  destruct rows as [|row1 rows'].
  - apply kept_rows_command, strip_command.
  - rewrite kept_rows_command by apply strip_command.
    cbn [skipn]. apply kept_rows_padded, strip_command.
Qed.

Lemma contains_at_start (p rest : str) : Py.contains p (p ++ rest) = true.
Proof.
  destruct p as [|a p]; [destruct rest; reflexivity|].
  cbn [app Py.contains].
  change (a :: p ++ rest) with ((a :: p) ++ rest).
  rewrite startswith_refl_app. reflexivity.
Qed.

(** A block that starts with the table marker is handed to the table
    reader. *)
Lemma process_block_table_start (w : World) (block : str) (doc : Document) :
  Py.startswith $"\begin{table}" block = true ->
  _process_block w block doc = _process_table block doc.
Proof.
  intros H. pose proof (startswith_split _ _ H) as Hb.
  assert (H1 : Py.startswith $"\section" block = false)
    by (rewrite Hb; apply clash_startswith; vm_compute; reflexivity).
  assert (H2 : Py.startswith $"\subsection" block = false)
    by (rewrite Hb; apply clash_startswith; vm_compute; reflexivity).
  assert (H3 : Py.startswith $"\subsubsection" block = false)
    by (rewrite Hb; apply clash_startswith; vm_compute; reflexivity).
  assert (H4 : Py.contains $"\begin{table}" block = true)
    by (rewrite Hb; apply contains_at_start).
  unfold _process_block. rewrite H1, H2, H3, H4. reflexivity.
Qed.

(** A generated table is handed to the table reader. *)
Lemma process_block_generated_table (w : World) (row0 : list str)
  (rows : list (list str)) (doc : Document) :
  _process_block w (LatexGenerator._process_table (row0 :: rows)) doc
  = _process_table (LatexGenerator._process_table (row0 :: rows)) doc.
Proof.
  apply process_block_table_start. rewrite generated_table_text.
  rewrite <- !app_assoc.
  change ($"\begin{table}[h]") with ($"\begin{table}" ++ $"[h]").
  rewrite <- app_assoc. apply startswith_refl_app.
Qed.

(** What the parser makes of a generated table. *)
Lemma generated_table_parse (w : World) (table : Table) (doc : Document) :
  _process_block w (LatexGenerator._process_table table) doc
  = match table with
    | (_ :: _) :: _ =>
        match surviving_rows table with
        | [] => doc
        | row0 :: rows =>
            doc ++ [Tbl $"Light Grid Accent 1"
                      (map (fun row_text =>
                              written_row (length (Py.split $"&" row0))
                                (row_cells row_text))
                         (row0 :: rows))]
        end
    | _ => doc
    end.
Proof.
  destruct table as [|row0 rows]; [reflexivity|].
  rewrite process_block_generated_table, TableFacts.process_table_grid.
  pose proof (search_tabular_generated row0 rows) as Hs.
  destruct (search tabular_re _) as [m|]; cbn [option_map] in Hs.
  - destruct row0 as [|cell row0]; [discriminate Hs|].
    inversion Hs as [Hg]. rewrite Hg.
    rewrite table_rows_generated by discriminate. reflexivity.
  - destruct row0 as [|cell row0]; [reflexivity | discriminate Hs].
Qed.

End TableLossFacts.

(** X18.  What the parser makes of the table the generator wrote, for every
    table: the first two rows are lost with the rule commands, and the
    table that comes back is made of the rows after the second that are not
    blank and do not start with an escape sequence, with the number of
    columns of the first of them; when there is no such row, or when the
    first row of the table has no cell, nothing is added to the document. *)
Theorem generated_table_read_back (w : DocxGenerator.World) (table : Table)
  (doc : DocxGenerator.Document) :
  DocxGenerator._process_block w (LatexGenerator._process_table table) doc
  = match table with
    | (_ :: _) :: _ =>
        match surviving_rows table with
        | [] => doc
        | row0 :: rows =>
            doc ++ [DocxGenerator.Tbl $"Light Grid Accent 1"
                      (map (fun row_text =>
                              written_row (length (Py.split $"&" row0))
                                (row_cells row_text))
                         (row0 :: rows))]
        end
    | _ => doc
    end.
Proof. apply TableLossFacts.generated_table_parse. Qed.

(** X19.  A table of one or two rows does not survive the round trip,
    whatever its cells hold: the parser adds nothing for the table the
    generator wrote. *)
Theorem short_table_lost (w : DocxGenerator.World) (table : Table)
  (doc : DocxGenerator.Document) :
  length table <= 2 ->
  DocxGenerator._process_block w (LatexGenerator._process_table table) doc = doc.
Proof.
  intros H. rewrite TableLossFacts.generated_table_parse.
  destruct table as [|[|cell row0] rows]; try reflexivity.
  destruct rows as [|row1 [|row2 rows]]; [reflexivity | reflexivity|].
  cbn [length] in H. lia.
Qed.

Lemma short_table_lost_witness :
  let w := {| DocxGenerator.path_exists := fun _ => true;
              DocxGenerator.picture_loads := fun _ => true |} in
  let table := [[ $"Item"; $"Price" ]; [ $"Tea & cake"; $"5 $" ]] in
  length table <= 2
  /\ DocxGenerator._process_block w (LatexGenerator._process_table table) [] = [].
Proof.
  intros w table.
  assert (H : length table <= 2) by (cbn [length table]; lia).
  split; [exact H | apply (short_table_lost w table [] H)].
Defined.

(** ** File names *)

Module FileNameFacts.

Import Re ReFacts.

Lemma match_here_Chr (p : ascii -> bool) (pos : nat) (s : str) :
  match_here (Chr p) pos s
  = match s with
    | c :: _ =>
        if p c then Some {| m_start := pos; m_end := pos + 1; m_groups := [] |}
        else None
    | [] => None
    end.
Proof.
  unfold match_here. rewrite run_Chr. destruct s as [|c s]; [reflexivity|].
  cbn [head_is skipn]. destruct (p c); [|reflexivity].
  f_equal. f_equal. cbn [length]. lia.
Qed.

(** The search for a character of a class stops at the first one. *)
Lemma search_from_Chr (p : ascii -> bool) (s : str) :
  forall pos,
  search_from (Chr p) pos s
  = match drop_while (fun c => negb (p c)) s with
    | [] => None
    | _ :: _ =>
        Some {| m_start := pos + length (take_while (fun c => negb (p c)) s);
                m_end := pos + length (take_while (fun c => negb (p c)) s) + 1;
                m_groups := [] |}
    end.
Proof.
  induction s as [|c s IH]; intros pos; [reflexivity|].
  rewrite TableLossFacts.search_from_cons, match_here_Chr.
  cbn [drop_while take_while]. destruct (p c); cbn [negb].
  - cbn [length]. rewrite Nat.add_0_r. reflexivity.
  - rewrite IH. destruct (drop_while _ s); [reflexivity|].
    cbn [length]. f_equal. f_equal; lia.
Qed.

Lemma drop_while_head (q : ascii -> bool) (s : str) (c : ascii) (rest : str) :
  drop_while q s = c :: rest -> q c = false.
Proof.
  induction s as [|x s IH]; cbn [drop_while]; [discriminate|].
  destruct (q x) eqn:E; [exact IH|]. intros H. inversion H; subst. exact E.
Qed.

Lemma flat_map_keep (p : ascii -> bool) (repl : str) (s : str) :
  Forall (fun c => negb (p c) = true) s ->
  flat_map (fun c => if p c then repl else [c]) s = s.
Proof.
  induction 1 as [|c s Hc _ IH]; [reflexivity|].
  cbn [flat_map]. rewrite IH. destruct (p c); [discriminate Hc | reflexivity].
Qed.

(** [re.sub] for a class of characters replaces each of them. *)
Lemma sub_loop_Chr (p : ascii -> bool) (repl : str) :
  forall fuel s, length s < fuel ->
  sub_loop fuel (Chr p) repl s
  = flat_map (fun c => if p c then repl else [c]) s.
Proof.
  induction fuel as [|f IH]; intros s Hs; [lia|].
  cbn [sub_loop]. unfold search. rewrite search_from_Chr.
  pose proof (take_drop_while (fun c => negb (p c)) s) as Hsplit.
  pose proof (take_while_Forall (fun c => negb (p c)) s) as Hpre.
  pose proof (drop_while_skipn (fun c => negb (p c)) s) as Hskip.
  destruct (drop_while (fun c => negb (p c)) s) as [|c rest] eqn:Ed.
  - rewrite app_nil_r in Hsplit. rewrite Hsplit in Hpre.
    symmetry. apply flat_map_keep, Hpre.
  - pose proof (drop_while_head _ _ _ _ Ed) as Hc.
    apply negb_false_iff in Hc.
    cbn [m_start m_end Nat.add].
    remember (take_while (fun c => negb (p c)) s) as pre eqn:Epre.
    clear Epre.
    assert (H1 : firstn (length pre) s = pre).
    { rewrite <- Hsplit. apply DocumentFacts.firstn_length_app. }
    assert (H2 : skipn (length pre + 1) s = rest).
    { rewrite Nat.add_1_r. change (S (length pre)) with (1 + length pre).
      rewrite <- skipn_skipn, <- Hskip. reflexivity. }
    rewrite H1, H2, IH.
    + rewrite <- Hsplit. rewrite flat_map_app. cbn [flat_map].
      rewrite Hc, (flat_map_keep p repl pre Hpre). reflexivity.
    + rewrite <- Hsplit in Hs. rewrite length_app in Hs. cbn [length] in Hs. lia.
Qed.

Lemma sub_invalid (s : str) :
  Re.sub invalid_re $"_" s
  = map (fun c => if valid_filename_char c then c else "_"%char) s.
Proof.
  unfold Re.sub, invalid_re. rewrite sub_loop_Chr by lia.
  unfold valid_filename_char.
  induction s as [|c s IH]; [reflexivity|].
  cbn [flat_map map]. rewrite IH.
  destruct (existsb (Ascii.eqb c) invalid_filename_chars); reflexivity.
Qed.

Lemma sub_invalid_valid (s : str) :
  forallb valid_filename_char (Re.sub invalid_re $"_" s) = true.
Proof.
  rewrite sub_invalid. induction s as [|c s IH]; [reflexivity|].
  cbn [map forallb]. rewrite IH, andb_true_r.
  destruct (valid_filename_char c) eqn:E; [exact E | reflexivity].
Qed.

Lemma In_lstrip_chars (chars s : str) (c : ascii) :
  In c (Py.lstrip_chars chars s) -> In c s.
Proof.
  induction s as [|x s IH]; cbn [Py.lstrip_chars]; [tauto|].
  destruct (existsb (Ascii.eqb x) chars); [right; apply IH; assumption | tauto].
Qed.

Lemma In_strip_chars (chars s : str) (c : ascii) :
  In c (Py.strip_chars chars s) -> In c s.
Proof.
  unfold Py.strip_chars, Py.rstrip_chars. intros H.
  apply In_lstrip_chars with (chars := chars).
  apply in_rev in H. apply In_lstrip_chars in H. apply in_rev in H. exact H.
Qed.

Lemma splitext_loop_cases (p : str) (d : nat) :
  forall fuel f,
  OsPath.splitext_loop fuel p f d = (p, [])
  \/ OsPath.splitext_loop fuel p f d = (firstn d p, skipn d p).
Proof.
  induction fuel as [|fuel IH]; intros f; cbn [OsPath.splitext_loop];
    [left; reflexivity|].
  destruct (f <? d); [|left; reflexivity].
  destruct (nth_error p f) as [c|]; [|right; reflexivity].
  destruct (Ascii.eqb c "."); [apply IH | right; reflexivity].
Qed.

(** The two parts [splitext] returns are the path, cut at the last dot or
    not at all. *)
Lemma splitext_cases (p : str) :
  OsPath.splitext p = (p, [])
  \/ exists d, Py.rfind "." p = Some d
       /\ match Py.rfind "/" p with Some s => s < d | None => True end
       /\ OsPath.splitext p = (firstn d p, skipn d p).
Proof.
  unfold OsPath.splitext.
  destruct (Py.rfind "." p) as [d|]; [|left; reflexivity].
  destruct (Py.rfind "/" p) as [s|].
  - destruct (Nat.ltb_spec s d); [|left; reflexivity].
    destruct (splitext_loop_cases p d (length p) (S s)) as [E|E];
      [left; exact E | right; exists d; repeat split; assumption].
  - destruct (splitext_loop_cases p d (length p) 0) as [E|E];
      [left; exact E | right; exists d; repeat split; trivial].
Qed.

Lemma splitext_app (p : str) :
  fst (OsPath.splitext p) ++ snd (OsPath.splitext p) = p.
Proof.
  destruct (splitext_cases p) as [E|(d & _ & _ & E)]; rewrite E; cbn [fst snd].
  - apply app_nil_r.
  - apply firstn_skipn.
Qed.

Lemma slice_stop_length (a b : nat) (s : str) :
  length (Py.slice_stop a b s)
  = if b <=? a then Nat.min (a - b) (length s) else length s - (b - a).
Proof.
  unfold Py.slice_stop. destruct (b <=? a); rewrite length_firstn; lia.
Qed.

Lemma In_slice_stop (a b : nat) (s : str) (c : ascii) :
  In c (Py.slice_stop a b s) -> In c s.
Proof.
  assert (Hin : forall n, In c (firstn n s) -> In c s).
  { intros n H. rewrite <- (firstn_skipn n s). apply in_or_app. left. exact H. }
  unfold Py.slice_stop. destruct (b <=? a); apply Hin.
Qed.

(** The result of the sanitizer, from the cleaned name. *)
Lemma sanitize_filename_unfold (filename : str) :
  sanitize_filename filename
  = if 255 <? length (cleaned_filename filename) then
      Py.slice_stop 255 (length (snd (OsPath.splitext (cleaned_filename filename))))
        (fst (OsPath.splitext (cleaned_filename filename)))
      ++ snd (OsPath.splitext (cleaned_filename filename))
    else cleaned_filename filename.
Proof.
  unfold sanitize_filename, cleaned_filename.
  destruct (255 <? _); [|reflexivity].
  destruct (OsPath.splitext _); reflexivity.
Qed.

Lemma cleaned_valid (filename : str) (c : ascii) :
  In c (cleaned_filename filename) -> valid_filename_char c = true.
Proof.
  intros H. apply In_strip_chars in H.
  pose proof (sub_invalid_valid filename) as Hv.
  rewrite forallb_forall in Hv. apply Hv, H.
Qed.

End FileNameFacts.

(** X20.  The sanitized name holds none of the characters the sanitizer
    replaces, whatever the input and whether or not the name is
    shortened. *)
Theorem sanitized_name_has_no_invalid_char (filename : str) :
  forallb valid_filename_char (sanitize_filename filename) = true.
Proof.
  apply forallb_forall. intros c Hc.
  apply (FileNameFacts.cleaned_valid filename).
  rewrite FileNameFacts.sanitize_filename_unfold in Hc.
  destruct (255 <? _); [|exact Hc].
  rewrite <- (FileNameFacts.splitext_app (cleaned_filename filename)).
  apply in_or_app. apply in_app_or in Hc as [Hc|Hc]; [left | right; exact Hc].
  apply (FileNameFacts.In_slice_stop _ _ _ _ Hc).
Qed.

(** X21.  The length limit of the sanitizer holds exactly when the cleaned
    name is short enough already or its extension has at most 255
    characters: a longer extension makes the stop of the slice negative,
    and the result is longer than 255 characters. *)
Theorem sanitized_name_length (filename : str) :
  length (sanitize_filename filename) <= 255
  <-> length (cleaned_filename filename) <= 255
      \/ length (snd (OsPath.splitext (cleaned_filename filename))) <= 255.
Proof.
  rewrite FileNameFacts.sanitize_filename_unfold.
  pose proof (FileNameFacts.splitext_app (cleaned_filename filename)) as Happ.
  apply (f_equal (@length ascii)) in Happ. rewrite length_app in Happ.
  destruct (Nat.ltb_spec 255 (length (cleaned_filename filename))) as [Hlong|Hshort].
  - rewrite length_app, FileNameFacts.slice_stop_length.
    destruct (Nat.leb_spec
                (length (snd (OsPath.splitext (cleaned_filename filename)))) 255);
      lia.
  - split; [intros _; left; exact Hshort | intros _; exact Hshort].
Qed.

(** ** Extensions *)

Module ExtensionFacts.

Lemma rfind_none (c : ascii) (s : str) : Py.rfind c s = None -> ~ In c s.
Proof.
  induction s as [|x s IH]; cbn [Py.rfind]; [tauto|].
  destruct (Py.rfind c s); [discriminate|].
  destruct (Ascii.eqb_spec x c) as [|Hx]; [discriminate|].
  intros _ [H|H]; [exact (Hx H) | exact (IH eq_refl H)].
Qed.

(** [rfind] gives the offset of an occurrence that no other follows. *)
Lemma rfind_some (c : ascii) (s : str) :
  forall i, Py.rfind c s = Some i ->
  firstn i s ++ c :: skipn (S i) s = s /\ i < length s /\ ~ In c (skipn (S i) s).
Proof.
  induction s as [|x s IH]; intros i; cbn [Py.rfind]; [discriminate|].
  destruct (Py.rfind c s) as [j|] eqn:E.
  - intros H. inversion H; subst i. destruct (IH j eq_refl) as (H1 & H2 & H3).
    change (x :: (firstn j s ++ c :: skipn (S j) s) = x :: s
            /\ S j < S (length s) /\ ~ In c (skipn (S j) s)).
    rewrite H1. repeat split; [lia | exact H3].
  - destruct (Ascii.eqb_spec x c) as [->|]; [|discriminate].
    intros H. inversion H; subst i.
    change (c :: s = c :: s /\ 0 < S (length s) /\ ~ In c s).
    repeat split; [lia | apply rfind_none, E].
Qed.

Lemma rfind_last (c : ascii) (pre post : str) :
  ~ In c post -> Py.rfind c (pre ++ c :: post) = Some (length pre).
Proof.
  intros H. induction pre as [|x pre IH]; cbn [app Py.rfind length].
  - destruct (Py.rfind c post) as [j|] eqn:E.
    + exfalso. destruct (rfind_some c post j E) as (H1 & _ & _).
      apply H. rewrite <- H1. apply in_or_app. right. left. reflexivity.
    + rewrite Ascii.eqb_refl. reflexivity.
  - rewrite IH. reflexivity.
Qed.

Lemma rfind_app_absent (c : ascii) (pre post : str) :
  ~ In c post -> Py.rfind c (pre ++ post) = Py.rfind c pre.
Proof.
  intros H. induction pre as [|x pre IH]; cbn [app Py.rfind].
  - destruct (Py.rfind c post) as [j|] eqn:E; [|reflexivity].
    exfalso. destruct (rfind_some c post j E) as (H1 & _ & _).
    apply H. rewrite <- H1. apply in_or_app. right. left. reflexivity.
  - rewrite IH. reflexivity.
Qed.

Lemma In_skipn (c : ascii) (n : nat) (s : str) : In c (skipn n s) -> In c s.
Proof.
  intros H. rewrite <- (firstn_skipn n s). apply in_or_app. right. exact H.
Qed.

(** The extension [splitext] returns is empty, or a dot and a text without
    dot and slash. *)
Lemma splitext_extension (p : str) :
  snd (OsPath.splitext p) = []
  \/ exists post, snd (OsPath.splitext p) = "."%char :: post
       /\ ~ In "."%char post /\ ~ In "/"%char post.
Proof.
  destruct (FileNameFacts.splitext_cases p) as [E|(d & Hd & Hs & E)];
    rewrite E; cbn [snd]; [left; reflexivity|].
  right. exists (skipn (S d) p).
  destruct (rfind_some _ _ _ Hd) as (H1 & H2 & H3).
  split; [|split; [exact H3|]].
  - rewrite <- H1 at 1. rewrite skipn_app.
    rewrite length_firstn, Nat.min_l by lia. rewrite Nat.sub_diag.
    rewrite skipn_all2 by (rewrite length_firstn; lia). reflexivity.
  - destruct (Py.rfind "/" p) as [s|] eqn:Es.
    + destruct (rfind_some _ _ _ Es) as (_ & _ & H4).
      intros Hin. apply H4.
      replace (S d) with ((d - s) + S s) in Hin by lia.
      rewrite <- skipn_skipn in Hin. apply (In_skipn _ _ _ Hin).
    + intros Hin. apply (rfind_none _ _ Es), (In_skipn _ _ _ Hin).
Qed.

Lemma lower_char_idem (c : ascii) :
  Py.lower_char (Py.lower_char c) = Py.lower_char c.
Proof. destruct c as [[] [] [] [] [] [] [] []]; vm_compute; reflexivity. Qed.

Lemma lower_char_dot (c : ascii) :
  Py.lower_char c = "."%char -> c = "."%char.
Proof.
  destruct c as [[] [] [] [] [] [] [] []]; vm_compute;
    first [reflexivity | discriminate].
Qed.

Lemma lower_char_slash (c : ascii) :
  Py.lower_char c = "/"%char -> c = "/"%char.
Proof.
  destruct c as [[] [] [] [] [] [] [] []]; vm_compute;
    first [reflexivity | discriminate].
Qed.

Lemma lower_idem (s : str) : Py.lower (Py.lower s) = Py.lower s.
Proof.
  unfold Py.lower. rewrite map_map. apply map_ext. apply lower_char_idem.
Qed.

Lemma lower_absent (c : ascii) (s : str) :
  (forall x, Py.lower_char x = c -> x = c) ->
  ~ In c s -> ~ In c (Py.lower s).
Proof.
  intros Hc Hs Hin. unfold Py.lower in Hin. apply in_map_iff in Hin as (x & Hx & Hin).
  apply Hc in Hx. subst x. exact (Hs Hin).
Qed.

Lemma lstrip_dots_none (s : str) :
  ~ In "."%char s -> Py.lstrip_chars $"." s = s.
Proof.
  destruct s as [|x s]; [reflexivity|]. intros H.
  change ($".") with ["."%char].
  cbn [Py.lstrip_chars existsb]. rewrite orb_false_r.
  destruct (Ascii.eqb_spec x ".") as [->|]; [|reflexivity].
  exfalso. apply H. left. reflexivity.
Qed.

(** The extension, from the second part of [splitext]. *)
Lemma extract_extension_cases (filename : str) :
  extract_extension filename = []
  \/ exists post, snd (OsPath.splitext filename) = "."%char :: post
       /\ ~ In "."%char post /\ ~ In "/"%char post
       /\ extract_extension filename = Py.lower post.
Proof.
  unfold extract_extension.
  destruct (splitext_extension filename) as [E|(post & E & Hd & Hs)]; rewrite E.
  - left. reflexivity.
  - right. exists post. repeat split; try assumption.
    change (Py.lower ("."%char :: post)) with ("."%char :: Py.lower post).
    change (Py.lstrip_chars $"." ("."%char :: Py.lower post))
      with (Py.lstrip_chars $"." (Py.lower post)).
    apply lstrip_dots_none, lower_absent; [apply lower_char_dot | exact Hd].
Qed.

(** The loop over the leading dots of the last component. *)
Lemma splitext_loop_scan (p : str) (d : nat) :
  d <= length p ->
  forall fuel f, f <= d -> d - f <= fuel ->
  OsPath.splitext_loop fuel p f d
  = if existsb (fun c => negb (Ascii.eqb c ".")) (firstn (d - f) (skipn f p))
    then (firstn d p, skipn d p) else (p, []).
Proof.
  intros Hd. induction fuel as [|fuel IH]; intros f Hf Hfuel.
  - replace (d - f) with 0 by lia. reflexivity.
  - cbn [OsPath.splitext_loop]. destruct (Nat.ltb_spec f d) as [Hlt|Hge].
    + destruct (nth_error p f) as [c|] eqn:En.
      * assert (Hs : skipn f p = c :: skipn (S f) p).
        { clear -En. revert f En. induction p as [|x p IHp]; intros [|f] En;
            cbn in *; try discriminate.
          - inversion En. reflexivity.
          - apply IHp, En. }
        rewrite Hs. replace (d - f) with (S (d - S f)) by lia.
        cbn [firstn existsb].
        destruct (Ascii.eqb c "."); cbn [negb orb]; [|reflexivity].
        apply IH; lia.
      * apply nth_error_None in En. lia.
    + replace (d - f) with 0 by lia. reflexivity.
Qed.

(** [splitext] on a name with a dot before a text without dot and slash. *)
Lemma splitext_named (stem e : str) :
  ~ In "."%char e -> ~ In "/"%char e ->
  OsPath.splitext (stem ++ "."%char :: e)
  = if has_base_name stem then (stem, "."%char :: e)
    else (stem ++ "."%char :: e, []).
Proof.
  intros Hd Hs. unfold OsPath.splitext, has_base_name, basename.
  rewrite (rfind_last "." stem e Hd).
  assert (Hsep : Py.rfind "/" (stem ++ "."%char :: e) = Py.rfind "/" stem).
  { apply rfind_app_absent. intros [H|H]; [discriminate H | exact (Hs H)]. }
  rewrite Hsep.
  assert (Hcut : firstn (length stem) (stem ++ "."%char :: e) = stem)
    by apply DocumentFacts.firstn_length_app.
  assert (Hrest : skipn (length stem) (stem ++ "."%char :: e) = "."%char :: e)
    by apply DocumentFacts.skipn_length_app.
  assert (Hscan : forall f, f <= length stem ->
            firstn (length stem - f) (skipn f (stem ++ "."%char :: e))
            = skipn f stem).
  { intros f Hf. rewrite skipn_app. replace (f - length stem) with 0 by lia.
    cbn [skipn]. rewrite firstn_app, length_skipn.
    replace (length stem - f - (length stem - f)) with 0 by lia.
    cbn [firstn]. rewrite app_nil_r. apply firstn_all2.
    rewrite length_skipn. lia. }
  destruct (Py.rfind "/" stem) as [s|] eqn:Es.
  - destruct (rfind_some _ _ _ Es) as (_ & Hlt & _).
    destruct (Nat.ltb_spec s (length stem)); [|lia].
    rewrite splitext_loop_scan;
      [| rewrite length_app; cbn [length]; lia | lia
       | rewrite length_app; cbn [length]; lia].
    rewrite Hscan, Hcut, Hrest by lia. reflexivity.
  - rewrite splitext_loop_scan;
      [| rewrite length_app; cbn [length]; lia | lia
       | rewrite length_app; cbn [length]; lia].
    rewrite Hscan, Hcut, Hrest by lia. reflexivity.
Qed.

End ExtensionFacts.

(** X22.  The extension [extract_extension] returns holds no dot and no
    slash, and is in lower case, for every file name. *)
Theorem extension_is_plain_lowercase (filename : str) :
  ~ In "."%char (extract_extension filename)
  /\ ~ In "/"%char (extract_extension filename)
  /\ Py.lower (extract_extension filename) = extract_extension filename.
Proof.
  destruct (ExtensionFacts.extract_extension_cases filename)
    as [E|(post & _ & Hd & Hs & E)]; rewrite E.
  - repeat split; intros [].
  - repeat split.
    + apply ExtensionFacts.lower_absent;
        [apply ExtensionFacts.lower_char_dot | exact Hd].
    + apply ExtensionFacts.lower_absent;
        [apply ExtensionFacts.lower_char_slash | exact Hs].
    + apply ExtensionFacts.lower_idem.
Qed.

(** X23.  For a path that ends with a dot and a text without dot and
    slash, the extension is that text in lower case when the base name
    before the dot holds a character that is no dot, and empty otherwise: a
    name made of leading dots only, like that of a hidden file, has no
    extension.  [is_valid_file] accepts such a path exactly when the file
    exists and the extension is, without regard to case, one of the listed
    ones. *)
Theorem extension_of_named_file (isfile : str -> bool) (stem e : str)
  (extensions : list str) :
  ~ In "."%char e -> ~ In "/"%char e ->
  extract_extension (stem ++ "."%char :: e)
  = (if has_base_name stem then Py.lower e else [])
  /\ is_valid_file isfile (stem ++ "."%char :: e) extensions
     = isfile (stem ++ "."%char :: e)
       && existsb (fun x =>
                     if list_eq_dec ascii_dec
                          (if has_base_name stem then Py.lower e else [])
                          (Py.lower x)
                     then true else false) extensions.
Proof.
  intros Hd Hs.
  assert (He : extract_extension (stem ++ "."%char :: e)
               = if has_base_name stem then Py.lower e else []).
  { unfold extract_extension.
    rewrite (ExtensionFacts.splitext_named stem e Hd Hs).
    destruct (has_base_name stem); cbn [snd]; [|reflexivity].
    change (Py.lower ("."%char :: e)) with ("."%char :: Py.lower e).
    change (Py.lstrip_chars $"." ("."%char :: Py.lower e))
      with (Py.lstrip_chars $"." (Py.lower e)).
    apply ExtensionFacts.lstrip_dots_none, ExtensionFacts.lower_absent;
      [apply ExtensionFacts.lower_char_dot | exact Hd]. }
  split; [exact He|].
  unfold is_valid_file. rewrite He.
  destruct (isfile (stem ++ "."%char :: e)); cbn [negb andb]; [|reflexivity].
  induction extensions as [|x xs IH]; [reflexivity|].
  cbn [map existsb]. rewrite IH. reflexivity.
Qed.

Lemma extension_of_named_file_witness :
  let isfile := fun path : str =>
                  if list_eq_dec ascii_dec path $"docs/Report.v2.DOCX"
                  then true else false in
  ~ In "."%char $"DOCX" /\ ~ In "/"%char $"DOCX"
  /\ extract_extension ($"docs/Report.v2" ++ "."%char :: $"DOCX")
     = (if has_base_name $"docs/Report.v2" then Py.lower $"DOCX" else [])
  /\ is_valid_file isfile ($"docs/Report.v2" ++ "."%char :: $"DOCX") [ $"docx" ]
     = isfile ($"docs/Report.v2" ++ "."%char :: $"DOCX")
       && existsb (fun x =>
                     if list_eq_dec ascii_dec
                          (if has_base_name $"docs/Report.v2"
                           then Py.lower $"DOCX" else [])
                          (Py.lower x)
                     then true else false) [ $"docx" ].
Proof.
  intros isfile.
  assert (Hd : ~ In "."%char $"DOCX") by (cbn; intuition discriminate).
  assert (Hs : ~ In "/"%char $"DOCX") by (cbn; intuition discriminate).
  split; [exact Hd|]. split; [exact Hs|].
  apply (extension_of_named_file isfile $"docs/Report.v2" $"DOCX" [ $"docx" ] Hd Hs).
Defined.

(** ** Figures *)

Module FigureFacts.

Import Re DocxGenerator ReFacts MarkerFacts.

Lemma run_Lit (c : ascii) (s : str) (cs : caps) (K : str -> caps -> outcome) :
  run (Lit c) s cs K
  = match s with
    | x :: s' => if Ascii.eqb c x then K s' cs else None
    | [] => None
    end.
Proof. destruct s; reflexivity. Qed.

Lemma not_bracket_Lit (c : ascii) (s : str) (cs : caps)
  (K : str -> caps -> outcome) :
  not_bracket c = true -> run (Lit "]") (c :: s) cs K = None.
Proof.
  unfold not_bracket. cbn [existsb]. rewrite orb_false_r. intros H.
  rewrite run_Lit, Ascii.eqb_sym.
  destruct (Ascii.eqb c "]"); [discriminate | reflexivity].
Qed.

(** The options between brackets. *)
Lemma run_bracketed (t : str) (cs : caps) (K : str -> caps -> outcome) :
  run (Cat (Plus (NotOf ["]"%char])) (Lit "]")) t cs K
  = match bracketed t with
    | Some rest => K rest cs
    | None => None
    end.
Proof.
  rewrite run_Cat. change (NotOf ["]"%char]) with (Chr not_bracket).
  rewrite TableLossFacts.run_Plus_maximal.
  - unfold bracketed. destruct (take_while not_bracket t); [reflexivity|].
    rewrite run_Lit. destruct (drop_while not_bracket t) as [|x rest];
      [reflexivity|].
    destruct (Ascii.eqb "]" x); reflexivity.
  - intros c s' cs' Hc. apply not_bracket_Lit, Hc.
Qed.

(** The path between braces. *)
Lemma run_path (s : str) (cs : caps) (k : str -> caps -> outcome) :
  run (Cat (Lit "{") (Cat (Group 1 (Plus (NotOf ["}"%char]))) (Lit "}"))) s cs k
  = match s with
    | y :: u =>
        if Ascii.eqb "{" y then
          match braced u with
          | Some (g, rest) => k rest ((1, g) :: cs)
          | None => None
          end
        else None
    | [] => None
    end.
Proof.
  rewrite run_Cat, run_Lit. destruct s as [|y u]; [reflexivity|].
  destruct (Ascii.eqb "{" y); [apply run_braced_end | reflexivity].
Qed.

Lemma run_Opt (r : regex) (s : str) (cs : caps) (k : str -> caps -> outcome) :
  run (Opt r) s cs k
  = match run r s cs k with
    | Some res => Some res
    | None => k s cs
    end.
Proof. reflexivity. Qed.

(** The group of the graphics pattern at one offset. *)
Lemma match_here_graphics (pos : nat) (s : str) :
  option_map (fun m => group m 1) (match_here includegraphics_re pos s)
  = option_map fst (graphics_match s).
Proof.
  unfold match_here, includegraphics_re, graphics_match.
  rewrite run_Cat, run_Lits.
  destruct (Py.startswith $"\includegraphics" s); [|reflexivity].
  generalize (skipn (length $"\includegraphics") s). intros t.
  rewrite run_Cat, run_Opt, (run_Cat (Lit "[")), run_Lit.
  destruct t as [|x t]; [reflexivity|].
  rewrite (run_path (x :: t)).
  destruct (Ascii.eqb_spec "["%char x) as [<-|Hx].
  - rewrite run_bracketed.
    change (Ascii.eqb "{" "[") with false. cbv iota.
    destruct (bracketed t) as [[|y u]|]; [reflexivity| |reflexivity].
    rewrite run_path. destruct (Ascii.eqb "{" y); [|reflexivity].
    destruct (braced u) as [[g rest]|]; reflexivity.
  - destruct (Ascii.eqb "{" x); [|reflexivity].
    destruct (braced t) as [[g rest]|]; reflexivity.
Qed.

Lemma match_here_graphics_miss (pos : nat) (s : str) :
  Py.startswith $"\includegraphics" s = false ->
  match_here includegraphics_re pos s = None.
Proof.
  intros H. pose proof (match_here_graphics pos s) as Hm.
  unfold graphics_match in Hm. rewrite H in Hm.
  destruct (match_here includegraphics_re pos s); [discriminate | reflexivity].
Qed.

(** The search passes over a part in which the pattern cannot start. *)
Lemma search_graphics_skip (u s : str) :
  never_starts $"\includegraphics" u = true ->
  forall pos,
  search_from includegraphics_re pos (u ++ s)
  = search_from includegraphics_re (pos + length u) s.
Proof.
  intros H. induction u as [|c u IH]; intros pos.
  - cbn [app length]. rewrite Nat.add_0_r. reflexivity.
  - cbn [never_starts] in H. apply andb_prop in H as [Hc Hu].
    change ((c :: u) ++ s) with (c :: (u ++ s)).
    rewrite TableLossFacts.search_from_cons.
    change (c :: (u ++ s)) with ((c :: u) ++ s).
    rewrite match_here_graphics_miss by (apply clash_startswith, Hc).
    rewrite (IH Hu). cbn [length]. f_equal. lia.
Qed.

Lemma graphics_match_some (s g rest : str) :
  graphics_match s = Some (g, rest) ->
  g <> [] /\ forallb not_brace g = true.
Proof.
  unfold graphics_match.
  destruct (Py.startswith _ s); [|discriminate].
  destruct (skipn _ s) as [|x t]; [discriminate|].
  destruct (Ascii.eqb "[" x).
  - destruct (bracketed t) as [[|y u]|]; try discriminate.
    destruct (Ascii.eqb "{" y); [|discriminate].
    intros H. apply braced_some in H. split; apply H.
  - destruct (Ascii.eqb "{" x); [|discriminate].
    intros H. apply braced_some in H. split; apply H.
Qed.

Lemma bracketed_app (o rest : str) :
  o <> [] -> forallb not_bracket o = true ->
  bracketed (o ++ "]"%char :: rest) = Some rest.
Proof.
  intros Hne Ho. unfold bracketed.
  rewrite drop_while_skipn, take_while_all by (assumption || reflexivity).
  rewrite DocumentFacts.skipn_length_app.
  destruct o; [congruence | reflexivity].
Qed.

(** The pattern on a graphics command as it is written. *)
Lemma graphics_match_written (options : option str) (path post : str) :
  graphics_options_ok options = true ->
  path <> [] -> forallb not_brace path = true ->
  graphics_match
    ($"\includegraphics"
     ++ graphics_options options ++ "{"%char :: path ++ "}"%char :: post)
  = Some (path, post).
Proof.
  intros Ho Hne Hp. unfold graphics_match.
  rewrite startswith_refl_app, DocumentFacts.skipn_length_app.
  destruct options as [o|]; cbn [graphics_options].
  - assert (Hoe : o <> []) by (destruct o; [discriminate Ho | discriminate]).
    assert (Hob : forallb not_bracket o = true)
      by (destruct o; [discriminate Ho | exact Ho]).
    change (($"[" ++ o ++ $"]") ++ "{"%char :: path ++ "}"%char :: post)
      with ("["%char :: ((o ++ $"]") ++ "{"%char :: path ++ "}"%char :: post)).
    rewrite <- app_assoc.
    change ($"]" ++ "{"%char :: path ++ "}"%char :: post)
      with ("]"%char :: "{"%char :: path ++ "}"%char :: post).
    rewrite Ascii.eqb_refl, (bracketed_app o _ Hoe Hob), Ascii.eqb_refl.
    apply braced_app; assumption.
  - change ([] ++ "{"%char :: path ++ "}"%char :: post)
      with ("{"%char :: path ++ "}"%char :: post).
    change (Ascii.eqb "[" "{") with false. cbv iota.
    rewrite Ascii.eqb_refl. apply braced_app; assumption.
Qed.

(** The search of the graphics pattern is the structural scan. *)
Lemma search_first_graphics (s : str) (pos : nat) :
  option_map (fun m => group m 1) (search_from includegraphics_re pos s)
  = first_graphics s.
Proof.
  revert pos. induction s as [|c s IH]; intros pos.
  - cbn [search_from first_graphics].
    pose proof (match_here_graphics pos []) as Hm.
    destruct (match_here includegraphics_re pos []) as [m|];
      destruct (graphics_match []) as [[g rest]|];
      cbn [option_map fst] in *; congruence.
  - rewrite TableLossFacts.search_from_cons. cbn [first_graphics].
    pose proof (match_here_graphics pos (c :: s)) as Hm.
    destruct (match_here includegraphics_re pos (c :: s)) as [m|];
      destruct (graphics_match (c :: s)) as [[g rest]|];
      cbn [option_map fst] in *; first [congruence | apply IH].
Qed.

(** The path the scan finds is one [graphics_match] reads. *)
Lemma first_graphics_some (s path : str) :
  first_graphics s = Some path ->
  path <> [] /\ forallb not_brace path = true.
Proof.
  induction s as [|c s IH]; cbn [first_graphics].
  - destruct (graphics_match []) as [[g rest]|] eqn:E; [|discriminate].
    intros H. inversion H; subst. exact (graphics_match_some _ _ _ E).
  - destruct (graphics_match (c :: s)) as [[g rest]|] eqn:E; [|exact IH].
    intros H. inversion H; subst. exact (graphics_match_some _ _ _ E).
Qed.

(** The result of the figure reader, from the group of the match. *)
Lemma process_figure_group (w : World) (block : str) (doc : Document) :
  _process_figure w block doc
  = match option_map (fun m => group m 1) (search includegraphics_re block) with
    | Some image_path => doc ++ figure_elements w image_path
    | None => doc
    end.
Proof.
  unfold _process_figure, figure_elements.
  destruct (search includegraphics_re block) as [m|]; [|reflexivity].
  cbn [option_map].
  destruct (path_exists w (group m 1)); [|reflexivity].
  destruct (picture_loads w (group m 1)); [reflexivity|].
  rewrite <- app_assoc. reflexivity.
Qed.

End FigureFacts.

(** X24.  What the figure reader adds is settled by the first graphics
    command of the block, the first place at which the command name is
    followed by optional options in brackets and a path in braces: without
    one the document stays as it is; with one, whose path is then not empty
    and holds no closing brace, the document gains the picture when the
    file exists and loads, the empty paragraph of the failed [add_picture]
    and a paragraph with a message when the file exists and does not load,
    and a paragraph with a message when there is no such file. *)
Theorem figure_block_element (w : DocxGenerator.World) (block : str)
  (doc : DocxGenerator.Document) :
  DocxGenerator._process_figure w block doc
  = match first_graphics block with
    | Some image_path => doc ++ figure_elements w image_path
    | None => doc
    end
  /\ forall image_path, first_graphics block = Some image_path ->
       image_path <> [] /\ forallb not_brace image_path = true.
Proof.
  split.
  - rewrite FigureFacts.process_figure_group. unfold Re.search.
    rewrite FigureFacts.search_first_graphics. reflexivity.
  - intros image_path. apply FigureFacts.first_graphics_some.
Qed.

(** X25.  The figure reader takes the path of the first graphics command of
    the block, with or without options in brackets, as it stands between
    the braces: no unescaping and no stripping is applied to it.  What the
    document gains for the path depends on the file, as in X24; a file that
    exists and does not load leaves two paragraphs. *)
Theorem figure_path_extracted (w : DocxGenerator.World) (pre : str)
  (options : option str) (path post : str) (doc : DocxGenerator.Document) :
  never_starts $"\includegraphics" pre = true ->
  graphics_options_ok options = true ->
  path <> [] -> forallb not_brace path = true ->
  DocxGenerator._process_figure w
    (pre ++ $"\includegraphics" ++ graphics_options options
     ++ $"{" ++ path ++ $"}" ++ post) doc
  = doc ++ figure_elements w path.
Proof.
  intros Hpre Ho Hne Hp. rewrite FigureFacts.process_figure_group.
  unfold Re.search. rewrite (FigureFacts.search_graphics_skip pre _ Hpre).
  change ($"{" ++ path ++ $"}" ++ post) with ("{"%char :: path ++ "}"%char :: post).
  pose proof (FigureFacts.match_here_graphics (0 + length pre)
                ($"\includegraphics" ++ graphics_options options
                 ++ "{"%char :: path ++ "}"%char :: post)) as Hm.
  rewrite (FigureFacts.graphics_match_written options path post Ho Hne Hp) in Hm.
  cbn [option_map fst] in Hm.
  change ($"\includegraphics" ++ graphics_options options
          ++ "{"%char :: path ++ "}"%char :: post)
    with (bsl :: ($"includegraphics" ++ graphics_options options
                  ++ "{"%char :: path ++ "}"%char :: post)) in *.
  rewrite TableLossFacts.search_from_cons.
  destruct (Re.match_here DocxGenerator.includegraphics_re _ (bsl :: _)) as [m|];
    [|discriminate Hm].
  cbn [option_map] in *. inversion Hm as [Hg]. reflexivity.
Qed.

Lemma figure_path_extracted_witness :
  let w := {| DocxGenerator.path_exists := fun _ => true;
              DocxGenerator.picture_loads := fun _ => false |} in
  let pre := $"\begin{figure}[h]" ++ [nl] ++ $"\centering" ++ [nl] in
  let post := [nl] ++ $"\caption{A plot}" ++ [nl] ++ $"\end{figure}" in
  never_starts $"\includegraphics" pre = true
  /\ graphics_options_ok (Some $"width=0.8\textwidth") = true
  /\ $"images/plot\_1.png" <> []
  /\ forallb not_brace $"images/plot\_1.png" = true
  /\ DocxGenerator._process_figure w
       (pre ++ $"\includegraphics"
        ++ graphics_options (Some $"width=0.8\textwidth")
        ++ $"{" ++ $"images/plot\_1.png" ++ $"}" ++ post) []
     = [] ++ figure_elements w $"images/plot\_1.png".
Proof.
  intros w pre post.
  assert (H1 : never_starts $"\includegraphics" pre = true)
    by (vm_compute; reflexivity).
  assert (H2 : graphics_options_ok (Some $"width=0.8\textwidth") = true)
    by (vm_compute; reflexivity).
  assert (H3 : $"images/plot\_1.png" <> []) by discriminate.
  assert (H4 : forallb not_brace $"images/plot\_1.png" = true)
    by (vm_compute; reflexivity).
  split; [exact H1|]. split; [exact H2|]. split; [exact H3|]. split; [exact H4|].
  apply (figure_path_extracted w pre (Some $"width=0.8\textwidth")
           $"images/plot\_1.png" post [] H1 H2 H3 H4).
Defined.

(** ** Documents of headings and plain paragraphs *)

Module OutlineFacts.

Import Re DocxGenerator ReFacts MarkerFacts RoundTripFacts ParagraphFacts
  SplitFacts PlainFacts.

Lemma process_heading_line (level : nat) (title : str) :
  1 <= level <= 3 ->
  LatexGenerator._process_heading (heading_paragraph level title)
  = heading_line level title.
Proof.
  intros Hl. unfold LatexGenerator._process_heading, heading_line.
  assert (Ht : par_text (heading_paragraph level title) = title)
    by apply app_nil_r.
  rewrite Ht.
  destruct level as [|[|[|[|]]]]; try lia.
  - change (Py.contains $"Heading 1" (par_style (heading_paragraph 1 title)))
      with true. reflexivity.
  - change (Py.contains $"Heading 1" (par_style (heading_paragraph 2 title)))
      with false.
    change (Py.contains $"Heading 2" (par_style (heading_paragraph 2 title)))
      with true. reflexivity.
  - change (Py.contains $"Heading 1" (par_style (heading_paragraph 3 title)))
      with false.
    change (Py.contains $"Heading 2" (par_style (heading_paragraph 3 title)))
      with false.
    change (Py.contains $"Heading 3" (par_style (heading_paragraph 3 title)))
      with true. reflexivity.
Qed.

(** The generator on a heading paragraph. *)
Lemma process_paragraph_heading (level : nat) (title : str) :
  1 <= level <= 3 -> Py.strip title <> [] ->
  LatexGenerator._process_paragraph (heading_paragraph level title)
  = heading_line level title.
Proof.
  intros Hl Hs. unfold LatexGenerator._process_paragraph.
  assert (Ht : par_text (heading_paragraph level title) = title)
    by apply app_nil_r.
  rewrite Ht. destruct (Py.strip title); [congruence|].
  change (Py.startswith $"Heading" (par_style (heading_paragraph level title)))
    with true. cbv iota.
  apply process_heading_line, Hl.
Qed.

(** The parser on the command of a heading. *)
Lemma heading_line_parse (w : World) (level : nat) (title : str)
  (doc : Document) :
  1 <= level <= 3 -> title <> [] -> forallb plain_title_char title = true ->
  _process_block w (heading_line level title) doc
  = doc ++ [Heading title level].
Proof.
  intros Hl Hne Hp.
  pose proof (HeadingFacts.escape_nonempty title Hne) as Hg.
  pose proof (HeadingFacts.escape_brace_free title Hp) as Hb.
  pose proof (HeadingFacts.search_section (level - 1) _ [] Hg Hb) as Hs.
  unfold heading_line. unfold _process_block, _process_section.
  change ($"}") with ["}"%char].
  destruct level as [|[|[|[|]]]]; try lia; cbn [Nat.sub repeat concat app] in *.
  - change (Py.startswith $"\section" (bsl :: $"section{" ++ escape_latex title ++ ["}"%char]))
      with true. cbv iota.
    destruct (search section_re _) as [m|]; [|discriminate].
    inversion Hs as [Hm]. rewrite Hm, unescape_escape. reflexivity.
  - change (Py.startswith $"\section"
              (bsl :: $"sub" ++ $"section{" ++ escape_latex title ++ ["}"%char]))
      with false.
    change (Py.startswith $"\subsection"
              (bsl :: $"sub" ++ $"section{" ++ escape_latex title ++ ["}"%char]))
      with true. cbv iota.
    destruct (search section_re _) as [m|]; [|discriminate].
    inversion Hs as [Hm]. rewrite Hm, unescape_escape. reflexivity.
  - change (Py.startswith $"\section"
              (bsl :: $"sub" ++ $"sub" ++ $"section{" ++ escape_latex title
               ++ ["}"%char]))
      with false.
    change (Py.startswith $"\subsection"
              (bsl :: $"sub" ++ $"sub" ++ $"section{" ++ escape_latex title
               ++ ["}"%char]))
      with false.
    change (Py.startswith $"\subsubsection"
              (bsl :: $"sub" ++ $"sub" ++ $"section{" ++ escape_latex title
               ++ ["}"%char]))
      with true. cbv iota.
    destruct (search section_re _) as [m|]; [|discriminate].
    inversion Hs as [Hm]. rewrite Hm, unescape_escape. reflexivity.
Qed.
(** A character that is no white space after a text brings no blank
    line. *)
Lemma run_blank_tail_snoc (y : str) (d : ascii) :
  Py.isspace d = false ->
  run (Cat (Star Space) (Lit nl)) y [] (fun rest cs => Some (rest, cs)) = None ->
  run (Cat (Star Space) (Lit nl)) (y ++ [d]) [] (fun rest cs => Some (rest, cs))
  = None.
Proof.
  intros Hd. induction y as [|c y IH]; intros H.
  - cbn [app]. rewrite run_blank_tail_cons, Hd. reflexivity.
  - cbn [app]. rewrite run_blank_tail_cons in *.
    destruct (Py.isspace c); [|reflexivity].
    destruct (run (Cat (Star Space) (Lit nl)) y [] _) eqn:E; [discriminate|].
    rewrite (IH eq_refl).
    destruct (Ascii.eqb nl c); [discriminate | reflexivity].
Qed.

Lemma search_blank_snoc (x : str) (d : ascii) :
  Py.isspace d = false ->
  forall pos,
  search_from blank_re pos x = None ->
  search_from blank_re pos (x ++ [d]) = None.
Proof.
  intros Hd. induction x as [|c x IH]; intros pos H.
  - cbn [app]. rewrite TableLossFacts.search_from_cons, match_here_blank.
    destruct (Ascii.eqb_spec nl d) as [<-|_]; [vm_compute in Hd; discriminate Hd|].
    reflexivity.
  - cbn [app]. rewrite TableLossFacts.search_from_cons in *.
    rewrite match_here_blank in *.
    destruct (Ascii.eqb nl c).
    + destruct (run _ x [] _) as [[? ?]|] eqn:Et; [discriminate|].
      rewrite (run_blank_tail_snoc x d Hd Et). apply IH, H.
    + apply IH, H.
Qed.

Lemma strip_ends (c d : ascii) (mid : str) :
  Py.isspace c = false -> Py.isspace d = false ->
  Py.strip (c :: mid ++ [d]) = c :: mid ++ [d].
Proof.
  intros Hc Hd. unfold Py.strip. cbn [Py.lstrip]. rewrite Hc.
  change (c :: mid ++ [d]) with ((c :: mid) ++ [d]).
  rewrite rstrip_snoc, Hd. reflexivity.
Qed.

(** The command of a heading is a block of its own. *)
Lemma heading_line_whole (level : nat) (title : str) :
  search blank_re title = None ->
  whole_block (heading_line level title).
Proof.
  intros Hb. unfold heading_line. change ($"}") with ["}"%char]. split.
  - rewrite !app_assoc. apply strip_ends; reflexivity.
  - unfold search.
    change (bsl :: concat (repeat $"sub" (level - 1)) ++ $"section{"
            ++ escape_latex title ++ ["}"%char])
      with ([bsl] ++ concat (repeat $"sub" (level - 1)) ++ $"section{"
            ++ escape_latex title ++ ["}"%char]).
    apply search_blank_nonspace_app; [reflexivity|].
    apply search_blank_nonspace_app.
    { induction (level - 1) as [|n IH]; [reflexivity|].
      cbn [repeat concat]. rewrite forallb_app, IH. reflexivity. }
    apply search_blank_nonspace_app; [reflexivity|].
    apply search_blank_snoc; [reflexivity|].
    apply search_blank_escape, Hb.
Qed.

Lemma item_ok_nonblank (item : Item) :
  item_ok item ->
  match item with
  | Title _ title => Py.strip title <> []
  | Text paragraph => Py.strip (par_text paragraph) <> []
  end.
Proof.
  destruct item as [level title|paragraph]; cbn [item_ok].
  - intros (_ & H & _). exact H.
  - intros (_ & Hne & Hs & _). rewrite Hs. exact Hne.
Qed.

(** The generator on the element of an item. *)
Lemma item_generated (item : Item) :
  item_ok item ->
  match item_element item with
  | LatexGenerator.CT_P paragraph =>
      LatexGenerator._process_paragraph paragraph = item_line item
  | LatexGenerator.CT_Tbl _ => False
  end.
Proof.
  destruct item as [level title|paragraph]; cbn [item_ok item_element item_line].
  - intros (Hl & Hs & _). apply process_paragraph_heading; assumption.
  - intros (Hplain & Hne & Hs & _ & Hstyle & Halign).
    assert (Hn : Py.strip (par_text paragraph) <> [])
      by (rewrite Hs; exact Hne).
    rewrite (AlignedFacts.generate_plain paragraph Hplain Hn Hstyle).
    destruct (par_alignment paragraph) as [[| | |]|]; try discriminate;
      reflexivity.
Qed.

Lemma item_line_nonempty (item : Item) :
  item_ok item -> item_line item <> [].
Proof.
  destruct item as [level title|paragraph]; cbn [item_ok item_line].
  - intros _. discriminate.
  - intros (_ & Hne & _). apply HeadingFacts.escape_nonempty, Hne.
Qed.

Lemma items_body_lines (items : list Item) :
  Forall item_ok items ->
  LatexGenerator.body_lines (map item_element items) = map item_line items.
Proof.
  induction 1 as [|item items Hi _ IH]; [reflexivity|].
  pose proof (item_generated item Hi) as Hg.
  pose proof (item_line_nonempty item Hi) as Hne.
  cbn [map]. destruct (item_element item) as [paragraph|table]; [|contradiction].
  cbn [LatexGenerator.body_lines]. rewrite Hg, IH.
  destruct (item_line item); [congruence | reflexivity].
Qed.

Lemma items_whole_blocks (items : list Item) :
  Forall item_ok items -> Forall whole_block (map item_line items).
Proof.
  intros H. apply Forall_map. eapply Forall_impl; [|exact H].
  intros [level title|paragraph]; cbn [item_ok item_line].
  - intros (_ & _ & _ & Hb). apply heading_line_whole, Hb.
  - intros (_ & _ & Hs & Hb & _). apply escaped_whole_block; assumption.
Qed.

Lemma items_links_clear (m : str) (items : list Item) :
  Forall item_ok items -> links_clear m (map item_element items) = true.
Proof.
  induction 1 as [|item items Hi _ IH]; [reflexivity|].
  cbn [map links_clear forallb].
  fold (links_clear m (map item_element items)). rewrite IH, andb_true_r.
  destruct item as [level title|paragraph]; cbn [item_element].
  - reflexivity.
  - apply plain_run_url, Hi.
Qed.

Lemma items_parse (w : World) (items : list Item) :
  Forall item_ok items ->
  forall doc,
  fold_left (fun doc block => _process_block w block doc) (map item_line items) doc
  = doc ++ map item_read items.
Proof.
  induction 1 as [|item items Hi _ IH]; intros doc; [symmetry; apply app_nil_r|].
  assert (Hb : _process_block w (item_line item) doc = doc ++ [item_read item]).
  { destruct item as [level title|paragraph];
      cbn [item_ok item_line item_read] in *.
    - destruct Hi as (Hl & Hs & Hp & _).
      apply heading_line_parse; [exact Hl | apply strip_nonempty, Hs | exact Hp].
    - destruct Hi as (_ & Hne & Hs & _).
      apply escaped_block_parse. rewrite Hs. exact Hne. }
  cbn [map fold_left]. rewrite Hb, IH, <- app_assoc. reflexivity.
Qed.


End OutlineFacts.

(** X26.  A document of headings of the levels 1 to 3 and of paragraphs of
    plain runs comes back from the generator and the parser element by
    element and in order: each heading with its level and its title, each
    paragraph with its whole text in one plain run; the settings of the
    generator play no part as long as their free texts bring no begin marker
    of the document environment. *)
Theorem outline_document_roundtrip (w : DocxGenerator.World)
  (options : ConversionOptions) (items : list Item)
  (doc : DocxGenerator.Document) :
  settings_clear options = true ->
  Forall item_ok items ->
  DocxGenerator._parse_latex w
    (Preamble._generate_latex options (map item_element items)) doc
  = doc ++ map item_read items.
Proof.
  intros Ho Hi. unfold DocxGenerator._parse_latex. cbv zeta.
  rewrite DocumentFacts.generated_blocks;
    try assumption; try (apply OutlineFacts.items_links_clear, Hi).
  - rewrite OutlineFacts.items_body_lines by exact Hi.
    apply OutlineFacts.items_parse, Hi.
  - rewrite OutlineFacts.items_body_lines by exact Hi.
    apply OutlineFacts.items_whole_blocks, Hi.
Qed.

Lemma outline_document_roundtrip_witness :
  let w := {| DocxGenerator.path_exists := fun _ => false;
              DocxGenerator.picture_loads := fun _ => false |} in
  let items :=
    [ Title 1 $"Costs & risks";
      Text {| par_style := $"Normal";
              par_runs := [plain_run $"Profit & loss: "; plain_run $"50% {net}"];
              par_alignment := Some LEFT |};
      Title 3 $"Tools_1 #2";
      Text {| par_style := $"Body Text";
              par_runs := [plain_run $"C:\dir_1"];
              par_alignment := None |} ] in
  settings_clear default_options = true
  /\ Forall item_ok items
  /\ DocxGenerator._parse_latex w
       (Preamble._generate_latex default_options (map item_element items)) []
     = [] ++ map item_read items.
Proof.
  intros w items.
  assert (Ho : settings_clear default_options = true) by reflexivity.
  assert (Hi : Forall item_ok items).
  { unfold item_ok, simple_paragraph.
    repeat constructor; first [lia | vm_compute; discriminate]. }
  split; [exact Ho|]. split; [exact Hi|].
  apply (outline_document_roundtrip w default_options items [] Ho Hi).
Defined.

(** ** White space *)

Module WhitespaceFacts.

Import Re ReFacts.

(** A run of [k] characters [c] starts the text exactly when the longest
    run at its start has [k] characters or more. *)
Lemma startswith_repeat (c : ascii) (k : nat) (s : str) :
  Py.startswith (repeat c k) s
  = (k <=? length (take_while (Ascii.eqb c) s)).
Proof.
  revert s. induction k as [|k IH]; intros s.
  - destruct s; reflexivity.
  - destruct s as [|x s]; [reflexivity|].
    cbn [repeat Py.startswith take_while].
    destruct (Ascii.eqb c x); [apply IH | reflexivity].
Qed.

Lemma cap_runs_cons (c : ascii) (k : nat) (x : ascii) (s : str) :
  cap_runs c k (x :: s)
  = if Ascii.eqb c x && (k <=? length (take_while (Ascii.eqb c) s))
    then cap_runs c k s else x :: cap_runs c k s.
Proof. cbn [cap_runs]. rewrite startswith_repeat. reflexivity. Qed.

(** Where no run of [k] starts, nothing is dropped. *)
Lemma cap_runs_prefix (c : ascii) (k : nat) (pre rest : str) :
  (forall j, j < length pre ->
     Py.startswith (repeat c k) (skipn j (pre ++ rest)) = false) ->
  cap_runs c k (pre ++ rest) = pre ++ cap_runs c k rest.
Proof.
  induction pre as [|x pre IH]; intros H; [reflexivity|].
  cbn [app]. rewrite cap_runs_cons.
  assert (H0 : Py.startswith (repeat c k) ((x :: pre) ++ rest) = false)
    by (apply (H 0); cbn [length]; lia).
  rewrite startswith_repeat in H0. cbn [app take_while] in H0.
  rewrite IH by (intros j Hj; apply (H (S j)); cbn [length]; lia).
  destruct (Ascii.eqb c x); [|reflexivity].
  cbn [length] in H0. apply Nat.leb_gt in H0.
  destruct (Nat.leb_spec k (length (take_while (Ascii.eqb c) (pre ++ rest))));
    [lia | reflexivity].
Qed.

Lemma take_while_repeat (c : ascii) (n : nat) (rest : str) :
  head_is (Ascii.eqb c) rest = false ->
  take_while (Ascii.eqb c) (repeat c n ++ rest) = repeat c n.
Proof.
  intros H. induction n as [|n IH]; cbn [repeat app take_while].
  - destruct rest as [|x rest]; [reflexivity|]. cbn [head_is] in H.
    cbn [take_while]. rewrite H. reflexivity.
  - rewrite Ascii.eqb_refl, IH. reflexivity.
Qed.

(** A run of at least [k], before a character other than [c], is cut to
    [k]. *)
Lemma cap_runs_run (c : ascii) (k : nat) (rest : str) :
  head_is (Ascii.eqb c) rest = false ->
  forall n,
  cap_runs c k (repeat c n ++ rest)
  = repeat c (Nat.min n k) ++ cap_runs c k rest.
Proof.
  intros H. induction n as [|n IH]; [reflexivity|].
  cbn [repeat app]. rewrite cap_runs_cons, Ascii.eqb_refl.
  rewrite take_while_repeat by exact H. rewrite repeat_length, IH.
  cbn [andb]. destruct (Nat.leb_spec k n).
  - rewrite !Nat.min_r by lia. reflexivity.
  - rewrite !Nat.min_l by lia. reflexivity.
Qed.

Lemma take_while_is_run (c : ascii) (s : str) :
  take_while (Ascii.eqb c) s = repeat c (length (take_while (Ascii.eqb c) s)).
Proof.
  induction s as [|x s IH]; [reflexivity|]. cbn [take_while].
  destruct (Ascii.eqb_spec c x) as [<-|]; [|reflexivity].
  cbn [length repeat]. rewrite <- IH. reflexivity.
Qed.

Lemma drop_while_no_head (c : ascii) (s : str) :
  head_is (Ascii.eqb c) (drop_while (Ascii.eqb c) s) = false.
Proof.
  induction s as [|x s IH]; [reflexivity|]. cbn [drop_while].
  destruct (Ascii.eqb c x) eqn:E; [exact IH|]. cbn [head_is]. exact E.
Qed.

(** The substitution of the runs of at least [k] characters [c] by [k] of
    them, for a pattern that matches these runs. *)
Lemma sub_loop_runs (r : regex) (c : ascii) (k : nat) :
  1 <= k ->
  (forall pos s,
     match_here r pos s
     = if Py.startswith (repeat c k) s
       then Some {| m_start := pos;
                    m_end := pos + length (take_while (Ascii.eqb c) s);
                    m_groups := [] |}
       else None) ->
  forall fuel s, length s < fuel ->
  sub_loop fuel r (repeat c k) s = cap_runs c k s.
Proof.
  intros Hk Hr. induction fuel as [|f IH]; intros s Hs; [lia|].
  cbn [sub_loop]. destruct (search r s) as [m|] eqn:E.
  - unfold search in E.
    apply InlineFacts.search_from_some in E as (n & Hn & Hm & Hlow).
    cbn [Nat.add] in *. rewrite Hr in Hm.
    destruct (Py.startswith (repeat c k) (skipn n s)) eqn:Erun; [|discriminate].
    inversion Hm; subst m. cbn [m_start m_end]. clear Hm.
    pose proof (take_drop_while (Ascii.eqb c) (skipn n s)) as Hsplit.
    pose proof (drop_while_skipn (Ascii.eqb c) (skipn n s)) as Hskip.
    rewrite skipn_skipn in Hskip.
    rewrite (Nat.add_comm n), <- Hskip.
    rewrite startswith_repeat in Erun. apply Nat.leb_le in Erun.
    assert (Hlen : length (drop_while (Ascii.eqb c) (skipn n s)) < f).
    { apply (f_equal (@length ascii)) in Hsplit.
      rewrite length_app, length_skipn in Hsplit. lia. }
    rewrite (IH _ Hlen).
    rewrite <- (firstn_skipn n s) at 3.
    rewrite cap_runs_prefix.
    + f_equal.
      pose proof (take_while_is_run c (skipn n s)) as Hrun.
      pose proof (drop_while_no_head c (skipn n s)) as Hhead.
      remember (drop_while (Ascii.eqb c) (skipn n s)) as rest eqn:Erest.
      remember (length (take_while (Ascii.eqb c) (skipn n s))) as L eqn:EL.
      rewrite Hrun in Hsplit. rewrite <- Hsplit.
      rewrite cap_runs_run by exact Hhead.
      rewrite Nat.min_r by lia. reflexivity.
    + intros j Hj. rewrite firstn_skipn.
      rewrite length_firstn in Hj.
      specialize (Hlow j ltac:(lia)). rewrite Hr in Hlow.
      destruct (Py.startswith (repeat c k) (skipn j s)); [discriminate | reflexivity].
  - symmetry. rewrite <- (app_nil_r s) at 1.
    rewrite cap_runs_prefix; [apply app_nil_r|].
    intros j Hj. rewrite app_nil_r.
    pose proof (InlineFacts.search_from_none r s 0 E j ltac:(lia)) as Hnone.
    rewrite Hr in Hnone.
    destruct (Py.startswith (repeat c k) (skipn j s)); [discriminate | reflexivity].
Qed.
Lemma run_lengths (c : ascii) (s : str) :
  length s
  = length (take_while (Ascii.eqb c) s) + length (drop_while (Ascii.eqb c) s).
Proof.
  rewrite <- length_app, take_drop_while. reflexivity.
Qed.

(** The pattern of the spaces matches the runs of one space or more. *)
Lemma match_here_spaces (pos : nat) (s : str) :
  match_here spaces_re pos s
  = if Py.startswith (repeat " "%char 1) s
    then Some {| m_start := pos;
                 m_end := pos + length (take_while (Ascii.eqb " ") s);
                 m_groups := [] |}
    else None.
Proof.
  rewrite startswith_repeat.
  unfold match_here, spaces_re, Plus. rewrite run_Cat, FigureFacts.run_Lit.
  destruct s as [|x s]; [reflexivity|].
  cbn [take_while]. destruct (Ascii.eqb " " x); [|reflexivity].
  unfold Lit.
  rewrite (run_Star_Chr_first (Ascii.eqb " ") _ s []
             (drop_while (Ascii.eqb " ") s, []) eq_refl).
  cbn [length Nat.leb]. f_equal. f_equal.
  pose proof (run_lengths " " s). lia.
Qed.

(** The pattern of the line breaks matches the runs of two or more. *)
Lemma match_here_newlines (pos : nat) (s : str) :
  match_here newlines_re pos s
  = if Py.startswith (repeat nl 2) s
    then Some {| m_start := pos;
                 m_end := pos + length (take_while (Ascii.eqb nl) s);
                 m_groups := [] |}
    else None.
Proof.
  rewrite startswith_repeat.
  unfold match_here, newlines_re, Plus.
  rewrite run_Cat, FigureFacts.run_Lit.
  destruct s as [|x s]; [reflexivity|].
  cbn [take_while]. destruct (Ascii.eqb nl x); [|reflexivity].
  rewrite run_Cat, FigureFacts.run_Lit.
  destruct s as [|y s]; [reflexivity|].
  cbn [take_while]. destruct (Ascii.eqb nl y); [|reflexivity].
  unfold Lit.
  rewrite (run_Star_Chr_first (Ascii.eqb nl) _ s []
             (drop_while (Ascii.eqb nl) s, []) eq_refl).
  cbn [length Nat.leb]. f_equal. f_equal.
  pose proof (run_lengths nl s). lia.
Qed.

Lemma sub_spaces (s : str) :
  Re.sub spaces_re $" " s = cap_runs " " 1 s.
Proof.
  unfold Re.sub. change ($" ") with (repeat " "%char 1).
  apply sub_loop_runs; [lia | apply match_here_spaces | lia].
Qed.

Lemma sub_newlines (s : str) :
  Re.sub newlines_re [nl; nl] s = cap_runs nl 2 s.
Proof.
  unfold Re.sub. change [nl; nl] with (repeat nl 2).
  apply sub_loop_runs; [lia | apply match_here_newlines | lia].
Qed.

(** The runs of the result have at most [k] characters. *)
Lemma cap_runs_run_length (c : ascii) (k : nat) (s : str) :
  1 <= k ->
  length (take_while (Ascii.eqb c) (cap_runs c k s))
  = Nat.min k (length (take_while (Ascii.eqb c) s)).
Proof.
  intros Hk. induction s as [|x s IH]; [cbn; lia|].
  rewrite cap_runs_cons. cbn [take_while].
  destruct (Ascii.eqb c x) eqn:E; cbn [andb].
  - destruct (Nat.leb_spec k (length (take_while (Ascii.eqb c) s))).
    + rewrite IH. cbn [length]. lia.
    + cbn [take_while]. rewrite E. cbn [length]. rewrite IH. lia.
  - cbn [take_while]. rewrite E. cbn [length]. lia.
Qed.

Lemma cap_runs_bounded (c : ascii) (k : nat) (s : str) :
  1 <= k -> Py.contains (repeat c (S k)) (cap_runs c k s) = false.
Proof.
  intros Hk.
  assert (Hstart : forall t,
            Py.startswith (repeat c (S k)) (cap_runs c k t) = false).
  { intros t. rewrite startswith_repeat, cap_runs_run_length by exact Hk.
    apply Nat.leb_gt. lia. }
  induction s as [|x s IH]; [reflexivity|].
  pose proof (Hstart (x :: s)) as H0. rewrite cap_runs_cons in *.
  destruct (Ascii.eqb c x && (k <=? length (take_while (Ascii.eqb c) s)));
    [exact IH|].
  cbn [Py.contains]. rewrite H0. exact IH.
Qed.

(** A text without a run of more than [k] is left alone. *)
Lemma cap_runs_fixed (c : ascii) (k : nat) (s : str) :
  Py.contains (repeat c (S k)) s = false -> cap_runs c k s = s.
Proof.
  induction s as [|x s IH]; intros H; [reflexivity|].
  cbn [Py.contains] in H.
  destruct (Py.startswith (repeat c (S k)) (x :: s)) eqn:E; [discriminate|].
  cbn [cap_runs]. cbn [repeat Py.startswith] in E.
  destruct (Ascii.eqb c x); cbn [andb]; rewrite ?E; rewrite (IH H); reflexivity.
Qed.

Lemma cap_runs_head (c a : ascii) (k : nat) (s : str) :
  1 <= k ->
  head_is (Ascii.eqb a) (cap_runs c k s) = head_is (Ascii.eqb a) s.
Proof.
  intros Hk. induction s as [|x s IH]; [reflexivity|].
  rewrite cap_runs_cons.
  destruct (Ascii.eqb_spec c x) as [<-|]; cbn [andb]; [|reflexivity].
  destruct (Nat.leb_spec k (length (take_while (Ascii.eqb c) s))); [|reflexivity].
  rewrite IH. destruct s as [|y s]; [cbn in *; lia|].
  cbn [take_while] in *. cbn [head_is].
  destruct (Ascii.eqb_spec c y) as [<-|]; [reflexivity | cbn in *; lia].
Qed.

Lemma startswith_pair (a x : ascii) (t : str) :
  Py.startswith [a; a] (x :: t) = Ascii.eqb a x && head_is (Ascii.eqb a) t.
Proof.
  cbn [Py.startswith]. destruct (Ascii.eqb a x); [|reflexivity].
  destruct t as [|y t]; [reflexivity|]. cbn [Py.startswith head_is andb].
  destruct (Ascii.eqb a y); reflexivity.
Qed.

(** Cutting runs brings no pair of adjacent characters the text did not
    have. *)
Lemma cap_runs_pair (c a : ascii) (k : nat) (s : str) :
  1 <= k ->
  Py.contains [a; a] s = false -> Py.contains [a; a] (cap_runs c k s) = false.
Proof.
  intros Hk. induction s as [|x s IH]; intros H; [reflexivity|].
  cbn [Py.contains] in H.
  destruct (Py.startswith [a; a] (x :: s)) eqn:E; [discriminate|].
  rewrite cap_runs_cons.
  destruct (Ascii.eqb c x && (k <=? length (take_while (Ascii.eqb c) s)));
    [apply IH, H|].
  cbn [Py.contains]. rewrite startswith_pair in *.
  rewrite cap_runs_head by exact Hk. rewrite E. apply IH, H.
Qed.

Lemma contains_app_l (p u v : str) :
  Py.contains p u = true -> Py.contains p (u ++ v) = true.
Proof.
  induction u as [|x u IH]; cbn [Py.contains app]; intros H.
  - destruct (Py.startswith p []) eqn:E; [|discriminate].
    destruct p; [|discriminate]. destruct v; reflexivity.
  - destruct (Py.startswith p (x :: u)) eqn:E.
    + change (x :: u ++ v) with ((x :: u) ++ v).
      rewrite (startswith_app_l _ _ v E). reflexivity.
    + rewrite (IH H). destruct (Py.startswith p (x :: u ++ v)); reflexivity.
Qed.

Lemma contains_app_r (p u v : str) :
  Py.contains p v = true -> Py.contains p (u ++ v) = true.
Proof.
  intros H. induction u as [|x u IH]; [exact H|].
  cbn [app Py.contains]. rewrite IH.
  destruct (Py.startswith p (x :: u ++ v)); reflexivity.
Qed.

(** Stripping brings nothing the text did not hold. *)
Lemma contains_strip (p s : str) :
  Py.contains p s = false -> Py.contains p (Py.strip s) = false.
Proof.
  intros H. unfold Py.strip.
  destruct (BlockFacts.lstrip_suffix s) as (head & Hs & _).
  destruct (BlockFacts.rstrip_prefix (Py.lstrip s)) as (tail & Hl & _).
  destruct (Py.contains p (Py.rstrip (Py.lstrip s))) eqn:E; [|reflexivity].
  rewrite Hs, Hl in H.
  rewrite (contains_app_r p head _ (contains_app_l p _ tail E)) in H.
  discriminate H.
Qed.

(** The three steps of the function, on the runs of the text. *)
Lemma normalize_whitespace_runs (text : str) :
  normalize_whitespace text
  = Py.strip (cap_runs nl 2 (cap_runs " " 1 text)).
Proof.
  unfold normalize_whitespace. rewrite sub_spaces, sub_newlines. reflexivity.
Qed.

End WhitespaceFacts.

(** X27.  The normalized text is the text with its runs of spaces cut to one
    space and its runs of line breaks cut to two, without the white space
    at its ends: it holds no two adjacent spaces and no three adjacent line
    breaks, and stripping leaves it alone. *)
Theorem normalized_text_has_no_long_run (text : str) :
  normalize_whitespace text = Py.strip (cap_runs nl 2 (cap_runs " " 1 text))
  /\ Py.contains $"  " (normalize_whitespace text) = false
  /\ Py.contains [nl; nl; nl] (normalize_whitespace text) = false
  /\ Py.strip (normalize_whitespace text) = normalize_whitespace text.
Proof.
  rewrite WhitespaceFacts.normalize_whitespace_runs.
  split; [reflexivity|]. split; [|split].
  - apply WhitespaceFacts.contains_strip.
    apply (WhitespaceFacts.cap_runs_pair nl " " 2); [lia|].
    apply (WhitespaceFacts.cap_runs_bounded " " 1). lia.
  - apply WhitespaceFacts.contains_strip.
    apply (WhitespaceFacts.cap_runs_bounded nl 2). lia.
  - apply BlockFacts.strip_idem.
Qed.

(** X28.  Normalizing twice is normalizing once. *)
Theorem normalize_whitespace_idempotent (text : str) :
  normalize_whitespace (normalize_whitespace text) = normalize_whitespace text.
Proof.
  rewrite (WhitespaceFacts.normalize_whitespace_runs (normalize_whitespace text)).
  assert (Hs : Py.contains (repeat " "%char 2) (normalize_whitespace text) = false).
  { rewrite WhitespaceFacts.normalize_whitespace_runs.
    apply WhitespaceFacts.contains_strip.
    apply (WhitespaceFacts.cap_runs_pair nl " " 2); [lia|].
    apply (WhitespaceFacts.cap_runs_bounded " " 1). lia. }
  assert (Hn : Py.contains (repeat nl 3) (normalize_whitespace text) = false).
  { rewrite WhitespaceFacts.normalize_whitespace_runs.
    apply WhitespaceFacts.contains_strip.
    apply (WhitespaceFacts.cap_runs_bounded nl 2). lia. }
  rewrite (WhitespaceFacts.cap_runs_fixed " " 1 _ Hs).
  rewrite (WhitespaceFacts.cap_runs_fixed nl 2 _ Hn).
  rewrite WhitespaceFacts.normalize_whitespace_runs.
  apply BlockFacts.strip_idem.
Qed.

(** ** Paragraphs with hyperlinks *)

Module LinkedFacts.

Import MarkerFacts RoundTripFacts ParagraphFacts GeneratedFacts.

Lemma runs_unlinked (p : Linked.LinkedParagraph) :
  Forall (fun run => run_hyperlink run = None) (Linked.runs p).
Proof.
  unfold Linked.runs. induction (Linked.lp_content p) as [|[run|a linked] items IH];
    cbn [flat_map app]; [constructor | constructor; [reflexivity | exact IH] | exact IH].
Qed.






Lemma process_heading_open (p : Linked.LinkedParagraph) :
  Linked._process_heading p
  = heading_open (Linked.lp_style p) ++ escape_latex (Linked.text p) ++ $"}".
Proof.
  unfold Linked._process_heading, heading_open.
  repeat match goal with |- context [if ?b then _ else _] => destruct b end;
    reflexivity.
Qed.


Lemma heading_open_nonempty (style_name : str) : heading_open style_name <> [].
Proof.
  unfold heading_open.
  repeat match goal with |- context [if ?b then _ else _] => destruct b end;
    discriminate.
Qed.

(** The generated text, in one equation. *)
Lemma process_paragraph_unfold (p : Linked.LinkedParagraph) :
  Linked._process_paragraph p
  = match Py.strip (Linked.text p) with
    | [] => []
    | _ :: _ =>
        if Py.startswith $"Heading" (Linked.lp_style p)
        then heading_open (Linked.lp_style p)
             ++ escape_latex (Linked.text p) ++ $"}"
        else aligned (Linked.lp_alignment p)
               (concat (map LatexGenerator.render_run (Linked.runs p)))
    end.
Proof.
  unfold Linked._process_paragraph. rewrite process_heading_open. reflexivity.
Qed.



(** White space all over the paragraph is white space outside the links. *)
Lemma blank_text_direct (p : Linked.LinkedParagraph) :
  forallb Py.isspace (Linked.text p) = true ->
  forallb Py.isspace (direct_text p) = true.
Proof.
  unfold Linked.text, direct_text, Linked.runs.
  induction (Linked.lp_content p) as [|[run|a linked] items IH];
    cbn [map concat flat_map app Linked.inner_text]; [reflexivity| |].
  - rewrite !forallb_app. intros H. apply andb_prop in H as [H1 H2].
    cbn [Linked.as_run run_text]. rewrite H1, (IH H2). reflexivity.
  - rewrite forallb_app. intros H. apply andb_prop in H as [_ H2]. exact (IH H2).
Qed.

(** A run without link is rendered as nothing exactly when it has neither
    text nor flag. *)
Lemma render_void (run : Run) :
  run_hyperlink run = None ->
  LatexGenerator.render_run run = [] <-> is_void run = true.
Proof.
  intros Hl. split.
  - intros H. pose proof (DropFacts.render_run_nil run H) as Ht.
    unfold is_void, is_plain. unfold LatexGenerator.render_run in H.
    rewrite Ht, Hl in *.
    destruct (run_bold run), (run_italic run), (run_underline run);
      first [reflexivity | discriminate H].
  - unfold is_void, is_plain, LatexGenerator.render_run. rewrite Hl.
    destruct (run_text run); [|discriminate].
    destruct (run_bold run), (run_italic run), (run_underline run);
      first [reflexivity | discriminate].
Qed.

Lemma render_runs_void (runs : list Run) :
  Forall (fun run => run_hyperlink run = None) runs ->
  concat (map LatexGenerator.render_run runs) = [] <-> forallb is_void runs = true.
Proof.
  induction 1 as [|run runs Hl _ IH]; [split; reflexivity|].
  cbn [map concat forallb]. split.
  - intros H. apply app_eq_nil in H as [H1 H2].
    apply andb_true_intro. split; [apply render_void | apply IH]; assumption.
  - intros H. apply andb_prop in H as [H1 H2].
    apply (render_void run Hl) in H1. apply IH in H2. rewrite H1, H2. reflexivity.
Qed.

End LinkedFacts.



(** X5.  A paragraph of the body with hyperlink elements, whose runs outside
    the hyperlink elements carry no formatting and have a text that is not
    blank, and whose alignment asks for no environment, is generated as the
    escaped text outside the links and read back as one paragraph with one
    plain run of that text: the links are lost with their text and their
    target. *)
Theorem linked_paragraph_roundtrip (w : DocxGenerator.World)
  (p : Linked.LinkedParagraph) (doc : DocxGenerator.Document) :
  forallb is_plain (Linked.runs p) = true ->
  Py.strip (direct_text p) <> [] ->
  Py.startswith $"Heading" (Linked.lp_style p) = false ->
  flows_left (Linked.lp_alignment p) = true ->
  Linked._process_paragraph p = escape_latex (direct_text p)
  /\ DocxGenerator._process_block w (Linked._process_paragraph p) doc
     = doc ++ [DocxGenerator.Para
                 (DocxGenerator.add_paragraph (direct_text p) $"Normal")].
Proof.
  intros Hplain Htext Hstyle Halign.
  assert (Hgen : Linked._process_paragraph p = escape_latex (direct_text p)).
  { unfold Linked._process_paragraph.
    destruct (Py.strip (Linked.text p)) eqn:Es.
    - exfalso. apply Htext, RoundTripFacts.strip_spaces.
      apply LinkedFacts.blank_text_direct, RoundTripFacts.strip_nil, Es.
    - rewrite Hstyle, ParagraphFacts.render_plain_runs by exact Hplain.
      unfold direct_text.
      destruct (Linked.lp_alignment p) as [[| | |]|]; try discriminate;
        reflexivity. }
  split; [exact Hgen|].
  rewrite Hgen. apply ParagraphFacts.escaped_block_parse, Htext.
Qed.

Lemma linked_paragraph_roundtrip_witness :
  let p :=
    {| Linked.lp_style := $"Normal";
       Linked.lp_content :=
         [ Linked.InnerRun
             {| Linked.tr_text := $"see "; Linked.tr_bold := false;
                Linked.tr_italic := false; Linked.tr_underline := false |};
           Linked.InnerHyperlink $"http://x.org"
             [ {| Linked.tr_text := $"here"; Linked.tr_bold := true;
                  Linked.tr_italic := false; Linked.tr_underline := false |} ];
           Linked.InnerRun
             {| Linked.tr_text := $" for 50%"; Linked.tr_bold := false;
                Linked.tr_italic := false; Linked.tr_underline := false |} ];
       Linked.lp_alignment := None |} in
  forallb is_plain (Linked.runs p) = true
  /\ Py.strip (direct_text p) <> []
  /\ Py.startswith $"Heading" (Linked.lp_style p) = false
  /\ flows_left (Linked.lp_alignment p) = true
  /\ Linked._process_paragraph p = escape_latex (direct_text p)
  /\ DocxGenerator._process_block no_files (Linked._process_paragraph p) []
     = [] ++ [DocxGenerator.Para
                (DocxGenerator.add_paragraph (direct_text p) $"Normal")].
Proof.
  intros p. split; [reflexivity|]. split; [discriminate|].
  split; [reflexivity|]. split; [reflexivity|].
  apply (linked_paragraph_roundtrip no_files p []);
    [reflexivity | discriminate | reflexivity | reflexivity].
Defined.

(** X16.  The generator writes nothing for a paragraph in two cases only:
    the text of the paragraph, the text of its links included, is empty or
    white space only; or the paragraph is no heading, its alignment asks
    for no environment, and every run outside the hyperlink elements has
    neither text nor flag, whatever the hyperlink elements hold. *)
Theorem paragraph_dropped_iff (p : Linked.LinkedParagraph) :
  Linked._process_paragraph p = []
  <-> forallb Py.isspace (Linked.text p) = true
      \/ (Py.startswith $"Heading" (Linked.lp_style p) = false
          /\ flows_left (Linked.lp_alignment p) = true
          /\ forallb is_void (Linked.runs p) = true).
Proof.
  rewrite LinkedFacts.process_paragraph_unfold.
  pose proof (LinkedFacts.render_runs_void _ (LinkedFacts.runs_unlinked p)) as Hv.
  split.
  - destruct (Py.strip (Linked.text p)) as [|c s] eqn:Es;
      [intros _; left; apply RoundTripFacts.strip_nil, Es|].
    destruct (Py.startswith _ _).
    + intros H. exfalso. apply app_eq_nil in H as [H _].
      exact (LinkedFacts.heading_open_nonempty _ H).
    + intros H. right. split; [reflexivity|].
      unfold aligned in H.
      destruct (Linked.lp_alignment p) as [[| | |]|];
        first [discriminate H | split; [reflexivity | apply Hv, H]].
  - intros [H|(Hs & Ha & Hr)].
    + rewrite (RoundTripFacts.strip_spaces _ H). reflexivity.
    + destruct (Py.strip (Linked.text p)); [reflexivity|].
      rewrite Hs. apply Hv in Hr. rewrite Hr.
      destruct (Linked.lp_alignment p) as [[| | |]|];
        first [discriminate Ha | reflexivity].
Qed.

Lemma paragraph_dropped_iff_witness :
  let p :=
    {| Linked.lp_style := $"Normal";
       Linked.lp_content :=
         [ Linked.InnerHyperlink $"http://x.org"
             [ {| Linked.tr_text := $"here"; Linked.tr_bold := false;
                  Linked.tr_italic := false; Linked.tr_underline := false |} ] ];
       Linked.lp_alignment := None |} in
  Linked.text p = $"here" /\ Linked._process_paragraph p = [].
Proof.
  intros p. split; [reflexivity|].
  apply (proj2 (paragraph_dropped_iff p)). right.
  split; [reflexivity|]. split; reflexivity.
Defined.


